(** * Makcu Go library: a shallow embedding of connection.go, errors.go,
      mouse.go, controller.go and helpers.go, with properties of the
      transport, the mouse layer and the controller proved over it.

    Go [int] is modelled as [Z] (where a value can reach the 64-bit bounds
    the wrap-around is written out), Go strings and byte slices as [string]
    (a sequence of 8-bit characters), the pending-command map as a [gmap],
    and each capacity-1 result channel as a cell of a channel heap. Calls
    made on the serial port and on the port lister are recorded in a log;
    what those external calls answer is supplied by an environment
    argument. *)

From Stdlib Require Import ZArith Ascii String List Bool Lia.
From Stdlib Require Import Floats.PrimFloat Floats.SpecFloat Floats.FloatOps.
From Stdlib Require Import Numbers.Cyclic.Int63.Uint63.
From stdpp Require Import base gmap strings list fin_maps pretty.

Open Scope Z_scope.

(** ** Strings and bytes *)

Definition CR : ascii := "013"%char.
Definition LF : ascii := "010"%char.
Definition TAB : ascii := "009"%char.
Definition CRLF : string := String CR (String LF EmptyString).

(** [int(b)] for a byte [b]. *)
Definition byteVal (c : ascii) : Z := Z.of_N (N_of_ascii c).

(** *** UTF-8 and white space, as the Go library has them

    [parseResponseLine] and the lock queries call [strings.TrimSpace],
    which removes white space as Unicode defines it: the string is read as
    UTF-8, and bytes that are not valid UTF-8 count as the rune
    [RuneError], which is no space. *)

(** [utf8.RuneError], U+FFFD. *)
Definition RuneError : Z := 65533.

(** The tables [first] and [acceptRanges] of package [utf8]: for the first
    byte of a multi-byte sequence, the length of the sequence and the range
    its second byte has to lie in; [None] for a byte that starts no
    multi-byte sequence. *)
Definition leadByte (b : Z) : option (nat * Z * Z) :=
  if (194 <=? b) && (b <=? 223) then Some (2%nat, 128, 191)
  else if b =? 224 then Some (3%nat, 160, 191)
  else if (225 <=? b) && (b <=? 236) then Some (3%nat, 128, 191)
  else if b =? 237 then Some (3%nat, 128, 159)
  else if (238 <=? b) && (b <=? 239) then Some (3%nat, 128, 191)
  else if b =? 240 then Some (4%nat, 144, 191)
  else if (241 <=? b) && (b <=? 243) then Some (4%nat, 128, 191)
  else if b =? 244 then Some (4%nat, 128, 143)
  else None.

(** A continuation byte: between [locb] and [hicb]. *)
Definition continuation (b : Z) : bool := (128 <=? b) && (b <=? 191).

(** [utf8.RuneStart]: [b&0xC0 != 0x80]. *)
Definition RuneStart (b : Z) : bool := negb (Z.land b 192 =? 128).

(** [utf8.DecodeRuneInString]: the first rune of [p] and its width in
    bytes; [(RuneError, 0)] for no byte at all, [(RuneError, 1)] where the
    bytes are not valid UTF-8 (too few of them, a byte out of range, an
    overlong form, a surrogate, a value above U+10FFFF). *)
Definition DecodeRune (p : list ascii) : Z * nat :=
  match p with
  | [] => (RuneError, 0%nat)
  | c0 :: p1 =>
      let s0 := byteVal c0 in
      if s0 <? 128 then (s0, 1%nat)
      else
        match leadByte s0 with
        | None => (RuneError, 1%nat)
        | Some (sz, lo, hi) =>
            match p1 with
            | [] => (RuneError, 1%nat)
            | c1 :: p2 =>
                let s1 := byteVal c1 in
                if (s1 <? lo) || (hi <? s1) then (RuneError, 1%nat)
                else if (sz <=? 2)%nat then
                  (Z.lor (Z.shiftl (Z.land s0 31) 6) (Z.land s1 63), 2%nat)
                else
                  match p2 with
                  | [] => (RuneError, 1%nat)
                  | c2 :: p3 =>
                      let s2 := byteVal c2 in
                      if negb (continuation s2) then (RuneError, 1%nat)
                      else if (sz <=? 3)%nat then
                        (Z.lor (Z.lor (Z.shiftl (Z.land s0 15) 12)
                                      (Z.shiftl (Z.land s1 63) 6))
                               (Z.land s2 63), 3%nat)
                      else
                        match p3 with
                        | [] => (RuneError, 1%nat)
                        | c3 :: _ =>
                            let s3 := byteVal c3 in
                            if negb (continuation s3) then (RuneError, 1%nat)
                            else
                              (Z.lor (Z.lor (Z.lor (Z.shiftl (Z.land s0 7) 18)
                                                   (Z.shiftl (Z.land s1 63) 12))
                                            (Z.shiftl (Z.land s2 63) 6))
                                     (Z.land s3 63), 4%nat)
                        end
                  end
            end
        end
  end.

(** [utf8.DecodeLastRuneInString], on the bytes of the string in reverse
    order (last byte first). The library steps back from the last byte, over
    the three bytes before it at most, to the nearest byte that can start a
    rune, decodes from there, and accepts the result only when it ends
    exactly at the end of the string. *)
Definition DecodeLastRune (reversed : list ascii) : Z * nat :=
  let ending (bytes : list ascii) :=
    let '(r, size) := DecodeRune bytes in
    if (size =? length bytes)%nat then (r, size) else (RuneError, 1%nat) in
  match reversed with
  | [] => (RuneError, 0%nat)
  | c0 :: before =>
      if byteVal c0 <? 128 then (byteVal c0, 1%nat)
      else
        match before with
        | [] => (RuneError, 1%nat)
        | c1 :: before1 =>
            if RuneStart (byteVal c1) then ending [c1; c0]
            else
              match before1 with
              | [] => (RuneError, 1%nat)
              | c2 :: before2 =>
                  if RuneStart (byteVal c2) then ending [c2; c1; c0]
                  else
                    match before2 with
                    | [] => (RuneError, 1%nat)
                    | c3 :: _ =>
                        if RuneStart (byteVal c3) then ending [c3; c2; c1; c0]
                        else (RuneError, 1%nat)
                    end
              end
        end
  end.

(** [unicode.IsSpace]: the Latin-1 cases, then the rest of the table
    [White_Space]. *)
Definition IsSpace (r : Z) : bool :=
  if r <=? 255 then
    ((9 <=? r) && (r <=? 13)) || (r =? 32) || (r =? 133) || (r =? 160)
  else
    (r =? 5760) || ((8192 <=? r) && (r <=? 8202)) || (r =? 8232)
    || (r =? 8233) || (r =? 8239) || (r =? 8287) || (r =? 12288).

(** The loop of [strings.TrimLeftFunc(s, unicode.IsSpace)]: drop runes
    from the front while they are spaces. Every turn drops a byte at least,
    so the length of the string is fuel enough. *)
Fixpoint dropSpaces (decode : list ascii -> Z * nat) (fuel : nat)
    (p : list ascii) : list ascii :=
  match fuel with
  | O => p
  | S fuel' =>
      let '(r, size) := decode p in
      if (0 <? size)%nat && IsSpace r
      then dropSpaces decode fuel' (drop size p) else p
  end.

Definition TrimLeftSpace (p : list ascii) : list ascii :=
  dropSpaces DecodeRune (length p) p.

(** [strings.TrimRightFunc(s, unicode.IsSpace)]: the same from the back,
    with [DecodeLastRune]. *)
Definition TrimRightSpace (p : list ascii) : list ascii :=
  rev (dropSpaces DecodeLastRune (length p) (rev p)).

(** [strings.TrimSpace]. (Its fast path for ASCII returns what
    [TrimFunc(s, unicode.IsSpace)] returns.) *)
Definition TrimSpace (s : string) : string :=
  string_of_list_ascii (TrimRightSpace (TrimLeftSpace (list_ascii_of_string s))).

(** [strings.HasPrefix]. *)
Fixpoint HasPrefix (s p : string) : bool :=
  match p, s with
  | EmptyString, _ => true
  | String a p', String b s' => if ascii_dec a b then HasPrefix s' p' else false
  | String _ _, EmptyString => false
  end.

(** The slice expression [s[n:]]. *)
Fixpoint sliceFrom (n : nat) (s : string) : string :=
  match n, s with
  | O, _ => s
  | S n', String _ rest => sliceFrom n' rest
  | S _, EmptyString => EmptyString
  end.

(** [strings.Index(s, "#")], as an option instead of Go's -1. *)
Fixpoint IndexHash (s : string) : option nat :=
  match s with
  | EmptyString => None
  | String c rest =>
      if ascii_dec c "#"%char then Some O else S <$> IndexHash rest
  end.

(** The slice expression [s[:n]]. *)
Fixpoint sliceTo (n : nat) (s : string) : string :=
  match n, s with
  | O, _ => EmptyString
  | S n', String c rest => String c (sliceTo n' rest)
  | S _, EmptyString => EmptyString
  end.

(** [strings.ToUpper] on ASCII letters. *)
Definition upperChar (c : ascii) : ascii :=
  let n := byteVal c in
  if (97 <=? n) && (n <=? 122) then ascii_of_N (Z.to_N (n - 32)) else c.

Fixpoint ToUpper (s : string) : string :=
  match s with
  | EmptyString => EmptyString
  | String c rest => String (upperChar c) (ToUpper rest)
  end.

(** Go's [==] on strings, as a boolean. *)
Definition streq (a b : string) : bool := bool_decide (a = b).

(** ** errors.go *)

Inductive Sentinel := ErrConnection | ErrCommand | ErrTimeout | ErrResponse.

(** A Go [error] value reaching a caller of this package: a [*MakcuError]
    wrapping one of the sentinels, or an error of the serial library passed
    through unchanged. *)
Inductive error :=
| MakcuError (Base : Sentinel) (Message : string)
| SerialError (Message : string).

Definition NewConnectionError (msg : string) : error := MakcuError ErrConnection msg.
Definition NewCommandError (msg : string) : error := MakcuError ErrCommand msg.
Definition NewTimeoutError (msg : string) : error := MakcuError ErrTimeout msg.
Definition NewResponseError (msg : string) : error := MakcuError ErrResponse msg.

(** The [Unwrap] method of [MakcuError]: the sentinel a Makcu error wraps. *)
Definition Unwrap (e : error) : option Sentinel :=
  match e with
  | MakcuError b _ => Some b
  | SerialError _ => None
  end.

(** [errors.Is(err, sentinel)]. *)
Definition errorsIs (e : error) (target : Sentinel) : bool :=
  match Unwrap e with
  | Some b =>
      match b, target with
      | ErrConnection, ErrConnection | ErrCommand, ErrCommand
      | ErrTimeout, ErrTimeout | ErrResponse, ErrResponse => true
      | _, _ => false
      end
  | None => false
  end.

(** ** connection.go: data *)

Definition Millisecond : Z := 1000000.
Definition Second : Z := 1000 * Millisecond.
Definition DefaultTimeout : Z := 100 * Millisecond.
Definition maxReconnectAttempts : Z := 3.
Definition reconnectDelay : Z := 100 * Millisecond.

(** [baudChangeCommand]: DE AD 05 00 A5 00 09 3D 00. *)
Definition baudChangeCommand : string :=
  string_of_list_ascii
    ["222"; "173"; "005"; "000"; "165"; "000"; "009"; "061"; "000"]%char.

Definition buttonNames : list string :=
  ["left"; "right"; "middle"; "mouse4"; "mouse5"]%string.

(** A pending command. [ResultCh] is the address of its capacity-1 channel
    in the channel heap; [Timestamp] is in nanoseconds. *)
Record PendingCommand := mkPending {
  CommandID : Z;
  Command : string;
  ResultCh : nat;
  Timestamp : Z
}.

(** The object behind a non-nil [serial.Port]. *)
Inductive PortHandle := PortOpen | PortClosed.

(** Calls made on the byte channel, the port lister and the clock. *)
Inductive IOEvent :=
| IOWrite (payload : string)
| IOClose
| IOListPorts
| IOOpen (port : string)
| IOSetMode (baud : Z)
| IOSetReadTimeout (d : Z)
| IOSleep (d : Z).

(** The fields of [SerialTransport] that the transport logic reads or
    writes, followed by the objects it points into: the heap of result
    channels ([resultChans] holds the buffered value of each full channel,
    [nextChan] is the next fresh address), the log [io] of external calls
    (oldest first) and the log [callbacks] of button-callback invocations.
    [stopChan] is the address of the current stop channel and
    [closedChans] the set of stop channels closed so far;
    [buttonCallback] is [true] when a callback is registered. *)
Record SerialTransport := mkTransport {
  Port : string;
  fallbackPort : string;
  sendInit : bool;
  autoReconnect : bool;
  overridePort : bool;
  isConnected : bool;
  reconnectAttempts : Z;
  serialPort : option PortHandle;
  currentBaud : Z;
  commandCounter : Z;
  pendingCommands : gmap Z PendingCommand;
  buttonCallback : bool;
  lastButtonMask : Z;
  buttonStates : Z;
  stopChan : nat;
  closedChans : gset nat;
  resultChans : gmap nat string;
  nextChan : nat;
  io : list IOEvent;
  callbacks : list (Z * bool)
}.

Definition with_Port (v : string) (s : SerialTransport) : SerialTransport :=
  {| Port := v; fallbackPort := fallbackPort s; sendInit := sendInit s;
     autoReconnect := autoReconnect s; overridePort := overridePort s;
     isConnected := isConnected s; reconnectAttempts := reconnectAttempts s;
     serialPort := serialPort s; currentBaud := currentBaud s;
     commandCounter := commandCounter s; pendingCommands := pendingCommands s;
     buttonCallback := buttonCallback s; lastButtonMask := lastButtonMask s;
     buttonStates := buttonStates s; stopChan := stopChan s;
     closedChans := closedChans s; resultChans := resultChans s;
     nextChan := nextChan s; io := io s; callbacks := callbacks s |}.

Definition with_isConnected (v : bool) (s : SerialTransport) : SerialTransport :=
  {| Port := Port s; fallbackPort := fallbackPort s; sendInit := sendInit s;
     autoReconnect := autoReconnect s; overridePort := overridePort s;
     isConnected := v; reconnectAttempts := reconnectAttempts s;
     serialPort := serialPort s; currentBaud := currentBaud s;
     commandCounter := commandCounter s; pendingCommands := pendingCommands s;
     buttonCallback := buttonCallback s; lastButtonMask := lastButtonMask s;
     buttonStates := buttonStates s; stopChan := stopChan s;
     closedChans := closedChans s; resultChans := resultChans s;
     nextChan := nextChan s; io := io s; callbacks := callbacks s |}.

Definition with_reconnectAttempts (v : Z) (s : SerialTransport) : SerialTransport :=
  {| Port := Port s; fallbackPort := fallbackPort s; sendInit := sendInit s;
     autoReconnect := autoReconnect s; overridePort := overridePort s;
     isConnected := isConnected s; reconnectAttempts := v;
     serialPort := serialPort s; currentBaud := currentBaud s;
     commandCounter := commandCounter s; pendingCommands := pendingCommands s;
     buttonCallback := buttonCallback s; lastButtonMask := lastButtonMask s;
     buttonStates := buttonStates s; stopChan := stopChan s;
     closedChans := closedChans s; resultChans := resultChans s;
     nextChan := nextChan s; io := io s; callbacks := callbacks s |}.

Definition with_serialPort (v : option PortHandle) (s : SerialTransport) : SerialTransport :=
  {| Port := Port s; fallbackPort := fallbackPort s; sendInit := sendInit s;
     autoReconnect := autoReconnect s; overridePort := overridePort s;
     isConnected := isConnected s; reconnectAttempts := reconnectAttempts s;
     serialPort := v; currentBaud := currentBaud s;
     commandCounter := commandCounter s; pendingCommands := pendingCommands s;
     buttonCallback := buttonCallback s; lastButtonMask := lastButtonMask s;
     buttonStates := buttonStates s; stopChan := stopChan s;
     closedChans := closedChans s; resultChans := resultChans s;
     nextChan := nextChan s; io := io s; callbacks := callbacks s |}.

Definition with_currentBaud (v : Z) (s : SerialTransport) : SerialTransport :=
  {| Port := Port s; fallbackPort := fallbackPort s; sendInit := sendInit s;
     autoReconnect := autoReconnect s; overridePort := overridePort s;
     isConnected := isConnected s; reconnectAttempts := reconnectAttempts s;
     serialPort := serialPort s; currentBaud := v;
     commandCounter := commandCounter s; pendingCommands := pendingCommands s;
     buttonCallback := buttonCallback s; lastButtonMask := lastButtonMask s;
     buttonStates := buttonStates s; stopChan := stopChan s;
     closedChans := closedChans s; resultChans := resultChans s;
     nextChan := nextChan s; io := io s; callbacks := callbacks s |}.

Definition with_commandCounter (v : Z) (s : SerialTransport) : SerialTransport :=
  {| Port := Port s; fallbackPort := fallbackPort s; sendInit := sendInit s;
     autoReconnect := autoReconnect s; overridePort := overridePort s;
     isConnected := isConnected s; reconnectAttempts := reconnectAttempts s;
     serialPort := serialPort s; currentBaud := currentBaud s;
     commandCounter := v; pendingCommands := pendingCommands s;
     buttonCallback := buttonCallback s; lastButtonMask := lastButtonMask s;
     buttonStates := buttonStates s; stopChan := stopChan s;
     closedChans := closedChans s; resultChans := resultChans s;
     nextChan := nextChan s; io := io s; callbacks := callbacks s |}.

Definition with_pendingCommands (v : gmap Z PendingCommand) (s : SerialTransport) : SerialTransport :=
  {| Port := Port s; fallbackPort := fallbackPort s; sendInit := sendInit s;
     autoReconnect := autoReconnect s; overridePort := overridePort s;
     isConnected := isConnected s; reconnectAttempts := reconnectAttempts s;
     serialPort := serialPort s; currentBaud := currentBaud s;
     commandCounter := commandCounter s; pendingCommands := v;
     buttonCallback := buttonCallback s; lastButtonMask := lastButtonMask s;
     buttonStates := buttonStates s; stopChan := stopChan s;
     closedChans := closedChans s; resultChans := resultChans s;
     nextChan := nextChan s; io := io s; callbacks := callbacks s |}.

Definition with_lastButtonMask (v : Z) (s : SerialTransport) : SerialTransport :=
  {| Port := Port s; fallbackPort := fallbackPort s; sendInit := sendInit s;
     autoReconnect := autoReconnect s; overridePort := overridePort s;
     isConnected := isConnected s; reconnectAttempts := reconnectAttempts s;
     serialPort := serialPort s; currentBaud := currentBaud s;
     commandCounter := commandCounter s; pendingCommands := pendingCommands s;
     buttonCallback := buttonCallback s; lastButtonMask := v;
     buttonStates := buttonStates s; stopChan := stopChan s;
     closedChans := closedChans s; resultChans := resultChans s;
     nextChan := nextChan s; io := io s; callbacks := callbacks s |}.

Definition with_buttonStates (v : Z) (s : SerialTransport) : SerialTransport :=
  {| Port := Port s; fallbackPort := fallbackPort s; sendInit := sendInit s;
     autoReconnect := autoReconnect s; overridePort := overridePort s;
     isConnected := isConnected s; reconnectAttempts := reconnectAttempts s;
     serialPort := serialPort s; currentBaud := currentBaud s;
     commandCounter := commandCounter s; pendingCommands := pendingCommands s;
     buttonCallback := buttonCallback s; lastButtonMask := lastButtonMask s;
     buttonStates := v; stopChan := stopChan s; closedChans := closedChans s;
     resultChans := resultChans s; nextChan := nextChan s; io := io s;
     callbacks := callbacks s |}.

Definition with_stopChan (v : nat) (s : SerialTransport) : SerialTransport :=
  {| Port := Port s; fallbackPort := fallbackPort s; sendInit := sendInit s;
     autoReconnect := autoReconnect s; overridePort := overridePort s;
     isConnected := isConnected s; reconnectAttempts := reconnectAttempts s;
     serialPort := serialPort s; currentBaud := currentBaud s;
     commandCounter := commandCounter s; pendingCommands := pendingCommands s;
     buttonCallback := buttonCallback s; lastButtonMask := lastButtonMask s;
     buttonStates := buttonStates s; stopChan := v;
     closedChans := closedChans s; resultChans := resultChans s;
     nextChan := nextChan s; io := io s; callbacks := callbacks s |}.

Definition with_closedChans (v : gset nat) (s : SerialTransport) : SerialTransport :=
  {| Port := Port s; fallbackPort := fallbackPort s; sendInit := sendInit s;
     autoReconnect := autoReconnect s; overridePort := overridePort s;
     isConnected := isConnected s; reconnectAttempts := reconnectAttempts s;
     serialPort := serialPort s; currentBaud := currentBaud s;
     commandCounter := commandCounter s; pendingCommands := pendingCommands s;
     buttonCallback := buttonCallback s; lastButtonMask := lastButtonMask s;
     buttonStates := buttonStates s; stopChan := stopChan s; closedChans := v;
     resultChans := resultChans s; nextChan := nextChan s; io := io s;
     callbacks := callbacks s |}.

Definition with_resultChans (v : gmap nat string) (s : SerialTransport) : SerialTransport :=
  {| Port := Port s; fallbackPort := fallbackPort s; sendInit := sendInit s;
     autoReconnect := autoReconnect s; overridePort := overridePort s;
     isConnected := isConnected s; reconnectAttempts := reconnectAttempts s;
     serialPort := serialPort s; currentBaud := currentBaud s;
     commandCounter := commandCounter s; pendingCommands := pendingCommands s;
     buttonCallback := buttonCallback s; lastButtonMask := lastButtonMask s;
     buttonStates := buttonStates s; stopChan := stopChan s;
     closedChans := closedChans s; resultChans := v; nextChan := nextChan s;
     io := io s; callbacks := callbacks s |}.

Definition with_nextChan (v : nat) (s : SerialTransport) : SerialTransport :=
  {| Port := Port s; fallbackPort := fallbackPort s; sendInit := sendInit s;
     autoReconnect := autoReconnect s; overridePort := overridePort s;
     isConnected := isConnected s; reconnectAttempts := reconnectAttempts s;
     serialPort := serialPort s; currentBaud := currentBaud s;
     commandCounter := commandCounter s; pendingCommands := pendingCommands s;
     buttonCallback := buttonCallback s; lastButtonMask := lastButtonMask s;
     buttonStates := buttonStates s; stopChan := stopChan s;
     closedChans := closedChans s; resultChans := resultChans s;
     nextChan := v; io := io s; callbacks := callbacks s |}.

Definition with_io (v : list IOEvent) (s : SerialTransport) : SerialTransport :=
  {| Port := Port s; fallbackPort := fallbackPort s; sendInit := sendInit s;
     autoReconnect := autoReconnect s; overridePort := overridePort s;
     isConnected := isConnected s; reconnectAttempts := reconnectAttempts s;
     serialPort := serialPort s; currentBaud := currentBaud s;
     commandCounter := commandCounter s; pendingCommands := pendingCommands s;
     buttonCallback := buttonCallback s; lastButtonMask := lastButtonMask s;
     buttonStates := buttonStates s; stopChan := stopChan s;
     closedChans := closedChans s; resultChans := resultChans s;
     nextChan := nextChan s; io := v; callbacks := callbacks s |}.

Definition with_callbacks (v : list (Z * bool)) (s : SerialTransport) : SerialTransport :=
  {| Port := Port s; fallbackPort := fallbackPort s; sendInit := sendInit s;
     autoReconnect := autoReconnect s; overridePort := overridePort s;
     isConnected := isConnected s; reconnectAttempts := reconnectAttempts s;
     serialPort := serialPort s; currentBaud := currentBaud s;
     commandCounter := commandCounter s; pendingCommands := pendingCommands s;
     buttonCallback := buttonCallback s; lastButtonMask := lastButtonMask s;
     buttonStates := buttonStates s; stopChan := stopChan s;
     closedChans := closedChans s; resultChans := resultChans s;
     nextChan := nextChan s; io := io s; callbacks := v |}.

(** [NewSerialTransport]. *)
Definition NewSerialTransport (fallback : string)
    (sendInit autoReconnect overridePort : bool) : SerialTransport :=
  {| Port := EmptyString; fallbackPort := fallback; sendInit := sendInit;
     autoReconnect := autoReconnect; overridePort := overridePort;
     isConnected := false; reconnectAttempts := 0; serialPort := None;
     currentBaud := 0; commandCounter := 0; pendingCommands := ∅;
     buttonCallback := false; lastButtonMask := 0; buttonStates := 0;
     stopChan := O; closedChans := ∅; resultChans := ∅; nextChan := 1%nat;
     io := [];
     callbacks := [] |}.

Definition emit (e : IOEvent) (s : SerialTransport) : SerialTransport :=
  with_io (io s ++ [e]) s.

(** ** The input-state cache *)

(** [x & (1 << bit) != 0]. *)
Definition bitSet (x bit : Z) : bool :=
  negb (Z.land x (Z.shiftl 1 bit) =? 0).

(** One turn of the loop over [bit] in [handleButtonData]. *)
Definition handleBit (changedBits byteVal : Z) (s : SerialTransport) (bit : Z)
    : SerialTransport :=
  if bitSet changedBits bit then
    let isPressed := bitSet byteVal bit in
    let s1 :=
      if isPressed
      then with_buttonStates (Z.lor (buttonStates s) (Z.shiftl 1 bit)) s
      else with_buttonStates
             (Z.land (buttonStates s) (Z.lnot (Z.shiftl 1 bit))) s in
    if buttonCallback s1 && (bit <? 5)
    then with_callbacks (callbacks s1 ++ [(bit, isPressed)]) s1
    else s1
  else s.

Definition handleButtonData (byteVal : Z) (s : SerialTransport)
    : SerialTransport :=
  if byteVal =? lastButtonMask s then s
  else
    let changedBits := Z.lxor byteVal (lastButtonMask s) in
    let s' := fold_left (handleBit changedBits byteVal) (seqZ 0 8) s in
    with_lastButtonMask byteVal s'.

(** [GetButtonStates]: the pressed flag of each named button. *)
Definition GetButtonStates (s : SerialTransport) : gmap string bool :=
  list_to_map
    (imap (fun i name => (name, bitSet (buttonStates s) (Z.of_nat i)))
          buttonNames).

Definition GetButtonMask (s : SerialTransport) : Z := lastButtonMask s.

(** ** The command correlator *)

Definition generateCommandID (s : SerialTransport) : Z * SerialTransport :=
  let c := Z.rem (commandCounter s + 1) 10000 in
  (c, with_commandCounter c s).

(** [IsConnected]. *)
Definition IsConnected (s : SerialTransport) : bool :=
  isConnected s && bool_decide (serialPort s ≠ None).

(** What the byte channel answers, and the clock. [writeErr] is the error
    of [Write] on an open port; a closed port refuses every write. *)
Record SendEnv := mkSendEnv {
  writeErr : option string;
  clock : Z
}.

Definition portWrite (payload : string) (werr : option string)
    (s : SerialTransport) : option error * SerialTransport :=
  let s1 := emit (IOWrite payload) s in
  match serialPort s with
  | Some PortOpen => (SerialError <$> werr, s1)
  | _ => (Some (SerialError "port closed"), s1)
  end.

(** A caller parked in the [select] of [SendCommand]: the id and text of its
    command, its result channel, the timeout in force and the stop channel
    it read before blocking. *)
Record Waiter := mkWaiter {
  waitID : Z;
  waitCommand : string;
  waitCh : nat;
  waitTimeout : Z;
  waitStop : nat
}.

Inductive SendOutcome :=
| Returned (result : string) (err : option error)
| Blocked (w : Waiter).

(** [SendCommand] up to its [select]. *)
Definition SendCommand (command : string) (expectResponse : bool)
    (timeout : Z) (env : SendEnv) (s : SerialTransport)
    : SendOutcome * SerialTransport :=
  if negb (isConnected s) || bool_decide (serialPort s = None) then
    (Returned EmptyString (Some (NewConnectionError "not connected")), s)
  else
    let timeout := if timeout =? 0 then DefaultTimeout else timeout in
    if negb expectResponse then
      match portWrite (command +:+ CRLF) (writeErr env) s with
      | (Some err, s1) => (Returned EmptyString (Some err), s1)
      | (None, s1) => (Returned command None, s1)
      end
    else
      let '(cmdID, s1) := generateCommandID s in
      let resultCh := nextChan s1 in
      let s2 := with_nextChan (S resultCh) s1 in
      let s3 :=
        with_pendingCommands
          (<[cmdID := mkPending cmdID command resultCh (clock env)]>
             (pendingCommands s2)) s2 in
      let taggedCmd := command +:+ "#" +:+ pretty cmdID +:+ CRLF in
      match portWrite taggedCmd (writeErr env) s3 with
      | (Some err, s4) =>
          (Returned EmptyString (Some err),
           with_pendingCommands (delete cmdID (pendingCommands s4)) s4)
      | (None, s4) =>
          (Blocked (mkWaiter cmdID command resultCh timeout (stopChan s4)), s4)
      end.

(** The three cases of the [select]. *)
Inductive SelectCase := CaseResult | CaseStop | CaseTimeout.

(** [result[:idx]] at the index of ["#"], when there is one. *)
Definition cutAtHash (result : string) : string :=
  match IndexHash result with
  | Some idx => sliceTo idx result
  | None => result
  end.

(** The [select] of [SendCommand] taking case [c]; [None] when that case
    is not ready (no value in the result channel, stop channel still
    open). The timer case is ready once the timeout has elapsed. *)
Definition SendCommand_select (c : SelectCase) (w : Waiter)
    (s : SerialTransport) : option ((string * option error) * SerialTransport) :=
  match c with
  | CaseResult =>
      match resultChans s !! waitCh w with
      | Some result =>
          Some ((cutAtHash result, None),
                with_resultChans (delete (waitCh w) (resultChans s)) s)
      | None => None
      end
  | CaseStop =>
      if bool_decide (waitStop w ∈ closedChans s) then
        Some ((EmptyString,
               Some (NewConnectionError "disconnected while waiting for response")),
              with_pendingCommands (delete (waitID w) (pendingCommands s)) s)
      else None
  | CaseTimeout =>
      Some ((EmptyString,
             Some (NewTimeoutError ("command timed out: " +:+ waitCommand w))),
            with_pendingCommands (delete (waitID w) (pendingCommands s)) s)
  end.

(** [parseResponseLine]. *)
Definition parseResponseLine (line : string) : string :=
  let str := TrimSpace line in
  if HasPrefix str ">>> " then TrimSpace (sliceFrom 4 str) else str.

(** One turn of the search for the lowest id. *)
Definition olderID (oldestID id : Z) : Z :=
  if (oldestID =? -1) || (id <? oldestID) then id else oldestID.

Definition findOldest (ids : list Z) : Z := fold_left olderID ids (-1).

(** The non-blocking send [select { case ch <- v: default: }] on a
    capacity-1 channel. *)
Definition chanSend (ch : nat) (v : string) (chans : gmap nat string)
    : gmap nat string :=
  match chans !! ch with
  | Some _ => chans
  | None => <[ch := v]> chans
  end.

(** [processPendingCommands], with the order [ids] in which [range] hands
    out the keys of the map made explicit. The [None] branch stands for
    the nil dereference of a missing entry; it is not reached when [ids]
    lists the keys of a non-empty map (lemma [findOldest_is_key]). *)
Definition processPendingCommandsIn (ids : list Z) (content : string)
    (s : SerialTransport) : SerialTransport :=
  if streq content EmptyString then s
  else if bool_decide (pendingCommands s = ∅) then s
  else
    let oldestID := findOldest ids in
    match pendingCommands s !! oldestID with
    | None => s
    | Some pending =>
        if streq content (Command pending) then s
        else
          with_pendingCommands (delete oldestID (pendingCommands s))
            (with_resultChans
               (chanSend (ResultCh pending) content (resultChans s)) s)
    end.

(** The keys and the entries of the map in the order [map_to_list] gives. *)
Definition pendingIDs (s : SerialTransport) : list Z :=
  (map_to_list (pendingCommands s)).*1.

Definition processPendingCommands (content : string) (s : SerialTransport)
    : SerialTransport :=
  processPendingCommandsIn (pendingIDs s) content s.

(** One turn of the loop of [cleanupTimedOutCommands]. *)
Definition cleanupEntry (now : Z) (m : gmap Z PendingCommand)
    (e : Z * PendingCommand) : gmap Z PendingCommand :=
  if now - Timestamp e.2 >? Second then delete e.1 m else m.

(** [cleanupTimedOutCommands] at clock reading [now], visiting the entries
    in the order [entries]. *)
Definition cleanupTimedOutCommandsIn (entries : list (Z * PendingCommand))
    (now : Z) (s : SerialTransport) : SerialTransport :=
  with_pendingCommands
    (fold_left (cleanupEntry now) entries (pendingCommands s)) s.

Definition cleanupTimedOutCommands (now : Z) (s : SerialTransport)
    : SerialTransport :=
  cleanupTimedOutCommandsIn (map_to_list (pendingCommands s)) now s.

(** ** The stream demultiplexer of [listen] *)

(** The locals of [listen] that survive a byte: [line] is
    [lineBuffer[:linePos]], so [linePos] is its length. *)
Record ListenLocals := mkLocals {
  line : string;
  expectingTextMode : bool;
  lastByte : Z;
  lastCleanup : Z
}.

Definition linePos (l : ListenLocals) : Z := Z.of_nat (String.length (line l)).

Definition with_line (v : string) (l : ListenLocals) : ListenLocals :=
  {| line := v; expectingTextMode := expectingTextMode l;
     lastByte := lastByte l; lastCleanup := lastCleanup l |}.

Definition with_expectingTextMode (v : bool) (l : ListenLocals) : ListenLocals :=
  {| line := line l; expectingTextMode := v;
     lastByte := lastByte l; lastCleanup := lastCleanup l |}.

Definition with_lastByte (v : Z) (l : ListenLocals) : ListenLocals :=
  {| line := line l; expectingTextMode := expectingTextMode l;
     lastByte := v; lastCleanup := lastCleanup l |}.

Definition with_lastCleanup (v : Z) (l : ListenLocals) : ListenLocals :=
  {| line := line l; expectingTextMode := expectingTextMode l;
     lastByte := lastByte l; lastCleanup := v |}.

(** The locals at the start of [listen], at clock reading [now]. *)
Definition listenStart (now : Z) : ListenLocals :=
  mkLocals EmptyString false (-1) now.

(** The block shared by the three line-completing branches: parse the
    buffer, reset [linePos], hand a non-empty content to the correlator. *)
Definition completeLine (l : ListenLocals) (s : SerialTransport)
    : ListenLocals * SerialTransport :=
  let content := parseResponseLine (line l) in
  (with_line EmptyString l,
   if negb (streq content EmptyString)
   then processPendingCommands content s else s).

(** The condition of the first [if] of case 4. *)
Definition looksLikeButtonData (l : ListenLocals) (s : SerialTransport) : bool :=
  negb (lastButtonMask s =? 0)
  || ((0 <=? lastByte l) && (lastByte l <? 32) && negb (lastByte l =? 13))
  || ((0 <? linePos l) && negb (expectingTextMode l)).

(** The body of the loop over the bytes read: the [switch], then
    [lastByte = b]. *)
Definition listenByte (l : ListenLocals) (s : SerialTransport) (c : ascii)
    : ListenLocals * SerialTransport :=
  let b := byteVal c in
  let '(l1, s1) :=
    if (lastByte l =? 13) && (b =? 10) then
      (* Case 1: CR+LF *)
      let '(l', s') := if 0 <? linePos l then completeLine l s else (l, s) in
      (with_expectingTextMode false l', s')
    else if (32 <=? b) || (b =? 9) then
      (* Case 2: printable ASCII or TAB *)
      let l' := with_expectingTextMode true l in
      (if linePos l' <? 256
       then with_line (line l' +:+ String c EmptyString) l' else l', s)
    else if b =? 13 then
      (* Case 3: CR *)
      (if expectingTextMode l || (0 <? linePos l)
       then with_expectingTextMode true l else l, s)
    else if b =? 10 then
      (* Case 4: bare LF *)
      if looksLikeButtonData l s then
        (with_line EmptyString (with_expectingTextMode false l),
         handleButtonData b s)
      else if lastByte l =? 13 then
        let '(l', s') := if 0 <? linePos l then completeLine l s else (l, s) in
        (with_expectingTextMode false l', s')
      else if (0 <? linePos l) && expectingTextMode l then
        let '(l', s') := completeLine l s in
        (with_expectingTextMode false l', s')
      else if expectingTextMode l then
        (with_expectingTextMode false l, s)
      else
        (with_line EmptyString (with_expectingTextMode false l),
         handleButtonData b s)
    else
      (* Case 5: other control bytes *)
      let s' := if lastByte l =? 13 then handleButtonData 13 s else s in
      (with_line EmptyString (with_expectingTextMode false l),
       handleButtonData b s')
  in
  (with_lastByte b l1, s1).

(** The loop [for i := 0; i < n; i++] over the bytes of one read. *)
Definition listenBytes (bytes : list ascii) (l : ListenLocals)
    (s : SerialTransport) : ListenLocals * SerialTransport :=
  fold_left (fun ls c => listenByte ls.1 ls.2 c) bytes (l, s).

(** ** Connection life cycle *)

(** An entry of the port lister. *)
Record PortInfo := mkPortInfo {
  Name : string;
  VID : string;
  PID : string;
  IsUSB : bool
}.

(** What the outside answers during one connection attempt: the port list
    ([None] when listing fails), whether [serial.Open] succeeds, the error
    of the handshake write and whether [SetMode] succeeds. *)
Record ConnectEnv := mkConnectEnv {
  envPorts : option (list PortInfo);
  envOpenOK : bool;
  envBaudWriteErr : option string;
  envSetModeOK : bool
}.

Definition isTarget (p : PortInfo) : bool :=
  IsUSB p && streq (ToUpper (VID p)) "1A86" && streq (ToUpper (PID p)) "55D3".

(** [FindCOMPort]. *)
Definition FindCOMPort (ports : option (list PortInfo)) (s : SerialTransport)
    : (string * option error) * SerialTransport :=
  if overridePort s then ((fallbackPort s, None), s)
  else
    let s1 := emit IOListPorts s in
    match ports with
    | None =>
        if negb (streq (fallbackPort s) EmptyString)
        then ((fallbackPort s, None), s1)
        else ((EmptyString, Some (SerialError "failed to list COM ports")), s1)
    | Some ps =>
        match List.find isTarget ps with
        | Some p => ((Name p, None), s1)
        | None =>
            if negb (streq (fallbackPort s) EmptyString)
            then ((fallbackPort s, None), s1)
            else ((EmptyString, None), s1)
        end
    end.

(** [serialPort.Close()]: the handle stays, the port behind it is closed. *)
Definition closePort (s : SerialTransport) : SerialTransport :=
  emit IOClose (with_serialPort (Some PortClosed) s).

(** [changeBaudTo4M]. *)
Definition changeBaudTo4M (env : ConnectEnv) (s : SerialTransport)
    : option error * SerialTransport :=
  match serialPort s with
  | None => (Some (NewConnectionError "serial port not open"), s)
  | Some _ =>
      match portWrite baudChangeCommand (envBaudWriteErr env) s with
      | (Some err, s1) => (Some err, s1)
      | (None, s1) =>
          let s2 := emit (IOSetMode 4000000) (emit (IOSleep (20 * Millisecond)) s1) in
          if envSetModeOK env
          then (None, with_currentBaud 4000000 s2)
          else (Some (SerialError "SetMode failed"), s2)
      end
  end.

(** The optional initialization command; its write error is ignored. *)
Definition writeInit (s : SerialTransport) : SerialTransport :=
  if sendInit s
  then emit (IOWrite ("km.buttons(1)" +:+ String CR EmptyString)) s
  else s.

(** [attemptReconnect]. *)
Definition attemptReconnect (env : ConnectEnv) (s : SerialTransport)
    : SerialTransport :=
  if maxReconnectAttempts <=? reconnectAttempts s then
    with_isConnected false s
  else
    let s1 := with_reconnectAttempts (reconnectAttempts s + 1) s in
    let s2 := match serialPort s1 with Some _ => closePort s1 | None => s1 end in
    let s3 := emit (IOSleep reconnectDelay) s2 in
    match FindCOMPort (envPorts env) s3 with
    | ((port, err), s4) =>
        if bool_decide (err ≠ None) || streq port EmptyString then
          emit (IOSleep reconnectDelay) s4
        else
          let s5 := emit (IOOpen port) (with_Port port s4) in
          if negb (envOpenOK env) then emit (IOSleep reconnectDelay) s5
          else
            match changeBaudTo4M env (with_serialPort (Some PortOpen) s5) with
            | (Some _, s6) => emit (IOSleep reconnectDelay) (closePort s6)
            | (None, s6) =>
                with_reconnectAttempts 0
                  (emit (IOSetReadTimeout Millisecond) (writeInit s6))
            end
    end.

(** [Connect], up to the start of the listener goroutine. *)
Definition Connect (env : ConnectEnv) (s : SerialTransport)
    : option error * SerialTransport :=
  if isConnected s then (None, s)
  else
    let resolved :=
      if overridePort s then inr (with_Port (fallbackPort s) s)
      else
        match FindCOMPort (envPorts env) s with
        | ((_, Some err), s1) => inl (err, s1)
        | ((port, None), s1) =>
            if streq port EmptyString
            then inl (NewConnectionError "Makcu device not found", s1)
            else inr (with_Port port s1)
        end in
    match resolved with
    | inl (err, s1) => (Some err, s1)
    | inr s1 =>
        let s2 := emit (IOOpen (Port s1)) s1 in
        if negb (envOpenOK env) then
          (Some (NewConnectionError ("failed to open " +:+ Port s1)), s2)
        else
          match changeBaudTo4M env (with_serialPort (Some PortOpen) s2) with
          | (Some _, s3) =>
              (Some (NewConnectionError "failed to switch to 4M baud"),
               with_serialPort None (closePort s3))
          | (None, s3) =>
              let s4 := with_reconnectAttempts 0 (with_isConnected true s3) in
              let s5 := emit (IOSetReadTimeout Millisecond) (writeInit s4) in
              (None, with_nextChan (S (nextChan s5))
                       (with_stopChan (nextChan s5) s5))
          end
    end.

(** [Disconnect]. *)
Definition Disconnect (s : SerialTransport) : SerialTransport :=
  let s1 := with_isConnected false s in
  let s2 := with_closedChans ({[stopChan s1]} ∪ closedChans s1) s1 in
  let s3 := emit (IOSleep (10 * Millisecond)) s2 in
  let s4 := with_pendingCommands ∅ s3 in
  match serialPort s4 with
  | Some _ => with_serialPort None (closePort s4)
  | None => s4
  end.

(** ** The read loop *)

Inductive ReadResult := ReadErr | ReadOK (bytes : list ascii).

(** What the outside answers during one turn of the read loop: the result
    of [Read] on an open port (a closed port fails every read), the answers
    to a reconnection attempt, and the clock. *)
Record Tick := mkTick {
  tRead : ReadResult;
  tConnect : ConnectEnv;
  tNow : Z
}.

Definition cleanupInterval : Z := 50 * Millisecond.

Inductive LoopState :=
| Running (l : ListenLocals) (s : SerialTransport)
| Exited (s : SerialTransport)
| Panicked (s : SerialTransport).

(** One turn of the [for s.isConnected.Load()] loop of [listen]. *)
Definition listenTurn (t : Tick) (l : ListenLocals) (s : SerialTransport)
    : LoopState :=
  if negb (isConnected s) then Exited s
  else if bool_decide (stopChan s ∈ closedChans s) then Exited s
  else
    match serialPort s with
    | None => Panicked s
    | Some h =>
        match (match h with PortOpen => tRead t | PortClosed => ReadErr end) with
        | ReadErr =>
            if autoReconnect s
            then Running l (attemptReconnect (tConnect t) s)
            else Exited s
        | ReadOK [] => Running l s
        | ReadOK bytes =>
            let '(l1, s1) := listenBytes bytes l s in
            if cleanupInterval <? tNow t - lastCleanup l1
            then Running (with_lastCleanup (tNow t) l1)
                         (cleanupTimedOutCommands (tNow t) s1)
            else Running l1 s1
        end
    end.

(** [listen] run for the turns [ticks]; [Running] when the loop has not
    left by then. *)
Fixpoint listen (ticks : list Tick) (l : ListenLocals) (s : SerialTransport)
    : LoopState :=
  match ticks with
  | [] => if isConnected s then Running l s else Exited s
  | t :: rest =>
      match listenTurn t l s with
      | Running l' s' => listen rest l' s'
      | done => done
      end
  end.

(** ** mouse.go: the lock-state cache *)

(** [MouseButton] is a Go [int]; [String] names the five known values. *)
Definition MouseButton_String (b : Z) : string :=
  if b =? 0 then "left"
  else if b =? 1 then "right"
  else if b =? 2 then "middle"
  else if b =? 3 then "mouse4"
  else if b =? 4 then "mouse5"
  else "unknown".

Record lockInfo := mkLockInfo {
  lockCmd : string;
  unlockCmd : string;
  queryCmd : string;
  bit : Z
}.

Definition lockTargets : gmap string lockInfo :=
  list_to_map
    [("LEFT", mkLockInfo "km.lock_ml(1)" "km.lock_ml(0)" "km.lock_ml()" 0);
     ("RIGHT", mkLockInfo "km.lock_mr(1)" "km.lock_mr(0)" "km.lock_mr()" 1);
     ("MIDDLE", mkLockInfo "km.lock_mm(1)" "km.lock_mm(0)" "km.lock_mm()" 2);
     ("MOUSE4", mkLockInfo "km.lock_ms1(1)" "km.lock_ms1(0)" "km.lock_ms1()" 3);
     ("MOUSE5", mkLockInfo "km.lock_ms2(1)" "km.lock_ms2(0)" "km.lock_ms2()" 4);
     ("X", mkLockInfo "km.lock_mx(1)" "km.lock_mx(0)" "km.lock_mx()" 5);
     ("Y", mkLockInfo "km.lock_my(1)" "km.lock_my(0)" "km.lock_my()" 6)]%string.

(** The cache fields of [Mouse]. *)
Record Mouse := mkMouse {
  lockStatesCache : Z;
  cacheValid : bool
}.

Definition NewMouse : Mouse := mkMouse 0 false.

(** A call [m.transport.SendCommand(command, expectResponse, timeout)]. *)
Record TransportCall := mkCall {
  callCommand : string;
  callExpect : bool;
  callTimeout : Z
}.

(** What [SendCommand] returns to the mouse layer for a given call. *)
Definition Device := TransportCall -> string * option error.

(** [m.lockStatesCache |= 1 << bit] or [&= ^(1 << bit)]. *)
Definition storeLockBit (locked : bool) (bit : Z) (cache : Z) : Z :=
  if locked then Z.lor cache (Z.shiftl 1 bit)
  else Z.land cache (Z.lnot (Z.shiftl 1 bit)).

(** [setLock]: the calls made on the transport, the error returned and the
    mouse afterwards. *)
Definition setLock (dev : Device) (name : string) (lock : bool) (m : Mouse)
    : list TransportCall * option error * Mouse :=
  match lockTargets !! name with
  | None => ([], Some (NewCommandError ("unknown lock target: " +:+ name)), m)
  | Some info =>
      let call := mkCall (if lock then lockCmd info else unlockCmd info) false 0 in
      match dev call with
      | (_, Some err) => ([call], Some err, m)
      | (_, None) =>
          ([call], None,
           mkMouse (storeLockBit lock (bit info) (lockStatesCache m)) true)
      end
  end.

(** [IsLocked]: the calls made on the transport, the pair returned and the
    mouse afterwards. *)
Definition IsLocked (dev : Device) (button : Z) (m : Mouse)
    : list TransportCall * (bool * option error) * Mouse :=
  let name := ToUpper (MouseButton_String button) in
  match lockTargets !! name with
  | None => ([], (false, Some (NewCommandError "unsupported lock target")), m)
  | Some info =>
      if cacheValid m then
        ([], (bitSet (lockStatesCache m) (bit info), None), m)
      else
        let call := mkCall (queryCmd info) true (50 * Millisecond) in
        match dev call with
        | (_, Some err) => ([call], (false, Some err), m)
        | (resp, None) =>
            let locked := streq (TrimSpace resp) "1" in
            ([call], (locked, None),
             mkMouse (storeLockBit locked (bit info) (lockStatesCache m))
                     (cacheValid m))
        end
  end.

Definition allTargets : list string :=
  ["LEFT"; "RIGHT"; "MIDDLE"; "MOUSE4"; "MOUSE5"; "X"; "Y"]%string.

(** One turn of the query loop of [GetAllLockStates]. *)
Definition queryTarget (dev : Device)
    (acc : list TransportCall * gmap string bool * Z) (name : string)
    : list TransportCall * gmap string bool * Z :=
  let '(calls, states, cache) := acc in
  match lockTargets !! name with
  | None => acc
  | Some info =>
      let call := mkCall (queryCmd info) true (50 * Millisecond) in
      match dev call with
      | (_, Some _) => (calls ++ [call], <[name := false]> states, cache)
      | (resp, None) =>
          let locked := streq (TrimSpace resp) "1" in
          (calls ++ [call], <[name := locked]> states,
           storeLockBit locked (bit info) cache)
      end
  end.

(** [GetAllLockStates]. *)
Definition GetAllLockStates (dev : Device) (m : Mouse)
    : list TransportCall * gmap string bool * Mouse :=
  if cacheValid m then
    ([],
     list_to_map
       (imap (fun i name => (name, bitSet (lockStatesCache m) (Z.of_nat i)))
             allTargets),
     m)
  else
    let '(calls, states, cache) :=
      fold_left (queryTarget dev) allTargets ([], ∅, lockStatesCache m) in
    (calls, states, mkMouse cache true).

(** [InvalidateCache]. *)
Definition InvalidateCache (m : Mouse) : Mouse :=
  mkMouse (lockStatesCache m) false.

(** ** The wording of the specification, for comparison *)

Definition isDigit (c : ascii) : bool :=
  let n := byteVal c in (48 <=? n) && (n <=? 57).

(** Whether [s] is ["#"] followed by at least one decimal digit and
    nothing else: a correlation-id suffix. *)
Definition isIdSuffix (s : string) : bool :=
  match s with
  | String c rest =>
      bool_decide (c = "#"%char)
      && negb (streq rest EmptyString)
      && forallb isDigit (list_ascii_of_string rest)
  | EmptyString => false
  end.

(** The specification's stripping: remove the trailing correlation-id
    suffix of [t] when [t] ends with one, and nothing else. *)
Fixpoint spec_stripIdSuffix (t : string) : string :=
  if isIdSuffix t then EmptyString
  else
    match t with
    | String c rest => String c (spec_stripIdSuffix rest)
    | EmptyString => EmptyString
    end.

(** Whether [t] carries a trailing correlation-id suffix. *)
Fixpoint spec_hasIdSuffix (t : string) : bool :=
  isIdSuffix t
  || match t with
     | String _ rest => spec_hasIdSuffix rest
     | EmptyString => false
     end.

(** ** Auxiliary notions used by the statements *)

(** The state after a run of telegrams. *)
Definition applyTelegrams (telegrams : list Z) (s : SerialTransport)
    : SerialTransport :=
  fold_left (fun acc b => handleButtonData b acc) telegrams s.

Definition lowBitsAgree (s : SerialTransport) : Prop :=
  forall i, 0 <= i < 8 ->
    Z.testbit (buttonStates s) i = Z.testbit (lastButtonMask s) i.

(** Every pending id is one that [generateCommandID] can produce. *)
Definition validIDs (s : SerialTransport) : Prop :=
  forall id, is_Some (pendingCommands s !! id) -> 0 <= id < 10000.

(** The state in which routing a response to entry [p] under id [lo] ends:
    the content offered to the channel of [p], the entry deleted. *)
Definition resolved (lo : Z) (p : PendingCommand) (content : string)
    (s : SerialTransport) : SerialTransport :=
  with_pendingCommands (delete lo (pendingCommands s))
    (with_resultChans (chanSend (ResultCh p) content (resultChans s)) s).

(** A transport with two commands outstanding, used in the examples:
    ids 3 and 7, on channels 1 and 2, sent at 0 and at 0.4 s. *)
Definition twoPending : SerialTransport :=
  with_pendingCommands
    (<[3 := mkPending 3 "km.version()" 1 0]>
       (<[7 := mkPending 7 "km.lock_ml()" 2 (400 * Millisecond)]> ∅))
    (with_nextChan 3
       (with_commandCounter 7
          (with_serialPort (Some PortOpen)
             (with_isConnected true
                (NewSerialTransport EmptyString true true false))))).

(** A connected transport with an open port and nothing pending. *)
Definition connected : SerialTransport :=
  with_serialPort (Some PortOpen)
    (with_isConnected true (NewSerialTransport EmptyString true true false)).

(** Whatever may happen to a transport while a caller is parked in
    [SendCommand]: the read loop routes a line, sweeps the table, applies a
    telegram or tries to reconnect; a caller starts [SendCommand] or leaves
    its [select]; the connection is opened or closed. *)
Inductive step : SerialTransport -> SerialTransport -> Prop :=
| step_line (ids : list Z) (content : string) (s : SerialTransport) :
    ids ≡ₚ pendingIDs s ->
    step s (processPendingCommandsIn ids content s)
| step_cleanup (entries : list (Z * PendingCommand)) (now : Z)
    (s : SerialTransport) :
    entries ≡ₚ map_to_list (pendingCommands s) ->
    step s (cleanupTimedOutCommandsIn entries now s)
| step_telegram (b : Z) (s : SerialTransport) :
    step s (handleButtonData b s)
| step_reconnect (env : ConnectEnv) (s : SerialTransport) :
    step s (attemptReconnect env s)
| step_send (command : string) (expectResponse : bool) (timeout : Z)
    (env : SendEnv) (s : SerialTransport) :
    step s (SendCommand command expectResponse timeout env s).2
| step_select (c : SelectCase) (w : Waiter) (s s' : SerialTransport)
    (r : string * option error) :
    SendCommand_select c w s = Some (r, s') ->
    step s s'
| step_connect (env : ConnectEnv) (s : SerialTransport) :
    step s (Connect env s).2
| step_disconnect (s : SerialTransport) :
    step s (Disconnect s).

(** A result channel that nothing can fill any more: it is empty, no
    pending entry refers to it, and it is older than every channel still to
    be made. *)
Definition orphaned (ch : nat) (s : SerialTransport) : Prop :=
  resultChans s !! ch = None
  /\ (forall id p, pendingCommands s !! id = Some p -> ResultCh p <> ch)
  /\ (ch < nextChan s)%nat.

(** Whether a reconnection attempt made in state [s] gets through under
    the answers [env]: a port is found, it opens, and the handshake write
    and the mode change both succeed. *)
Definition reconnectSucceeds (env : ConnectEnv) (s : SerialTransport) : bool :=
  match (FindCOMPort (envPorts env) s).1 with
  | (port, None) =>
      negb (streq port EmptyString) && envOpenOK env
      && bool_decide (envBaudWriteErr env = None) && envSetModeOK env
  | (_, Some _) => false
  end.

(** The fields the read loop and [attemptReconnect] branch on. *)
Definition sameControl (s s' : SerialTransport) : Prop :=
  isConnected s' = isConnected s
  /\ autoReconnect s' = autoReconnect s
  /\ stopChan s' = stopChan s
  /\ closedChans s' = closedChans s
  /\ overridePort s' = overridePort s
  /\ fallbackPort s' = fallbackPort s.

(** The fields a connection attempt reads but never writes. *)
Definition config (s : SerialTransport) :=
  (autoReconnect s, overridePort s, fallbackPort s, sendInit s,
   stopChan s, closedChans s).

(** What [SendCommand] maintains about the table: the counter and every
    pending id lie in the range of [generateCommandID], every entry's
    channel has been made already, and no two entries share a channel. *)
Definition wellFormed (s : SerialTransport) : Prop :=
  0 <= commandCounter s < 10000
  /\ validIDs s
  /\ (forall id p, pendingCommands s !! id = Some p ->
        (ResultCh p < nextChan s)%nat)
  /\ (forall id1 id2 p1 p2,
        pendingCommands s !! id1 = Some p1 ->
        pendingCommands s !! id2 = Some p2 ->
        ResultCh p1 = ResultCh p2 -> id1 = id2).

(** The correlator's part of the state. *)
Definition table (s : SerialTransport) :=
  (pendingCommands s, resultChans s, nextChan s, commandCounter s).


(** ** White space, stated without the decoder *)

(** The UTF-8 encodings of the 25 characters that have Unicode's
    White_Space property: U+0009 to U+000D, U+0020, U+0085, U+00A0, U+1680,
    U+2000 to U+200A, U+2028, U+2029, U+202F, U+205F and U+3000. *)
Definition spaceEncodings : list (list ascii) :=
  map (map (fun b => ascii_of_N (Z.to_N b)))
    [[9]; [10]; [11]; [12]; [13]; [32]; [194; 133]; [194; 160];
     [225; 154; 128];
     [226; 128; 128]; [226; 128; 129]; [226; 128; 130]; [226; 128; 131];
     [226; 128; 132]; [226; 128; 133]; [226; 128; 134]; [226; 128; 135];
     [226; 128; 136]; [226; 128; 137]; [226; 128; 138];
     [226; 128; 168]; [226; 128; 169]; [226; 128; 175]; [226; 129; 159];
     [227; 128; 128]].

(** A byte sequence that is a concatenation of members of [tokens]. *)
Inductive concatOf (tokens : list (list ascii)) : list ascii -> Prop :=
| concatOf_nil : concatOf tokens []
| concatOf_cons e p :
    e ∈ tokens -> concatOf tokens p -> concatOf tokens (e ++ p).

(** A byte sequence made of white space only. *)
Definition whiteSpace : list ascii -> Prop := concatOf spaceEncodings.

(** Neither end of [p] is white space. *)
Definition trimmed (p : list ascii) : Prop :=
  forall e, e ∈ spaceEncodings -> ~ e `prefix_of` p /\ ~ e `suffix_of` p.

(** [t] is [s] without the white space at its two ends. *)
Definition isTrimOf (s t : string) : Prop :=
  trimmed (list_ascii_of_string t)
  /\ exists pre suf,
       whiteSpace pre /\ whiteSpace suf
       /\ list_ascii_of_string s = pre ++ list_ascii_of_string t ++ suf.

(** Every byte value. *)
Definition allBytes : list ascii := map ascii_of_nat (seq 0 256).

(** *** Checks over all bytes *)

(** What [DecodeRune] says of a sequence, against the list: a space rune
    comes from one of the encodings only. *)
Definition soundOn (p : list ascii) : bool :=
  let '(r, size) := DecodeRune p in
  if IsSpace r then bool_decide (take size p ∈ spaceEncodings) else true.

Definition sound3 (c0 c1 c2 : ascii) : bool := soundOn [c0; c1; c2].

Definition sound2 (c0 : ascii) (sz : nat) (lo hi : Z) (c1 : ascii) : bool :=
  if soundOn [c0; c1] then
    if (byteVal c1 <? lo) || (hi <? byteVal c1) then true
    else if (sz <=? 2)%nat then true
    else forallb (sound3 c0 c1) allBytes
  else false.

Definition sound1 (c0 : ascii) : bool :=
  if soundOn [c0] then
    match leadByte (byteVal c0) with
    | None => true
    | Some (sz, lo, hi) => forallb (sound2 c0 sz lo hi) allBytes
    end
  else false.

(** The two leading bytes of a four-byte sequence put the rune at U+10000
    or above. *)
Definition high2 (c0 : ascii) (lo hi : Z) (c1 : ascii) : bool :=
  if (byteVal c1 <? lo) || (hi <? byteVal c1) then true
  else 65536 <=? Z.lor (Z.shiftl (Z.land (byteVal c0) 7) 18)
                       (Z.shiftl (Z.land (byteVal c1) 63) 12).

Definition high1 (c0 : ascii) : bool :=
  match leadByte (byteVal c0) with
  | None => true
  | Some (sz, lo, hi) =>
      if (sz <=? 3)%nat then true else forallb (high2 c0 lo hi) allBytes
  end.

(** Case analysis on a member of [spaceEncodings]. *)
Ltac space_cases H :=
  apply list_elem_of_In in H; vm_compute in H;
  repeat (destruct H as [<-|H]); [..|destruct H].

(** * The rest of the package *)

(** ** helpers.go *)

(** Go's [int] negation on a 64-bit platform: the result wraps. *)
Definition wrap64 (z : Z) : Z := (z + 2 ^ 63) mod 2 ^ 64 - 2 ^ 63.

Definition absInt (x : Z) : Z := if x <? 0 then wrap64 (- x) else x.

Definition clamp (val minVal maxVal : Z) : Z :=
  if val <? minVal then minVal
  else if val >? maxVal then maxVal
  else val.

(** An error made by [errors.New], or by [fmt.Errorf] without [%w]: it
    wraps none of the package's sentinels. *)
Definition plainError (msg : string) : error := SerialError msg.

(** ** connection.go: button callback and monitoring *)

Definition with_buttonCallback (v : bool) (s : SerialTransport) : SerialTransport :=
  {| Port := Port s; fallbackPort := fallbackPort s; sendInit := sendInit s;
     autoReconnect := autoReconnect s; overridePort := overridePort s;
     isConnected := isConnected s; reconnectAttempts := reconnectAttempts s;
     serialPort := serialPort s; currentBaud := currentBaud s;
     commandCounter := commandCounter s; pendingCommands := pendingCommands s;
     buttonCallback := v; lastButtonMask := lastButtonMask s;
     buttonStates := buttonStates s; stopChan := stopChan s;
     closedChans := closedChans s; resultChans := resultChans s;
     nextChan := nextChan s; io := io s; callbacks := callbacks s |}.

(** [SetButtonCallback]; [cb] tells whether the function passed is non-nil. *)
Definition SetButtonCallback (cb : bool) (s : SerialTransport) : SerialTransport :=
  with_buttonCallback cb s.

(** What a call of [SendCommand] with [expectResponse] false returns; the
    [Blocked] branch is not reached. *)
Definition returned (r : SendOutcome * SerialTransport)
    : (string * option error) * SerialTransport :=
  match r with
  | (Returned result err, s) => ((result, err), s)
  | (Blocked _, s) => ((EmptyString, None), s)
  end.

(** [EnableButtonMonitoring]. *)
Definition EnableButtonMonitoring (enable : bool) (env : SendEnv)
    (s : SerialTransport) : option error * SerialTransport :=
  let cmd := if enable then "km.buttons(1)" else "km.buttons(0)" in
  let '((_, err), s') := returned (SendCommand cmd false 0 env s) in
  (err, s').

(** ** mouse.go: buttons, movement, device *)

Definition pressCommands : list string :=
  ["km.left(1)"; "km.right(1)"; "km.middle(1)"; "km.ms1(1)"; "km.ms2(1)"]%string.

Definition releaseCommands : list string :=
  ["km.left(0)"; "km.right(0)"; "km.middle(0)"; "km.ms1(0)"; "km.ms2(0)"]%string.

(** A fire-and-forget call: the call made and the error it returns. *)
Definition fire (dev : Device) (command : string)
    : list TransportCall * option error :=
  let call := mkCall command false 0 in ([call], (dev call).2).

(** [Press]: the calls made on the transport and the error returned. *)
Definition Press (dev : Device) (button : Z)
    : list TransportCall * option error :=
  if (button <? 0) || (Z.of_nat (length pressCommands) <=? button)
  then ([], Some (NewCommandError ("unsupported button: " +:+ MouseButton_String button)))
  else fire dev (nth (Z.to_nat button) pressCommands EmptyString).

(** [Release]. *)
Definition Release (dev : Device) (button : Z)
    : list TransportCall * option error :=
  if (button <? 0) || (Z.of_nat (length releaseCommands) <=? button)
  then ([], Some (NewCommandError ("unsupported button: " +:+ MouseButton_String button)))
  else fire dev (nth (Z.to_nat button) releaseCommands EmptyString).

(** Sequencing of two operations that return an error: the second runs
    only if the first returned nil. *)
Definition andThen (first second : list TransportCall * option error)
    : list TransportCall * option error :=
  match first with
  | (calls, Some err) => (calls, Some err)
  | (calls, None) => (calls ++ second.1, second.2)
  end.

(** [Click]. *)
Definition Click (dev : Device) (button : Z)
    : list TransportCall * option error :=
  andThen (Press dev button) (Release dev button).

(** [Move], [MoveSmooth], [MoveBezier], [Scroll]: the [%d] verbs print
    decimal integers. *)
Definition Move (dev : Device) (x y : Z) : list TransportCall * option error :=
  fire dev ("km.move(" +:+ pretty x +:+ "," +:+ pretty y +:+ ")").

Definition MoveSmooth (dev : Device) (x y segments : Z)
    : list TransportCall * option error :=
  fire dev ("km.move(" +:+ pretty x +:+ "," +:+ pretty y +:+ ","
            +:+ pretty segments +:+ ")").

Definition MoveBezier (dev : Device) (x y segments ctrlX ctrlY : Z)
    : list TransportCall * option error :=
  fire dev ("km.move(" +:+ pretty x +:+ "," +:+ pretty y +:+ ","
            +:+ pretty segments +:+ "," +:+ pretty ctrlX +:+ ","
            +:+ pretty ctrlY +:+ ")").

Definition Scroll (dev : Device) (delta : Z)
    : list TransportCall * option error :=
  fire dev ("km.wheel(" +:+ pretty delta +:+ ")").

(** [MoveAbs] of the build without the [windows] tag (mouse_stub.go): no
    call is made. (The Windows build reads the cursor through system calls
    and is not modelled.) *)
Definition MoveAbs (target : Z * Z) (speed waitMs : Z)
    : list TransportCall * option error :=
  ([], Some (plainError "MoveAbs is only supported on Windows")).

(** [SpoofSerial] and [ResetSerial]. *)
Definition SpoofSerial (dev : Device) (serial : string)
    : list TransportCall * option error :=
  fire dev ("km.serial('" +:+ serial +:+ "')").

Definition ResetSerial (dev : Device) : list TransportCall * option error :=
  fire dev "km.serial(0)".

(** [GetFirmwareVersion]. *)
Definition GetFirmwareVersion (dev : Device)
    : list TransportCall * (string * option error) :=
  let call := mkCall "km.version()" true (100 * Millisecond) in
  match dev call with
  | (_, Some err) => ([call], (EmptyString, Some err))
  | (resp, None) => ([call], (resp, None))
  end.

(** The seven lock methods, by the name each passes to [setLock]. *)
Definition LockLeft (dev : Device) := setLock dev "LEFT".
Definition LockRight (dev : Device) := setLock dev "RIGHT".
Definition LockMiddle (dev : Device) := setLock dev "MIDDLE".
Definition LockSide1 (dev : Device) := setLock dev "MOUSE4".
Definition LockSide2 (dev : Device) := setLock dev "MOUSE5".
Definition LockX (dev : Device) := setLock dev "X".
Definition LockY (dev : Device) := setLock dev "Y".

Record DeviceInfo := mkDeviceInfo {
  diPort : string;
  diDescription : string;
  diVID : string;
  diPID : string;
  diIsConnected : bool
}.

(** An entry of the port lister as [GetDeviceInfo] reads it: the fields of
    [PortInfo] and the product string. *)
Record PortDetails := mkPortDetails {
  pdInfo : PortInfo;
  pdProduct : string
}.

(** [GetDeviceInfo]; [ports] is what the port lister answers ([None] when
    listing fails). *)
Definition GetDeviceInfo (ports : option (list PortDetails))
    (s : SerialTransport) : DeviceInfo :=
  let port := Port s in
  if negb (IsConnected s) || streq port EmptyString then
    mkDeviceInfo port "Disconnected" "Unknown" "Unknown" false
  else
    let info := mkDeviceInfo port "Connected Device" "Unknown" "Unknown" true in
    match ports with
    | None => info
    | Some ps =>
        match List.find (fun p => streq (Name (pdInfo p)) port) ps with
        | None => info
        | Some p =>
            let desc := if negb (streq (pdProduct p) EmptyString)
                        then pdProduct p else diDescription info in
            if IsUSB (pdInfo p)
            then mkDeviceInfo port desc (VID (pdInfo p)) (PID (pdInfo p)) true
            else mkDeviceInfo port desc "Unknown" "Unknown" true
        end
    end.

(** ** controller.go *)

Module Controller.

Record Config := mkConfig {
  FallbackCOMPort : string;
  Debug : bool;
  SendInit : bool;
  AutoReconnect : bool;
  OverridePort : bool
}.

Definition DefaultConfig : Config :=
  mkConfig EmptyString false true true false.

(** A connection callback, a non-nil Go function value: the code pointer,
    which is what [fmt.Sprintf("%p", f)] prints, and the closure it is.
    Closures made by one function literal share the code pointer and differ
    in what they captured. *)
Record Callback := mkCallback {
  codePointer : nat;
  closure : nat
}.

(** The controller: its transport, its mouse (field [Mouse] in the source),
    the [connected] flag and the registered connection callbacks.
    [notified] logs the callback invocations, oldest first. *)
Record MakcuController := mkController {
  Transport : SerialTransport;
  mouse : Mouse;
  connected : bool;
  connectionCallbacks : list Callback;
  notified : list (Callback * bool)
}.

Definition with_Transport (t : SerialTransport) (c : MakcuController) :=
  mkController t (mouse c) (connected c) (connectionCallbacks c) (notified c).

Definition with_mouse (m : Mouse) (c : MakcuController) :=
  mkController (Transport c) m (connected c) (connectionCallbacks c) (notified c).

Definition with_connected (v : bool) (c : MakcuController) :=
  mkController (Transport c) (mouse c) v (connectionCallbacks c) (notified c).

Definition with_connectionCallbacks (l : list Callback) (c : MakcuController) :=
  mkController (Transport c) (mouse c) (connected c) l (notified c).

Definition NewController (cfg : Config) : MakcuController :=
  mkController
    (NewSerialTransport (FallbackCOMPort cfg) (SendInit cfg)
       (AutoReconnect cfg) (OverridePort cfg))
    NewMouse false [] [].

Definition checkConnection (c : MakcuController) : option error :=
  if negb (connected c) then Some (NewConnectionError "not connected") else None.

Definition notifyConnectionChange (v : bool) (c : MakcuController)
    : MakcuController :=
  mkController (Transport c) (mouse c) (connected c) (connectionCallbacks c)
    (notified c ++ map (fun cb => (cb, v)) (connectionCallbacks c)).

(** [Connect]. *)
Definition Connect (env : ConnectEnv) (c : MakcuController)
    : option error * MakcuController :=
  match Connect env (Transport c) with
  | (Some err, t) => (Some err, with_Transport t c)
  | (None, t) =>
      (None, notifyConnectionChange true (with_connected true (with_Transport t c)))
  end.

(** [CreateController]: no controller is returned when connecting fails. *)
Definition CreateController (env : ConnectEnv) (cfg : Config)
    : option MakcuController * option error :=
  match Connect env (NewController cfg) with
  | (Some err, _) => (None, Some err)
  | (None, c) => (Some c, None)
  end.

(** [Disconnect]; the transport's [Disconnect] always returns nil. *)
Definition Disconnect (c : MakcuController) : option error * MakcuController :=
  (None,
   notifyConnectionChange false
     (with_connected false (with_Transport (Disconnect (Transport c)) c))).

Definition IsConnected (c : MakcuController) : bool :=
  connected c && IsConnected (Transport c).

(** [OnConnectionChange]. *)
Definition OnConnectionChange (cb : Callback) (c : MakcuController)
    : MakcuController :=
  with_connectionCallbacks (connectionCallbacks c ++ [cb]) c.

(** The loop of [RemoveConnectionCallback]: drop the first callback that
    prints like [cb] under [%p], that is, the first one with the code
    pointer of [cb]. *)
Fixpoint removeFirst (cb : Callback) (l : list Callback) : list Callback :=
  match l with
  | [] => []
  | existing :: rest =>
      if Nat.eqb (codePointer existing) (codePointer cb) then rest
      else existing :: removeFirst cb rest
  end.

Definition RemoveConnectionCallback (cb : Callback) (c : MakcuController)
    : MakcuController :=
  with_connectionCallbacks (removeFirst cb (connectionCallbacks c)) c.

(** The shape shared by the guarded operations that return an error only:
    [checkConnection] first, then the mouse operation. *)
Definition guarded (c : MakcuController)
    (op : list TransportCall * option error)
    : list TransportCall * option error :=
  match checkConnection c with
  | Some err => ([], Some err)
  | None => op
  end.

(** *** Operations that sleep and draw random numbers

    What such an operation does besides returning: calls on the transport
    and sleeps, in order. *)
Inductive Action :=
| Call (call : TransportCall)
| Sleep (d : Z).

(** A computation that keeps the count of the random numbers drawn so far
    and the log of actions, and may panic ([None]). *)
Definition Run (A : Type) : Type :=
  nat * list Action -> option (A * (nat * list Action)).

#[global] Instance Run_ret : MRet Run := fun A a st => Some (a, st).

#[global] Instance Run_bind : MBind Run :=
  fun A B f m st =>
    match m st with
    | None => None
    | Some (a, st') => f a st'
    end.

(** [rand.Intn(n)]: it panics unless [n] is positive; [rand k n] is what
    the [k]-th draw returns. *)
Definition intn (rand : nat -> Z -> Z) (n : Z) : Run Z :=
  fun '(k, log) =>
    if n <=? 0 then None else Some (rand k n, (S k, log)).

(** [time.Sleep(d)]. *)
Definition sleep (d : Z) : Run unit :=
  fun '(k, log) => Some (tt, (k, log ++ [Sleep d])).

(** An operation of the mouse or of the controller: its calls go to the
    log, its error is the result. *)
Definition perform (op : list TransportCall * option error)
    : Run (option error) :=
  fun '(k, log) => Some (op.2, (k, log ++ map Call op.1)).

Record timingProfile := mkProfile {
  minDown : Z;
  maxDown : Z;
  minWait : Z;
  maxWait : Z
}.

(** The click profiles, by the string of their [ClickProfile]. *)
Definition clickProfiles : gmap string timingProfile :=
  list_to_map
    [("normal", mkProfile 60 120 100 180);
     ("fast", mkProfile 30 60 50 100);
     ("slow", mkProfile 100 180 150 300);
     ("variable", mkProfile 40 200 80 250);
     ("gaming", mkProfile 20 40 30 60)]%string.

(** The body of the loop of [ClickHumanLike] at index [i]; the errors of
    the mouse operations are dropped. *)
Definition humanClick (dev : Device) (rand : nat -> Z -> Z)
    (p : timingProfile) (button count jitter i : Z) : Run unit :=
  (if 0 <? jitter then
     r1 ← intn rand (wrap64 (wrap64 (2 * jitter) + 1));
     r2 ← intn rand (wrap64 (wrap64 (2 * jitter) + 1));
     perform (Move dev (r1 - jitter) (r2 - jitter));;
     mret tt
   else mret tt);;
  perform (Press dev button);;
  down ← intn rand (maxDown p - minDown p);
  sleep ((down + minDown p) * Millisecond);;
  perform (Release dev button);;
  if i <? count - 1 then
    wait ← intn rand (maxWait p - minWait p);
    sleep ((wait + minWait p) * Millisecond)
  else mret tt.

(** The loop [for i := 0; i < count; i++], with [todo] turns left. *)
Fixpoint humanClicks (dev : Device) (rand : nat -> Z -> Z)
    (p : timingProfile) (button count jitter : Z) (todo : nat) (i : Z)
    : Run unit :=
  match todo with
  | O => mret tt
  | S todo' =>
      humanClick dev rand p button count jitter i;;
      humanClicks dev rand p button count jitter todo' (i + 1)
  end.

(** [ClickHumanLike]: the error returned and the actions made, or [None]
    for a panic. *)
Definition ClickHumanLike (dev : Device) (rand : nat -> Z -> Z)
    (button count : Z) (profile : string) (jitter : Z) (c : MakcuController)
    : option (option error * list Action) :=
  match checkConnection c with
  | Some err => Some (Some err, [])
  | None =>
      match clickProfiles !! profile with
      | None => Some (Some (plainError ("invalid click profile: " +:+ profile)), [])
      | Some p =>
          match humanClicks dev rand p button count jitter
                  (Z.to_nat count) 0 (O, []) with
          | None => None
          | Some (_, (_, log)) => Some (None, log)
          end
      end
  end.

Definition Click (dev : Device) (button : Z) (c : MakcuController) :=
  match checkConnection c with
  | Some err => ([], Some err)
  | None =>
      match Press dev button with
      | (calls, Some err) => (calls, Some err)
      | (calls, None) =>
          let '(calls', err) := Release dev button in (calls ++ calls', err)
      end
  end.

(** [DoubleClick]; [dev1] answers during the first click, [dev2] during the
    second. *)
Definition DoubleClick (dev1 dev2 : Device) (button : Z) (c : MakcuController)
    : list TransportCall * option error :=
  match checkConnection c with
  | Some err => ([], Some err)
  | None =>
      andThen (Press dev1 button)
        (andThen (Release dev1 button)
           (andThen (Press dev2 button) (Release dev2 button)))
  end.

Definition Press (dev : Device) (button : Z) (c : MakcuController) :=
  guarded c (Press dev button).

Definition Release (dev : Device) (button : Z) (c : MakcuController) :=
  guarded c (Release dev button).

Definition Move (dev : Device) (dx dy : Z) (c : MakcuController) :=
  guarded c (Move dev dx dy).

Definition MoveSmooth (dev : Device) (dx dy segments : Z) (c : MakcuController) :=
  guarded c (MoveSmooth dev dx dy segments).

(** [MoveBezier]: a nil control coordinate defaults to half the
    displacement, by Go's truncating division. *)
Definition MoveBezier (dev : Device) (dx dy segments : Z)
    (ctrlX ctrlY : option Z) (c : MakcuController) :=
  match checkConnection c with
  | Some err => ([], Some err)
  | None =>
      let cx := match ctrlX with Some x => x | None => Z.quot dx 2 end in
      let cy := match ctrlY with Some y => y | None => Z.quot dy 2 end in
      MoveBezier dev dx dy segments cx cy
  end.

Definition Scroll (dev : Device) (delta : Z) (c : MakcuController) :=
  guarded c (Scroll dev delta).

(** [setLockByTarget]; [target] is a [LockTarget], a Go [int]. *)
Definition setLockByTarget (dev : Device) (target : Z) (lock : bool)
    (c : MakcuController)
    : list TransportCall * option error * MakcuController :=
  let run (r : list TransportCall * option error * Mouse) :=
    (r.1, with_mouse r.2 c) in
  if target =? 0 then run (LockLeft dev lock (mouse c))
  else if target =? 1 then run (LockRight dev lock (mouse c))
  else if target =? 2 then run (LockMiddle dev lock (mouse c))
  else if target =? 3 then run (LockSide1 dev lock (mouse c))
  else if target =? 4 then run (LockSide2 dev lock (mouse c))
  else if target =? 5 then run (LockX dev lock (mouse c))
  else if target =? 6 then run (LockY dev lock (mouse c))
  else ([], Some (plainError ("invalid lock target: " +:+ pretty target)), c).

Definition Lock (dev : Device) (target : Z) (c : MakcuController)
    : list TransportCall * option error * MakcuController :=
  match checkConnection c with
  | Some err => ([], Some err, c)
  | None => setLockByTarget dev target true c
  end.

Definition Unlock (dev : Device) (target : Z) (c : MakcuController)
    : list TransportCall * option error * MakcuController :=
  match checkConnection c with
  | Some err => ([], Some err, c)
  | None => setLockByTarget dev target false c
  end.

Definition IsLocked (dev : Device) (button : Z) (c : MakcuController)
    : list TransportCall * (bool * option error) * MakcuController :=
  match checkConnection c with
  | Some err => ([], (false, Some err), c)
  | None =>
      let r := IsLocked dev button (mouse c) in (r.1, with_mouse r.2 c)
  end.

(** [GetAllLockStates]; the map is nil when the check fails. *)
Definition GetAllLockStates (dev : Device) (c : MakcuController)
    : list TransportCall * (option (gmap string bool) * option error)
      * MakcuController :=
  match checkConnection c with
  | Some err => ([], (None, Some err), c)
  | None =>
      let r := GetAllLockStates dev (mouse c) in
      (r.1.1, (Some r.1.2, None), with_mouse r.2 c)
  end.

Definition GetFirmwareVersion (dev : Device) (c : MakcuController)
    : list TransportCall * (string * option error) :=
  match checkConnection c with
  | Some err => ([], (EmptyString, Some err))
  | None => GetFirmwareVersion dev
  end.

Definition GetButtonMask (c : MakcuController) : Z * option error :=
  match checkConnection c with
  | Some err => (0, Some err)
  | None => (GetButtonMask (Transport c), None)
  end.

(** [IsPressed]: a name missing from the map reads as false. *)
Definition IsPressed (button : Z) (c : MakcuController) : bool * option error :=
  match checkConnection c with
  | Some err => (false, Some err)
  | None =>
      (default false (GetButtonStates (Transport c) !! MouseButton_String button),
       None)
  end.

Definition SetButtonCallback (cb : bool) (c : MakcuController)
    : option error * MakcuController :=
  match checkConnection c with
  | Some err => (Some err, c)
  | None => (None, with_Transport (SetButtonCallback cb (Transport c)) c)
  end.

Definition EnableButtonMonitoring (enable : bool) (env : SendEnv)
    (c : MakcuController) : option error * MakcuController :=
  match checkConnection c with
  | Some err => (Some err, c)
  | None =>
      let r := EnableButtonMonitoring enable env (Transport c) in
      (r.1, with_Transport r.2 c)
  end.

(** The seven lock methods of the controller. *)
Definition lockBy (mouseLock : bool -> Mouse -> list TransportCall * option error * Mouse)
    (lock : bool) (c : MakcuController)
    : list TransportCall * option error * MakcuController :=
  match checkConnection c with
  | Some err => ([], Some err, c)
  | None => let r := mouseLock lock (mouse c) in (r.1, with_mouse r.2 c)
  end.

Definition LockLeft (dev : Device) := lockBy (LockLeft dev).
Definition LockRight (dev : Device) := lockBy (LockRight dev).
Definition LockMiddle (dev : Device) := lockBy (LockMiddle dev).
Definition LockSide1 (dev : Device) := lockBy (LockSide1 dev).
Definition LockSide2 (dev : Device) := lockBy (LockSide2 dev).
Definition LockX (dev : Device) := lockBy (LockX dev).
Definition LockY (dev : Device) := lockBy (LockY dev).

Definition SpoofSerial (dev : Device) (serial : string) (c : MakcuController) :=
  guarded c (SpoofSerial dev serial).

Definition ResetSerial (dev : Device) (c : MakcuController) :=
  guarded c (ResetSerial dev).

(** [MoveAbs]; [mouseMoveAbs] is the [Mouse.MoveAbs] of the build. *)
Definition MoveAbs
    (mouseMoveAbs : Z * Z -> Z -> Z -> list TransportCall * option error)
    (target : Z * Z) (speed waitMs : Z) (c : MakcuController) :=
  guarded c (mouseMoveAbs target speed waitMs).

(** [GetDeviceInfo]: the zero [DeviceInfo] when the check fails. *)
Definition GetDeviceInfo (ports : option (list PortDetails))
    (c : MakcuController) : DeviceInfo * option error :=
  match checkConnection c with
  | Some err =>
      (mkDeviceInfo EmptyString EmptyString EmptyString EmptyString false,
       Some err)
  | None => (GetDeviceInfo ports (Transport c), None)
  end.

(** [GetButtonStates]: a nil map when the check fails. *)
Definition GetButtonStates (c : MakcuController)
    : option (gmap string bool) * option error :=
  match checkConnection c with
  | Some err => (None, Some err)
  | None => (Some (GetButtonStates (Transport c)), None)
  end.

(** [float64(x)] for an [int64] of magnitude below 2^63. *)
Definition floatOfInt (z : Z) : float :=
  if z <? 0 then PrimFloat.opp (PrimFloat.of_uint63 (Uint63.of_Z (- z)))
  else PrimFloat.of_uint63 (Uint63.of_Z z).

(** [int(f)] for a finite [f] within the range of [int]: the fraction is
    cut off. *)
Definition truncFloat (f : float) : Z :=
  match Prim2SF f with
  | S754_finite sign m e =>
      let magnitude :=
        if 0 <=? e then Z.pos m * 2 ^ e else Z.pos m / 2 ^ (- e) in
      if sign then - magnitude else magnitude
  | _ => 0
  end.

(** [Duration.Seconds] of package [time]; a [Duration] counts nanoseconds. *)
Definition Seconds (d : Z) : float :=
  PrimFloat.add (floatOfInt (Z.quot d Second))
                (PrimFloat.div (floatOfInt (Z.rem d Second)) 1e9%float).

(** [max(10, int(duration.Seconds()*30))]. *)
Definition dragSegments (duration : Z) : Z :=
  Z.max 10 (truncFloat (PrimFloat.mul (Seconds duration) 30%float)).

(** An operation that returns an error, and what follows when it is nil. *)
Definition orReturn (m : Run (option error)) (k : Run (option error))
    : Run (option error) :=
  r ← m; match r with Some err => mret (Some err) | None => k end.

(** [Drag]: the error returned and the actions made. *)
Definition Drag (dev : Device) (startX startY endX endY button duration : Z)
    (c : MakcuController) : option error * list Action :=
  let body : Run (option error) :=
    match checkConnection c with
    | Some err => mret (Some err)
    | None =>
        orReturn (perform (Move dev startX startY c))
          (sleep (20 * Millisecond);;
           orReturn (perform (Press dev button c))
             (sleep (20 * Millisecond);;
              orReturn
                (perform (MoveSmooth dev (wrap64 (endX - startX))
                            (wrap64 (endY - startY))
                            (dragSegments duration) c))
                (sleep (20 * Millisecond);;
                 perform (Release dev button c))))
    end in
  match body (O, []) with
  | Some (err, (_, log)) => (err, log)
  | None => (None, [])
  end.

(** What [BatchExecute] returns when it fails: the error of
    [checkConnection] as it is, or the error of an action wrapped in a
    message that carries the action's index. *)
Inductive BatchError :=
| NotConnected (err : error)
| ActionFailed (index : Z) (cause : error).

(** The loop of [BatchExecute] from index [i]: each action is run on the
    state [St] it closes over; the first error stops the run. *)
Fixpoint runActions {St : Type} (i : Z) (actions : list (St -> option error * St))
    (st : St) : option BatchError * St :=
  match actions with
  | [] => (None, st)
  | action :: rest =>
      match action st with
      | (Some err, st') => (Some (ActionFailed i err), st')
      | (None, st') => runActions (i + 1) rest st'
      end
  end.

Definition BatchExecute {St : Type} (actions : list (St -> option error * St))
    (c : MakcuController) (st : St) : option BatchError * St :=
  match checkConnection c with
  | Some err => (Some (NotConnected err), st)
  | None => runActions 0 actions st
  end.

End Controller.

(** ** Auxiliary notions used by the further statements *)

(** The id the next response-expecting command gets, and what is written
    for it. *)
Definition nextID (s : SerialTransport) : Z := Z.rem (commandCounter s + 1) 10000.

Definition taggedCommand (command : string) (id : Z) : string :=
  command +:+ "#" +:+ pretty id +:+ CRLF.

(** The ids of [n] consecutive calls of [generateCommandID]. *)
Fixpoint generateIDs (n : nat) (s : SerialTransport) : list Z * SerialTransport :=
  match n with
  | O => ([], s)
  | S n' =>
      let '(id, s1) := generateCommandID s in
      let '(ids, s2) := generateIDs n' s1 in
      (id :: ids, s2)
  end.

(** No channel at or above the next fresh address holds a value. *)
Definition freshChans (s : SerialTransport) : Prop :=
  forall ch, (nextChan s <= ch)%nat -> resultChans s !! ch = None.

(** A byte that [listen] accumulates as text. *)
Definition printable (c : ascii) : bool :=
  (32 <=? byteVal c) || (byteVal c =? 9).

(** A byte that [listen] always takes for a telegram. *)
Definition controlByte (c : ascii) : bool :=
  (byteVal c <? 32) && negb (byteVal c =? 9) && negb (byteVal c =? 10)
  && negb (byteVal c =? 13).

(** What holds of the locals of [listen] between two bytes. *)
Definition demuxInvariant (l : ListenLocals) : Prop :=
  (String.length (line l) <= 256)%nat
  /\ (line l <> EmptyString -> expectingTextMode l = true)
  /\ -1 <= lastByte l < 256.

(** The button edges between two masks: for each of the five named bits
    that differs, the bit and its new value, lowest bit first. *)
Definition buttonEdges (old new : Z) : list (Z * bool) :=
  flat_map
    (fun n => if xorb (Z.testbit new n) (Z.testbit old n)
              then [(n, Z.testbit new n)] else [])
    [0; 1; 2; 3; 4].


(** The query that [IsLocked] and [GetAllLockStates] send for a target. *)
Definition queryCall (info : lockInfo) : TransportCall :=
  mkCall (queryCmd info) true (50 * Millisecond).

(** What a query tells about a target: nothing when the call fails, else
    whether the trimmed response is ["1"]. *)
Definition queryAnswer (dev : Device) (info : lockInfo) : option bool :=
  match dev (queryCall info) with
  | (_, Some _) => None
  | (resp, None) => Some (streq (TrimSpace resp) "1")
  end.
(** * Properties *)

(** ** The model on small inputs *)

Example TrimSpace_both_ends :
  TrimSpace (String TAB " km.MAKCU " +:+ CRLF) = "km.MAKCU"%string.
Proof. reflexivity. Qed.

Example parseResponseLine_prompt :
  parseResponseLine ">>> 1 " = "1"%string.
Proof. reflexivity. Qed.

(** White space is Unicode's: a no-break space (bytes 194, 160) goes, a
    lone byte 160 is no rune and stays. *)
Example TrimSpace_no_break_space :
  TrimSpace (String "194" (String "160" "ok")) = "ok"%string
  /\ TrimSpace (String "1" (String "194" (String "160" EmptyString))) = "1"%string
  /\ TrimSpace (String "160" "ok") = String "160" "ok".
Proof. repeat split. Qed.

Example parseResponseLine_only_space :
  parseResponseLine (String "194" (String "160" EmptyString)) = EmptyString.
Proof. reflexivity. Qed.

Example cutAtHash_tagged : cutAtHash "km.MAKCU#12" = "km.MAKCU"%string.
Proof. reflexivity. Qed.

Example generateCommandID_wraps :
  (generateCommandID (with_commandCounter 9999 connected)).1 = 0.
Proof. reflexivity. Qed.

Example SendCommand_tags_the_command :
  io (SendCommand "km.version()" true 0 (mkSendEnv None 0) connected).2
  = [IOWrite ("km.version()#1" +:+ CRLF)].
Proof. reflexivity. Qed.

Example findOldest_any_order : findOldest [7; 0; 3] = 0 /\ findOldest [3; 7; 0] = 0.
Proof. split; reflexivity. Qed.

(** The text ["A"] followed by CR LF is one text line and no telegram. *)
Example listen_text_line :
  listenBytes ["A"%char; CR; LF] (listenStart 0) twoPending
  = (mkLocals EmptyString false 10 0, processPendingCommands "A" twoPending).
Proof. vm_compute. reflexivity. Qed.

(** A zero byte with no text before it is a telegram. *)
Example listen_telegram :
  listenBytes ["000"%char] (listenStart 0) twoPending
  = (mkLocals EmptyString false 0 0, handleButtonData 0 twoPending).
Proof. vm_compute. reflexivity. Qed.

(** Pressing left, then right as well: both bits set, mask 3. *)
Example telegrams_press_left_right :
  let s := applyTelegrams [1; 3]
             (NewSerialTransport EmptyString true true false) in
  buttonStates s = 3 /\ lastButtonMask s = 3.
Proof. vm_compute. split; reflexivity. Qed.

(** ** Bits *)

Lemma bitSet_testbit (x n : Z) : 0 <= n -> bitSet x n = Z.testbit x n.
Proof.
  intros Hn. unfold bitSet. rewrite Z.shiftl_1_l.
  destruct (Z.testbit x n) eqn:E.
  - apply negb_true_iff, Z.eqb_neq. intros H0.
    assert (Ht : Z.testbit (Z.land x (2 ^ n)) n = true).
    { rewrite Z.land_spec, E, Z.pow2_bits_true by lia. reflexivity. }
    rewrite H0, Z.bits_0 in Ht. discriminate.
  - apply negb_false_iff, Z.eqb_eq, Z.bits_inj'. intros m Hm.
    rewrite Z.land_spec, Z.bits_0, Z.pow2_bits_eqb by lia.
    destruct (Z.eqb_spec n m) as [->|]; [rewrite E|]; apply andb_false_r || reflexivity.
Qed.

Lemma storeLockBit_testbit (v : bool) (n x i : Z) :
  0 <= n -> 0 <= i ->
  Z.testbit (storeLockBit v n x) i = if i =? n then v else Z.testbit x i.
Proof.
  intros Hn Hi. unfold storeLockBit. rewrite Z.shiftl_1_l.
  destruct v.
  - rewrite Z.lor_spec, Z.pow2_bits_eqb by lia.
    rewrite (Z.eqb_sym n i). destruct (i =? n); [apply orb_true_r | apply orb_false_r].
  - rewrite Z.land_spec, Z.lnot_spec, Z.pow2_bits_eqb by lia.
    rewrite (Z.eqb_sym n i). destruct (i =? n); [apply andb_false_r | apply andb_true_r].
Qed.

(** ** The input-state cache *)

Lemma handleBit_frame cb bv s n :
  lastButtonMask (handleBit cb bv s n) = lastButtonMask s
  /\ table (handleBit cb bv s n) = table s.
Proof.
  unfold handleBit.
  destruct (bitSet cb n); [|done].
  destruct (bitSet bv n); simpl; destruct (buttonCallback s && (n <? 5)); done.
Qed.

Lemma handleBit_states cb bv s n :
  buttonStates (handleBit cb bv s n) =
  if bitSet cb n then storeLockBit (bitSet bv n) n (buttonStates s)
  else buttonStates s.
Proof.
  unfold handleBit, storeLockBit.
  destruct (bitSet cb n); [|done].
  destruct (bitSet bv n); simpl; destruct (buttonCallback s && (n <? 5)); done.
Qed.

(** After the loop over the bit positions [bits], a position among them
    holds the bit of the telegram if it changed, and every other position
    is as before. *)
Lemma handleBits_testbit cb bv (bits : list Z) s i :
  0 <= i -> Forall (fun n => 0 <= n) bits ->
  Z.testbit (buttonStates (fold_left (handleBit cb bv) bits s)) i =
  if bool_decide (i ∈ bits) && Z.testbit cb i then Z.testbit bv i
  else Z.testbit (buttonStates s) i.
Proof.
  intros Hi. revert s. induction bits as [|n bits IH]; intros s Hall.
  - reflexivity.
  - inversion Hall as [|? ? Hn Hall']; subst. simpl fold_left.
    rewrite IH by assumption. rewrite handleBit_states.
    rewrite !bitSet_testbit by assumption.
    destruct (decide (i = n)) as [->|Hne].
    + rewrite (bool_decide_eq_true_2 (n ∈ n :: bits)) by apply list_elem_of_here.
      destruct (Z.testbit cb n) eqn:Ecb.
      * rewrite andb_true_r. rewrite storeLockBit_testbit, Z.eqb_refl by assumption.
        destruct (bool_decide (n ∈ bits)); reflexivity.
      * rewrite !andb_false_r. reflexivity.
    + assert (Hmem : bool_decide (i ∈ n :: bits) = bool_decide (i ∈ bits)).
      { apply bool_decide_ext. rewrite elem_of_cons. intuition congruence. }
      rewrite Hmem.
      destruct (bool_decide (i ∈ bits) && Z.testbit cb i); [reflexivity|].
      destruct (Z.testbit cb n); [|reflexivity].
      rewrite storeLockBit_testbit by assumption.
      destruct (Z.eqb_spec i n); [contradiction | reflexivity].
Qed.

Lemma handleBits_frame cb bv (bits : list Z) s :
  lastButtonMask (fold_left (handleBit cb bv) bits s) = lastButtonMask s
  /\ table (fold_left (handleBit cb bv) bits s) = table s.
Proof.
  revert s. induction bits as [|n bits IH]; intros s; [done|].
  simpl. destruct (IH (handleBit cb bv s n)) as (-> & ->).
  apply handleBit_frame.
Qed.

Lemma handleButtonData_unfold bv s :
  handleButtonData bv s =
  if bv =? lastButtonMask s then s
  else with_lastButtonMask bv
         (fold_left (handleBit (Z.lxor bv (lastButtonMask s)) bv) (seqZ 0 8) s).
Proof. reflexivity. Qed.

Lemma with_lastButtonMask_proj v s :
  lastButtonMask (with_lastButtonMask v s) = v
  /\ buttonStates (with_lastButtonMask v s) = buttonStates s
  /\ table (with_lastButtonMask v s) = table s.
Proof. repeat split. Qed.

Lemma handleButtonData_mask bv s : lastButtonMask (handleButtonData bv s) = bv.
Proof.
  rewrite handleButtonData_unfold.
  destruct (Z.eqb_spec bv (lastButtonMask s)); [done|].
  apply with_lastButtonMask_proj.
Qed.

Lemma handleButtonData_frame bv s :
  table (handleButtonData bv s) = table s.
Proof.
  rewrite handleButtonData_unfold.
  destruct (bv =? lastButtonMask s); [done|].
  destruct (with_lastButtonMask_proj bv
    (fold_left (handleBit (Z.lxor bv (lastButtonMask s)) bv) (seqZ 0 8) s))
    as (_ & _ & ->).
  apply handleBits_frame.
Qed.

Lemma table_eq s s' :
  table s' = table s ->
  pendingCommands s' = pendingCommands s
  /\ resultChans s' = resultChans s
  /\ nextChan s' = nextChan s
  /\ commandCounter s' = commandCounter s.
Proof. unfold table. intros H. injection H as H1 H2 H3 H4. auto. Qed.

(** The low eight bits of [buttonStates] follow the telegram wherever they
    agreed with the previous mask; higher bits are never touched. *)
Lemma handleButtonData_testbit bv s i :
  0 <= i ->
  Z.testbit (buttonStates (handleButtonData bv s)) i =
  if (i <? 8) && negb (Bool.eqb (Z.testbit bv i) (Z.testbit (lastButtonMask s) i))
  then Z.testbit bv i else Z.testbit (buttonStates s) i.
Proof.
  intros Hi. rewrite handleButtonData_unfold.
  destruct (Z.eqb_spec bv (lastButtonMask s)) as [->|Hne].
  - rewrite Bool.eqb_reflx, andb_false_r. reflexivity.
  - destruct (with_lastButtonMask_proj bv
      (fold_left (handleBit (Z.lxor bv (lastButtonMask s)) bv) (seqZ 0 8) s))
      as (_ & -> & _).
    rewrite handleBits_testbit; [|assumption|].
    + rewrite Z.lxor_spec.
      assert (Hmem : bool_decide (i ∈ seqZ 0 8) = (i <? 8)).
      { destruct (Z.ltb_spec i 8).
        - apply bool_decide_eq_true_2, elem_of_seqZ. lia.
        - apply bool_decide_eq_false_2. rewrite elem_of_seqZ. lia. }
      rewrite Hmem.
      destruct (Z.testbit bv i), (Z.testbit (lastButtonMask s) i); reflexivity.
    + apply Forall_forall. intros n Hin%elem_of_seqZ. lia.
Qed.

Lemma handleButtonData_lowBits bv s :
  lowBitsAgree s -> lowBitsAgree (handleButtonData bv s).
Proof.
  intros Hinv i Hi. rewrite handleButtonData_mask.
  rewrite handleButtonData_testbit by lia.
  replace (i <? 8) with true by (symmetry; apply Z.ltb_lt; lia).
  rewrite Hinv by assumption.
  destruct (Z.testbit bv i), (Z.testbit (lastButtonMask s) i); reflexivity.
Qed.

Lemma applyTelegrams_lowBits telegrams s :
  lowBitsAgree s -> lowBitsAgree (applyTelegrams telegrams s).
Proof.
  revert s. induction telegrams as [|b bs IH]; intros s Hinv; [assumption|].
  apply IH, handleButtonData_lowBits, Hinv.
Qed.

Lemma handleButtonData_highBits bv s :
  (forall i, 8 <= i -> Z.testbit (buttonStates s) i = false) ->
  forall i, 8 <= i -> Z.testbit (buttonStates (handleButtonData bv s)) i = false.
Proof.
  intros Hhi i Hi. rewrite handleButtonData_testbit by lia.
  replace (i <? 8) with false by (symmetry; apply Z.ltb_ge; lia).
  apply Hhi, Hi.
Qed.

Lemma GetButtonStates_lookup s i name :
  buttonNames !! i = Some name ->
  GetButtonStates s !! name = Some (Z.testbit (buttonStates s) (Z.of_nat i)).
Proof.
  intros Hname. unfold GetButtonStates.
  assert (Hi : (i < 5)%nat) by (apply lookup_lt_Some in Hname; exact Hname).
  cbn [imap buttonNames].
  do 5 (destruct i as [|i]; [injection Hname as <-;
     rewrite <- bitSet_testbit by lia; reflexivity|]).
  lia.
Qed.

Lemma applyTelegrams_snoc telegrams b s :
  applyTelegrams (telegrams ++ [b]) s = handleButtonData b (applyTelegrams telegrams s).
Proof. unfold applyTelegrams. rewrite fold_left_app. reflexivity. Qed.

Lemma applyTelegrams_mask telegrams s :
  lastButtonMask (applyTelegrams telegrams s) = List.last telegrams (lastButtonMask s).
Proof.
  induction telegrams as [|b bs IH] using rev_ind; [reflexivity|].
  rewrite applyTelegrams_snoc, handleButtonData_mask, List.last_last. reflexivity.
Qed.

Lemma applyTelegrams_highBits telegrams s :
  (forall i, 8 <= i -> Z.testbit (buttonStates s) i = false) ->
  forall i, 8 <= i -> Z.testbit (buttonStates (applyTelegrams telegrams s)) i = false.
Proof.
  induction telegrams as [|b bs IH] using rev_ind; intros Hhi; [exact Hhi|].
  rewrite applyTelegrams_snoc. apply handleButtonData_highBits, IH, Hhi.
Qed.

Lemma byte_highBits (b i : Z) : 0 <= b < 256 -> 8 <= i -> Z.testbit b i = false.
Proof.
  intros Hb Hi. rewrite <- (Z.mod_small b (2 ^ 8)) by lia.
  apply Z.mod_pow2_bits_high. lia.
Qed.

(** C10. Starting from a transport whose [buttonStates] and
    [lastButtonMask] are both 0, after any run of calls to
    [handleButtonData] the two agree on all eight bit positions, the mask is
    the most recent telegram, [GetButtonStates] reports for each named
    button the bit of [GetButtonMask], and when every telegram is a byte the
    two fields are equal as integers. *)
Theorem C10_buttonStates_follow_lastButtonMask
    (telegrams : list Z) (s0 : SerialTransport) :
  buttonStates s0 = 0 -> lastButtonMask s0 = 0 ->
  let s := applyTelegrams telegrams s0 in
  (forall i, 0 <= i < 8 ->
     Z.testbit (buttonStates s) i = Z.testbit (lastButtonMask s) i)
  /\ GetButtonMask s = List.last telegrams 0
  /\ (forall i name, buttonNames !! i = Some name ->
        GetButtonStates s !! name
        = Some (Z.testbit (GetButtonMask s) (Z.of_nat i)))
  /\ (Forall (fun b => 0 <= b < 256) telegrams ->
        buttonStates s = lastButtonMask s).
Proof.
  intros Hst Hmask s.
  assert (Hlow : lowBitsAgree s).
  { apply applyTelegrams_lowBits. intros i _. rewrite Hst, Hmask. reflexivity. }
  assert (Hlast : lastButtonMask s = List.last telegrams 0).
  { subst s. rewrite applyTelegrams_mask, Hmask. reflexivity. }
  split; [exact Hlow|]. split; [exact Hlast|]. split.
  - intros i name Hname. rewrite (GetButtonStates_lookup _ _ _ Hname).
    unfold GetButtonMask. f_equal. apply Hlow.
    apply lookup_lt_Some in Hname. simpl in Hname. lia.
  - intros Hbytes. apply Z.bits_inj'. intros i Hi.
    destruct (Z.ltb_spec i 8) as [Hlt|Hge]; [apply Hlow; lia|].
    subst s. rewrite applyTelegrams_highBits; [|intros j _; rewrite Hst; apply Z.bits_0|assumption].
    rewrite Hlast. symmetry.
    assert (Hb : 0 <= List.last telegrams 0 < 256).
    { clear -Hbytes. induction Hbytes as [|b l Hb Hl IH]; [simpl; lia|].
      destruct l; [exact Hb | exact IH]. }
    apply byte_highBits; assumption.
Qed.

Lemma C10_witness :
  let s := applyTelegrams [1; 3; 10; 0; 16] (NewSerialTransport EmptyString true true false) in
  buttonStates s = 16 /\ lastButtonMask s = 16
  /\ GetButtonStates s !! "mouse5"%string = Some true.
Proof.
  pose proof (C10_buttonStates_follow_lastButtonMask [1; 3; 10; 0; 16]
                (NewSerialTransport EmptyString true true false)
                eq_refl eq_refl) as (_ & Hmask & Hnames & Heq).
  cbv zeta in *. unfold GetButtonMask in *.
  assert (Hb : Forall (fun b => 0 <= b < 256) [1; 3; 10; 0; 16]).
  { repeat constructor; lia. }
  specialize (Heq Hb). specialize (Hnames 4%nat "mouse5"%string eq_refl).
  rewrite Hmask in Heq, Hnames |- *. simpl List.last in *.
  split; [exact Heq|]. split; [reflexivity|]. exact Hnames.
Defined.

(** ** The command correlator: routing *)

Lemma streq_true (a b : string) : streq a b = true <-> a = b.
Proof. unfold streq. apply bool_decide_eq_true. Qed.

Lemma streq_false (a b : string) : streq a b = false <-> a <> b.
Proof. unfold streq. apply bool_decide_eq_false. Qed.

Lemma streq_refl (a : string) : streq a a = true.
Proof. apply streq_true. reflexivity. Qed.

Lemma olderID_fold (ids : list Z) (acc : Z) :
  0 <= acc -> Forall (fun id => 0 <= id) ids ->
  let r := fold_left olderID ids acc in
  (r = acc \/ r ∈ ids) /\ r <= acc /\ Forall (fun id => r <= id) ids.
Proof.
  revert acc. induction ids as [|id ids IH]; intros acc Hacc Hall; simpl.
  - repeat split; [left; reflexivity | lia | constructor].
  - inversion Hall as [|? ? Hid Hids]; subst.
    assert (Hstep : olderID acc id = Z.min acc id).
    { unfold olderID. destruct (Z.eqb_spec acc (-1)); [lia|].
      simpl. destruct (Z.ltb_spec id acc); lia. }
    rewrite Hstep. destruct (IH (Z.min acc id) ltac:(lia) Hids) as (Hin & Hle & Hmin).
    repeat split.
    + destruct Hin as [Heq|Hin]; [|right; right; exact Hin].
      rewrite Heq. destruct (Z.min_spec acc id) as [[_ ->]|[_ ->]];
        [left; reflexivity | right; left].
    + lia.
    + constructor; [lia | exact Hmin].
Qed.

(** The search returns a key of the list, and the least one. *)
Lemma findOldest_least (ids : list Z) :
  ids <> [] -> Forall (fun id => 0 <= id) ids ->
  findOldest ids ∈ ids /\ Forall (fun id => findOldest ids <= id) ids.
Proof.
  destruct ids as [|id ids]; [congruence|]. intros _ Hall.
  inversion Hall as [|? ? Hid Hids]; subst.
  unfold findOldest. simpl fold_left.
  change (olderID (-1) id) with id.
  destruct (olderID_fold ids id Hid Hids) as (Hin & Hle & Hmin).
  split.
  - destruct Hin as [->|Hin]; [left | right; exact Hin].
  - constructor; assumption.
Qed.

Lemma pendingIDs_elem (s : SerialTransport) (id : Z) :
  id ∈ pendingIDs s <-> is_Some (pendingCommands s !! id).
Proof.
  unfold pendingIDs. rewrite list_elem_of_fmap. split.
  - intros ([k p] & -> & Hin). apply elem_of_map_to_list in Hin. eauto.
  - intros [p Hp]. exists (id, p). split; [reflexivity|].
    apply elem_of_map_to_list. exact Hp.
Qed.

(** Whatever the order of iteration, the id selected is a pending one and
    no pending id is lower. *)
Lemma findOldest_is_key (s : SerialTransport) (ids : list Z) :
  ids ≡ₚ pendingIDs s -> validIDs s -> pendingCommands s <> ∅ ->
  exists p, pendingCommands s !! findOldest ids = Some p
    /\ forall id, is_Some (pendingCommands s !! id) -> findOldest ids <= id.
Proof.
  intros Hperm Hvalid Hne.
  assert (Hmem : forall id, id ∈ ids <-> is_Some (pendingCommands s !! id)).
  { intros id. rewrite Hperm. apply pendingIDs_elem. }
  assert (Hnil : ids <> []).
  { intros ->. apply Hne, map_empty. intros id.
    destruct (pendingCommands s !! id) eqn:E; [|reflexivity].
    exfalso. eapply not_elem_of_nil, Hmem. eauto. }
  assert (Hall : Forall (fun id => 0 <= id) ids).
  { apply Forall_forall. intros id Hin%Hmem%Hvalid. lia. }
  destruct (findOldest_least ids Hnil Hall) as [Hin Hmin].
  apply Hmem in Hin as [p Hp]. exists p. split; [exact Hp|].
  intros id Hid%Hmem. rewrite Forall_forall in Hmin. apply Hmin, Hid.
Qed.

Lemma findOldest_order (s : SerialTransport) (ids ids' : list Z) :
  ids ≡ₚ pendingIDs s -> ids' ≡ₚ pendingIDs s -> validIDs s ->
  pendingCommands s <> ∅ -> findOldest ids = findOldest ids'.
Proof.
  intros H1 H2 Hvalid Hne.
  destruct (findOldest_is_key s ids H1 Hvalid Hne) as (p & Hp & Hmin).
  destruct (findOldest_is_key s ids' H2 Hvalid Hne) as (p' & Hp' & Hmin').
  apply Z.le_antisymm; [apply Hmin | apply Hmin']; eauto.
Qed.

Lemma processPendingCommandsIn_noop (ids : list Z) (c : string) s :
  pendingCommands s = ∅ \/ c = EmptyString ->
  processPendingCommandsIn ids c s = s.
Proof.
  intros H. unfold processPendingCommandsIn.
  destruct (streq c EmptyString) eqn:Ec; [reflexivity|].
  destruct H as [H| ->]; [|rewrite streq_refl in Ec; discriminate].
  rewrite bool_decide_eq_true_2 by exact H. reflexivity.
Qed.

Lemma processPendingCommandsIn_echo (ids : list Z) s p :
  pendingCommands s !! findOldest ids = Some p ->
  processPendingCommandsIn ids (Command p) s = s.
Proof.
  intros Hp. unfold processPendingCommandsIn.
  destruct (streq (Command p) EmptyString); [reflexivity|].
  destruct (bool_decide (pendingCommands s = ∅)); [reflexivity|].
  rewrite Hp, streq_refl. reflexivity.
Qed.

Lemma processPendingCommandsIn_resolve (ids : list Z) (c : string) s p :
  pendingCommands s !! findOldest ids = Some p ->
  c <> EmptyString -> c <> Command p ->
  processPendingCommandsIn ids c s = resolved (findOldest ids) p c s.
Proof.
  intros Hp Hc Hecho. unfold processPendingCommandsIn.
  apply streq_false in Hc. rewrite Hc.
  rewrite bool_decide_eq_false_2.
  - rewrite Hp. apply streq_false in Hecho. rewrite Hecho. reflexivity.
  - intros Hempty. rewrite Hempty, lookup_empty in Hp. discriminate.
Qed.

Lemma chanSend_lookup (ch : nat) (v : string) (chans : gmap nat string) :
  chanSend ch v chans !! ch = Some (default v (chans !! ch)).
Proof.
  unfold chanSend. destruct (chans !! ch) eqn:E; simpl.
  - exact E.
  - apply lookup_insert_eq.
Qed.

Lemma chanSend_lookup_ne (ch ch' : nat) (v : string) (chans : gmap nat string) :
  ch' <> ch -> chanSend ch v chans !! ch' = chans !! ch'.
Proof.
  intros Hne. unfold chanSend. destruct (chans !! ch); [reflexivity|].
  apply lookup_insert_ne. congruence.
Qed.

(** C1. [processPendingCommands] does nothing when no command is pending
    or the content is empty. Otherwise, whatever the order in which the map
    is iterated, it selects the pending entry with the lowest id; that entry
    is fixed by the table alone, before the content is looked at, so an id
    written in the content plays no part. Unless the content is the exact
    text of that entry's command, the content is offered to that entry's
    result channel without blocking (kept if the channel is empty, dropped
    if it is full), the entry is deleted, and every other entry and every
    other channel is as before. *)
Theorem C1_response_goes_to_lowest_pending_id
    (s : SerialTransport) (ids : list Z) :
  ids ≡ₚ pendingIDs s -> validIDs s ->
  (forall c, pendingCommands s = ∅ \/ c = EmptyString ->
             processPendingCommandsIn ids c s = s)
  /\ (pendingCommands s <> ∅ ->
      exists lo p,
        pendingCommands s !! lo = Some p
        /\ (forall id, is_Some (pendingCommands s !! id) -> lo <= id)
        /\ forall c, c <> EmptyString -> c <> Command p ->
           let s' := processPendingCommandsIn ids c s in
           s' = resolved lo p c s
           /\ pendingCommands s' = delete lo (pendingCommands s)
           /\ (forall id, id <> lo ->
                 pendingCommands s' !! id = pendingCommands s !! id)
           /\ resultChans s' !! ResultCh p
              = Some (default c (resultChans s !! ResultCh p))
           /\ (forall ch, ch <> ResultCh p ->
                 resultChans s' !! ch = resultChans s !! ch)).
Proof.
  intros Hperm Hvalid. split.
  - intros c Hc. apply processPendingCommandsIn_noop, Hc.
  - intros Hne.
    destruct (findOldest_is_key s ids Hperm Hvalid Hne) as (p & Hp & Hmin).
    exists (findOldest ids), p. split; [exact Hp|]. split; [exact Hmin|].
    intros c Hc Hecho s'. subst s'.
    rewrite (processPendingCommandsIn_resolve ids c s p Hp Hc Hecho).
    split; [reflexivity|]. split; [reflexivity|]. split; [|split].
    + intros id Hid. apply lookup_delete_ne. congruence.
    + apply chanSend_lookup.
    + intros ch Hch. apply chanSend_lookup_ne, Hch.
Qed.

(** ** White space: the decoder against the list of encodings *)

Lemma allBytes_all (c : ascii) : In c allBytes.
Proof.
  unfold allBytes. rewrite <- (ascii_nat_embedding c).
  apply in_map, in_seq. pose proof (nat_ascii_bounded c). lia.
Qed.

Lemma forall_bytes (P : ascii -> bool) :
  forallb P allBytes = true -> forall c, P c = true.
Proof.
  intros H c. rewrite forallb_forall in H. apply H, allBytes_all.
Qed.

(** [DecodeRune] against the list of encodings, over every byte. *)
Lemma sound1_holds : forallb sound1 allBytes = true.
Proof. vm_compute. reflexivity. Qed.

(** Four-byte sequences decode to U+10000 or above. *)
Lemma high1_holds : forallb high1 allBytes = true.
Proof. vm_compute. reflexivity. Qed.

Lemma soundOn_levels (c0 : ascii) :
  soundOn [c0] = true
  /\ forall sz lo hi c1,
       leadByte (byteVal c0) = Some (sz, lo, hi) ->
       soundOn [c0; c1] = true
       /\ ((byteVal c1 <? lo) || (hi <? byteVal c1) = false ->
           (sz <=? 2)%nat = false ->
           forall c2, soundOn [c0; c1; c2] = true).
Proof.
  pose proof (forall_bytes sound1 sound1_holds c0) as H.
  unfold sound1 in H.
  destruct (soundOn [c0]); [|discriminate H]. split; [reflexivity|].
  intros sz lo hi c1 El. rewrite El in H.
  pose proof (forall_bytes (sound2 c0 sz lo hi) H c1) as H1.
  unfold sound2 in H1.
  destruct (soundOn [c0; c1]); [|discriminate H1]. split; [reflexivity|].
  intros E1 Esz2 c2. rewrite E1, Esz2 in H1.
  exact (forall_bytes (sound3 c0 c1) H1 c2).
Qed.

Lemma fourBytes_high (c0 c1 : ascii) (sz : nat) (lo hi : Z) :
  leadByte (byteVal c0) = Some (sz, lo, hi) -> (sz <=? 3)%nat = false ->
  (byteVal c1 <? lo) || (hi <? byteVal c1) = false ->
  65536 <= Z.lor (Z.shiftl (Z.land (byteVal c0) 7) 18)
                 (Z.shiftl (Z.land (byteVal c1) 63) 12).
Proof.
  intros El Esz3 E1.
  pose proof (forall_bytes high1 high1_holds c0) as H.
  unfold high1 in H. rewrite El, Esz3 in H.
  pose proof (forall_bytes (high2 c0 lo hi) H c1) as H1.
  unfold high2 in H1. rewrite E1 in H1. apply Z.leb_le, H1.
Qed.

Lemma lor_ge_l (a b : Z) : 0 <= a -> 0 <= b -> a <= Z.lor a b.
Proof.
  intros Ha Hb. pose proof (Z.add_lor_land a b) as Hsum.
  assert (Hland : Z.land a b <= b).
  { rewrite <- (Z2N.id a), <- (Z2N.id b) at 1 by assumption.
    rewrite <- N2Z.inj_land. rewrite <- (Z2N.id b) at 2 by assumption.
    apply N2Z.inj_le, N.land_le_r. }
  lia.
Qed.

Lemma IsSpace_high (r : Z) : 12288 < r -> IsSpace r = false.
Proof.
  intros Hr. unfold IsSpace.
  repeat match goal with
         | |- context [?x <=? ?y] => destruct (Z.leb_spec x y); try lia
         | |- context [?x =? ?y] => destruct (Z.eqb_spec x y); try lia
         end; reflexivity.
Qed.

Lemma byteVal_nonneg (c : ascii) : 0 <= byteVal c.
Proof. unfold byteVal. lia. Qed.

Lemma DecodeRune_space (p : list ascii) (r : Z) (n : nat) :
  DecodeRune p = (r, n) -> IsSpace r = true -> take n p ∈ spaceEncodings.
Proof.
  intros Hdec Hsp.
  assert (Herr : forall k, (RuneError, k) = (r, n) -> False).
  { intros k [= <- _]. discriminate Hsp. }
  assert (Hon : forall q, soundOn q = true -> DecodeRune q = (r, n) ->
                          take n q ∈ spaceEncodings).
  { intros q Hq Hd. unfold soundOn in Hq. rewrite Hd, Hsp in Hq.
    apply bool_decide_eq_true_1 in Hq. exact Hq. }
  destruct p as [|c0 p1]; [exfalso; exact (Herr _ Hdec)|].
  destruct (soundOn_levels c0) as [S0 Hnext].
  unfold DecodeRune in Hdec.
  destruct (byteVal c0 <? 128) eqn:E0.
  { injection Hdec as <- <-.
    apply (Hon [c0] S0). unfold DecodeRune. rewrite E0. reflexivity. }
  destruct (leadByte (byteVal c0)) as [[[sz lo] hi]|] eqn:El;
    [|exfalso; exact (Herr _ Hdec)].
  destruct p1 as [|c1 p2]; [exfalso; exact (Herr _ Hdec)|].
  destruct (Hnext sz lo hi c1 eq_refl) as [S1 Hnext2].
  destruct ((byteVal c1 <? lo) || (hi <? byteVal c1)) eqn:E1;
    [exfalso; exact (Herr _ Hdec)|].
  destruct (sz <=? 2)%nat eqn:Esz2.
  { injection Hdec as <- <-.
    apply (Hon [c0; c1] S1). unfold DecodeRune. rewrite E0, El, E1, Esz2.
    reflexivity. }
  destruct p2 as [|c2 p3]; [exfalso; exact (Herr _ Hdec)|].
  destruct (negb (continuation (byteVal c2))) eqn:E2;
    [exfalso; exact (Herr _ Hdec)|].
  destruct (sz <=? 3)%nat eqn:Esz3.
  { injection Hdec as <- <-.
    apply (Hon [c0; c1; c2] (Hnext2 eq_refl eq_refl c2)). unfold DecodeRune.
    rewrite E0, El, E1, Esz2, E2, Esz3. reflexivity. }
  destruct p3 as [|c3 p4]; [exfalso; exact (Herr _ Hdec)|].
  destruct (negb (continuation (byteVal c3)));
    [exfalso; exact (Herr _ Hdec)|].
  injection Hdec as <- <-. exfalso.
  pose proof (fourBytes_high c0 c1 sz lo hi El Esz3 E1) as F1.
  pose proof (byteVal_nonneg c0). pose proof (byteVal_nonneg c1).
  pose proof (byteVal_nonneg c2). pose proof (byteVal_nonneg c3).
  set (ab := Z.lor (Z.shiftl (Z.land (byteVal c0) 7) 18)
                   (Z.shiftl (Z.land (byteVal c1) 63) 12)) in *.
  set (c := Z.shiftl (Z.land (byteVal c2) 63) 6) in *.
  set (d := Z.land (byteVal c3) 63) in *.
  assert (Hc : 0 <= c)
    by (apply Z.shiftl_nonneg, Z.land_nonneg; right; lia).
  assert (Hd : 0 <= d) by (apply Z.land_nonneg; right; lia).
  pose proof (lor_ge_l ab c ltac:(lia) Hc) as H1c.
  pose proof (lor_ge_l (Z.lor ab c) d ltac:(lia) Hd) as H2d.
  rewrite (IsSpace_high (Z.lor (Z.lor ab c) d)) in Hsp by lia.
  discriminate Hsp.
Qed.

Lemma DecodeRune_encoding (e q : list ascii) :
  e ∈ spaceEncodings ->
  IsSpace (DecodeRune (e ++ q)).1 = true
  /\ (DecodeRune (e ++ q)).2 = length e.
Proof. intros H. space_cases H; split; vm_compute; reflexivity. Qed.

Lemma DecodeLastRune_encoding (e q : list ascii) :
  e ∈ spaceEncodings ->
  IsSpace (DecodeLastRune (rev e ++ q)).1 = true
  /\ (DecodeLastRune (rev e ++ q)).2 = length e.
Proof. intros H. space_cases H; split; vm_compute; reflexivity. Qed.

Lemma DecodeLastRune_space (p : list ascii) (r : Z) (n : nat) :
  DecodeLastRune p = (r, n) -> IsSpace r = true ->
  take n p ∈ (@rev ascii <$> spaceEncodings).
Proof.
  intros Hdec Hsp.
  assert (Herr : forall k, (RuneError, k) = (r, n) -> False).
  { intros k [= <- _]. discriminate Hsp. }
  assert (Hend : forall bytes q,
            (let '(r0, size) := DecodeRune bytes in
             if (size =? length bytes)%nat then (r0, size)
             else (RuneError, 1%nat)) = (r, n) ->
            take n (rev bytes ++ q) ∈ (@rev ascii <$> spaceEncodings)).
  { intros bytes q Hb. destruct (DecodeRune bytes) as [r0 size] eqn:Hd.
    destruct (Nat.eqb_spec size (length bytes)) as [Hlen|_];
      [|exfalso; exact (Herr _ Hb)].
    injection Hb as -> ->.
    pose proof (DecodeRune_space bytes r n Hd Hsp) as Hin.
    rewrite Hlen, firstn_all in Hin.
    rewrite Hlen, <- length_rev, take_app_length.
    apply list_elem_of_fmap_2, Hin. }
  unfold DecodeLastRune in Hdec.
  destruct p as [|c0 before]; [exfalso; exact (Herr _ Hdec)|].
  destruct (byteVal c0 <? 128) eqn:E0.
  { injection Hdec as <- <-.
    assert (Hd : DecodeRune [c0] = (byteVal c0, 1%nat))
      by (unfold DecodeRune; rewrite E0; reflexivity).
    pose proof (DecodeRune_space [c0] _ _ Hd Hsp) as Hin.
    apply (list_elem_of_fmap_2 (@rev ascii)) in Hin. exact Hin. }
  destruct before as [|c1 before1]; [exfalso; exact (Herr _ Hdec)|].
  destruct (RuneStart (byteVal c1)).
  { exact (Hend [c1; c0] before1 Hdec). }
  destruct before1 as [|c2 before2]; [exfalso; exact (Herr _ Hdec)|].
  destruct (RuneStart (byteVal c2)).
  { exact (Hend [c2; c1; c0] before2 Hdec). }
  destruct before2 as [|c3 before3]; [exfalso; exact (Herr _ Hdec)|].
  destruct (RuneStart (byteVal c3)); [|exfalso; exact (Herr _ Hdec)].
  exact (Hend [c3; c2; c1; c0] before3 Hdec).
Qed.

Lemma concatOf_app (T : list (list ascii)) (p q : list ascii) :
  concatOf T p -> concatOf T q -> concatOf T (p ++ q).
Proof.
  induction 1 as [|e p He Hp IH]; intros Hq; [exact Hq|].
  rewrite <- app_assoc. apply concatOf_cons; [exact He | apply IH, Hq].
Qed.

Lemma concatOf_rev (T : list (list ascii)) (p : list ascii) :
  concatOf (@rev ascii <$> T) p -> concatOf T (rev p).
Proof.
  induction 1 as [|e p He Hp IH]; [constructor|].
  apply list_elem_of_fmap in He as (e0 & -> & He0).
  rewrite rev_app_distr, rev_involutive.
  apply concatOf_app; [exact IH|].
  rewrite <- (app_nil_r e0). apply concatOf_cons; [exact He0 | constructor].
Qed.

(** The loop drops the longest run of tokens at the front. *)
Lemma dropSpaces_spec (decode : list ascii -> Z * nat) (T : list (list ascii)) :
  [] ∉ T ->
  (forall p r n, decode p = (r, n) -> IsSpace r = true -> take n p ∈ T) ->
  (forall e q, e ∈ T ->
     IsSpace (decode (e ++ q)).1 = true /\ (decode (e ++ q)).2 = length e) ->
  forall fuel p, (length p <= fuel)%nat ->
  exists pre,
    concatOf T pre
    /\ p = pre ++ dropSpaces decode fuel p
    /\ forall e, e ∈ T -> ~ e `prefix_of` dropSpaces decode fuel p.
Proof.
  intros Hne Hsound Hcomplete. induction fuel as [|fuel IH]; intros p Hlen.
  - exists []. split; [constructor|]. split; [reflexivity|].
    intros e He [q Hq]. cbn [dropSpaces] in Hq.
    destruct p; [|cbn in Hlen; lia].
    destruct e; [exact (Hne He) | discriminate Hq].
  - cbn [dropSpaces]. destruct (decode p) as [r n] eqn:Hd.
    destruct ((0 <? n)%nat && IsSpace r) eqn:Hgo.
    + apply andb_true_iff in Hgo as [Hn Hsp]. apply Nat.ltb_lt in Hn.
      pose proof (Hsound p r n Hd Hsp) as Hin.
      destruct (IH (drop n p)) as (pre & Hpre & Heq & Hno).
      { rewrite length_drop. destruct p; cbn in *; lia. }
      exists (take n p ++ pre). split; [apply concatOf_cons; assumption|].
      split; [|exact Hno].
      rewrite <- app_assoc, <- Heq, take_drop. reflexivity.
    + exists []. split; [constructor|]. split; [reflexivity|].
      intros e He [q ->]. destruct (Hcomplete e q He) as [Hsp Hsz].
      rewrite Hd in Hsp, Hsz. cbn [fst snd] in Hsp, Hsz.
      rewrite Hsp, andb_true_r in Hgo. apply Nat.ltb_ge in Hgo.
      destruct e; [exact (Hne He) | cbn in Hsz; lia].
Qed.

Lemma spaceEncodings_nonempty : [] ∉ spaceEncodings.
Proof.
  intros H. apply list_elem_of_In in H. vm_compute in H.
  repeat (destruct H as [H|H]; [discriminate H|]). exact H.
Qed.

Lemma TrimLeftSpace_spec (p : list ascii) :
  exists pre,
    whiteSpace pre /\ p = pre ++ TrimLeftSpace p
    /\ forall e, e ∈ spaceEncodings -> ~ e `prefix_of` TrimLeftSpace p.
Proof.
  apply (dropSpaces_spec DecodeRune spaceEncodings spaceEncodings_nonempty
           DecodeRune_space DecodeRune_encoding (length p) p). lia.
Qed.

Lemma TrimRightSpace_spec (p : list ascii) :
  exists suf,
    whiteSpace suf /\ p = TrimRightSpace p ++ suf
    /\ forall e, e ∈ spaceEncodings -> ~ e `suffix_of` TrimRightSpace p.
Proof.
  destruct (dropSpaces_spec DecodeLastRune (@rev ascii <$> spaceEncodings))
    with (fuel := length p) (p := rev p) as (pre & Hpre & Heq & Hno).
  - intros H. apply list_elem_of_fmap in H as (e & He & Hin).
    apply spaceEncodings_nonempty. destruct e; [exact Hin|].
    cbn in He. destruct (rev e); discriminate He.
  - exact DecodeLastRune_space.
  - intros e q H. apply list_elem_of_fmap in H as (e0 & -> & He0).
    rewrite length_rev. apply DecodeLastRune_encoding, He0.
  - rewrite length_rev. lia.
  - exists (rev pre). split; [apply concatOf_rev, Hpre|]. split.
    + unfold TrimRightSpace. rewrite <- rev_app_distr, <- Heq.
      symmetry. apply rev_involutive.
    + intros e He [q Hq]. apply (Hno (rev e)).
      * apply list_elem_of_fmap_2, He.
      * exists (rev q). unfold TrimRightSpace in Hq.
        apply (f_equal (@rev ascii)) in Hq.
        rewrite rev_involutive, rev_app_distr in Hq. exact Hq.
Qed.

(** [TrimSpace] removes white space at both ends, all of it and nothing
    else. *)
Lemma TrimSpace_isTrimOf (s : string) : isTrimOf s (TrimSpace s).
Proof.
  unfold isTrimOf, TrimSpace. rewrite list_ascii_of_string_of_list_ascii.
  destruct (TrimLeftSpace_spec (list_ascii_of_string s))
    as (pre & Hpre & Hl & Hnl).
  destruct (TrimRightSpace_spec (TrimLeftSpace (list_ascii_of_string s)))
    as (suf & Hsuf & Hr & Hnr).
  split.
  - intros e He. split; [|apply Hnr, He].
    intros [q Hq]. apply (Hnl e He). exists (q ++ suf).
    rewrite Hr at 1. rewrite Hq, <- app_assoc. reflexivity.
  - exists pre, suf. split; [exact Hpre|]. split; [exact Hsuf|].
    rewrite <- Hr. exact Hl.
Qed.

(** [parseResponseLine]: the line without the white space at its ends,
    and, when that begins with the prompt marker, without the marker and
    the white space that follows it. *)
Lemma parseResponseLine_spec (line : string) :
  exists t,
    isTrimOf line t
    /\ if HasPrefix t ">>> "
       then isTrimOf (sliceFrom 4 t) (parseResponseLine line)
       else parseResponseLine line = t.
Proof.
  exists (TrimSpace line). split; [apply TrimSpace_isTrimOf|].
  unfold parseResponseLine. cbv zeta.
  destruct (HasPrefix (TrimSpace line) ">>> ");
    [apply TrimSpace_isTrimOf | reflexivity].
Qed.

(** With fuel enough, the loop does not depend on the fuel. *)
Lemma dropSpaces_fuel (decode : list ascii -> Z * nat) (T : list (list ascii)) :
  [] ∉ T ->
  (forall p r n, decode p = (r, n) -> IsSpace r = true -> take n p ∈ T) ->
  forall f1 f2 p, (length p <= f1)%nat -> (length p <= f2)%nat ->
  dropSpaces decode f1 p = dropSpaces decode f2 p.
Proof.
  intros Hne Hsound. induction f1 as [|f1 IH]; intros f2 p H1 H2.
  - destruct p; [|cbn in H1; lia].
    destruct f2 as [|f2]; [reflexivity|]. cbn [dropSpaces].
    destruct (decode []) as [r n] eqn:Hd.
    destruct ((0 <? n)%nat && IsSpace r) eqn:Hgo; [|reflexivity].
    apply andb_true_iff in Hgo as [_ Hsp].
    pose proof (Hsound [] r n Hd Hsp) as Hin. rewrite take_nil in Hin.
    destruct (Hne Hin).
  - destruct f2 as [|f2].
    + destruct p; [|cbn in H2; lia]. cbn [dropSpaces].
      destruct (decode []) as [r n] eqn:Hd.
      destruct ((0 <? n)%nat && IsSpace r) eqn:Hgo; [|reflexivity].
      apply andb_true_iff in Hgo as [_ Hsp].
      pose proof (Hsound [] r n Hd Hsp) as Hin. rewrite take_nil in Hin.
      destruct (Hne Hin).
    + cbn [dropSpaces]. destruct (decode p) as [r n] eqn:Hd.
      destruct ((0 <? n)%nat && IsSpace r) eqn:Hgo; [|reflexivity].
      apply andb_true_iff in Hgo as [Hn _]. apply Nat.ltb_lt in Hn.
      apply IH; rewrite length_drop; destruct p; cbn in *; lia.
Qed.

(** White space in front is dropped. *)
Lemma dropSpaces_tokens (decode : list ascii -> Z * nat) (T : list (list ascii)) :
  [] ∉ T ->
  (forall p r n, decode p = (r, n) -> IsSpace r = true -> take n p ∈ T) ->
  (forall e q, e ∈ T ->
     IsSpace (decode (e ++ q)).1 = true /\ (decode (e ++ q)).2 = length e) ->
  forall pre q, concatOf T pre ->
  dropSpaces decode (length (pre ++ q)) (pre ++ q)
  = dropSpaces decode (length q) q.
Proof.
  intros Hne Hsound Hcomplete pre q Hpre.
  induction Hpre as [|e p He Hp IH]; [reflexivity|].
  rewrite <- IH, <- app_assoc.
  destruct (Hcomplete e (p ++ q) He) as [Hsp Hsz].
  destruct e as [|c e]; [destruct (Hne He)|].
  cbn [app length dropSpaces]. cbn [app] in Hsp, Hsz.
  destruct (decode (c :: e ++ p ++ q)) as [r n]. cbn [fst snd] in Hsp, Hsz.
  subst n. rewrite Hsp. cbn [length Nat.ltb Nat.leb andb drop].
  rewrite drop_app_length.
  apply (dropSpaces_fuel decode T Hne Hsound); rewrite !length_app; lia.
Qed.

Lemma rev_encodings_nonempty : [] ∉ (@rev ascii <$> spaceEncodings).
Proof.
  intros H. apply list_elem_of_fmap in H as (e & He & Hin).
  apply spaceEncodings_nonempty. destruct e; [exact Hin|].
  cbn in He. destruct (rev e); discriminate He.
Qed.

Lemma DecodeLastRune_rev_encoding (e q : list ascii) :
  e ∈ (@rev ascii <$> spaceEncodings) ->
  IsSpace (DecodeLastRune (e ++ q)).1 = true
  /\ (DecodeLastRune (e ++ q)).2 = length e.
Proof.
  intros H. apply list_elem_of_fmap in H as (e0 & -> & He0).
  rewrite length_rev. apply DecodeLastRune_encoding, He0.
Qed.

Lemma concatOf_rev' (T : list (list ascii)) (p : list ascii) :
  concatOf T p -> concatOf (@rev ascii <$> T) (rev p).
Proof.
  induction 1 as [|e p He Hp IH]; [constructor|].
  rewrite rev_app_distr. apply concatOf_app; [exact IH|].
  rewrite <- (app_nil_r (rev e)).
  apply concatOf_cons; [apply list_elem_of_fmap_2, He | constructor].
Qed.

(** White space around a text whose first and last byte are ASCII and no
    space is trimmed away, and the text is left. *)
Lemma TrimSpace_padded (pre suf : list ascii) (first last : ascii)
    (middle : list ascii) (s : string) :
  whiteSpace pre -> whiteSpace suf ->
  (byteVal first <? 128) = true -> IsSpace (byteVal first) = false ->
  (byteVal last <? 128) = true -> IsSpace (byteVal last) = false ->
  list_ascii_of_string s = pre ++ (first :: middle ++ [last]) ++ suf ->
  TrimSpace s = string_of_list_ascii (first :: middle ++ [last]).
Proof.
  intros Hpre Hsuf Hf1 Hf2 Hl1 Hl2 Hs. unfold TrimSpace. rewrite Hs. f_equal.
  set (t := first :: middle ++ [last]).
  assert (Hleft : TrimLeftSpace (pre ++ t ++ suf) = t ++ suf).
  { unfold TrimLeftSpace.
    rewrite (dropSpaces_tokens DecodeRune spaceEncodings
               spaceEncodings_nonempty DecodeRune_space DecodeRune_encoding
               pre (t ++ suf) Hpre).
    subst t. cbn [app length dropSpaces DecodeRune].
    rewrite Hf1, Hf2. reflexivity. }
  rewrite Hleft. unfold TrimRightSpace.
  assert (Hrev : rev (t ++ suf) = rev suf ++ rev t) by apply rev_app_distr.
  assert (Hlen : length (t ++ suf) = length (rev suf ++ rev t))
    by (rewrite <- Hrev, length_rev; reflexivity).
  rewrite Hlen, Hrev.
  rewrite (dropSpaces_tokens DecodeLastRune (@rev ascii <$> spaceEncodings)
             rev_encodings_nonempty DecodeLastRune_space
             DecodeLastRune_rev_encoding (rev suf) (rev t)
             (concatOf_rev' _ _ Hsuf)).
  assert (Hrt : rev t = last :: rev (first :: middle)).
  { subst t. rewrite app_comm_cons, rev_app_distr. reflexivity. }
  rewrite Hrt. cbn [length dropSpaces DecodeLastRune].
  rewrite Hl1, Hl2. cbn [andb Nat.ltb Nat.leb].
  rewrite <- Hrt. apply rev_involutive.
Qed.

(** The trimmed response is ["1"] exactly when the response is ["1"] with
    white space around it. *)
Lemma TrimSpace_is_one (resp : string) :
  streq (TrimSpace resp) "1" = true
  <-> exists pre suf,
        whiteSpace pre /\ whiteSpace suf
        /\ list_ascii_of_string resp = pre ++ "1"%char :: suf.
Proof.
  rewrite streq_true. split.
  - intros Hone. destruct (TrimSpace_isTrimOf resp) as [_ (pre & suf & Hp & Hs & Heq)].
    rewrite Hone in Heq. exists pre, suf. split; [exact Hp|]. split; [exact Hs|].
    exact Heq.
  - intros (pre & suf & Hp & Hs & Heq).
    assert (Hone : forall p, whiteSpace p ->
              TrimLeftSpace (p ++ "1"%char :: suf) = "1"%char :: suf).
    { intros p Hpw. unfold TrimLeftSpace.
      rewrite (dropSpaces_tokens DecodeRune spaceEncodings
                 spaceEncodings_nonempty DecodeRune_space DecodeRune_encoding
                 p ("1"%char :: suf) Hpw).
      reflexivity. }
    unfold TrimSpace. rewrite Heq, (Hone pre Hp). unfold TrimRightSpace.
    assert (Hrev : rev ("1"%char :: suf) = rev suf ++ ["1"%char])
      by reflexivity.
    assert (Hlen : length ("1"%char :: suf) = length (rev suf ++ ["1"%char]))
      by (rewrite <- Hrev, length_rev; reflexivity).
    rewrite Hlen, Hrev.
    rewrite (dropSpaces_tokens DecodeLastRune (@rev ascii <$> spaceEncodings)
               rev_encodings_nonempty DecodeLastRune_space
               DecodeLastRune_rev_encoding (rev suf) ["1"%char]
               (concatOf_rev' _ _ Hs)).
    reflexivity.
Qed.

(** Where no token is in front, the loop drops nothing. *)
Lemma dropSpaces_stop (decode : list ascii -> Z * nat) (T : list (list ascii)) :
  (forall p r n, decode p = (r, n) -> IsSpace r = true -> take n p ∈ T) ->
  forall fuel p, (forall e, e ∈ T -> ~ e `prefix_of` p) ->
  dropSpaces decode fuel p = p.
Proof.
  intros Hsound fuel p Hno. destruct fuel as [|fuel]; [reflexivity|].
  cbn [dropSpaces]. destruct (decode p) as [r n] eqn:Hd.
  destruct ((0 <? n)%nat && IsSpace r) eqn:Hgo; [|reflexivity].
  apply andb_true_iff in Hgo as [_ Hsp]. exfalso.
  apply (Hno (take n p) (Hsound p r n Hd Hsp)).
  exists (drop n p). symmetry. apply take_drop.
Qed.

(** An encoding starts with a byte that starts a rune and goes on with
    continuation bytes. *)
Lemma spaceEncodings_shape (e : list ascii) :
  e ∈ spaceEncodings ->
  exists c rest,
    e = c :: rest
    /\ continuation (byteVal c) = false
    /\ Forall (fun b => continuation (byteVal b) = true) rest.
Proof.
  intros H. space_cases H; eexists _, _; (split; [reflexivity|]);
    (split; [reflexivity|]); repeat constructor.
Qed.

Lemma no_encoding_in_front (t suf : list ascii) :
  trimmed t -> t <> [] -> whiteSpace suf ->
  forall e, e ∈ spaceEncodings -> ~ e `prefix_of` (t ++ suf).
Proof.
  intros Htrim Hne Hsuf e He [y Hy].
  apply app_eq_inv in Hy as [(k & Hk & _)|(k & -> & Hk)].
  - apply (proj1 (Htrim e He)). exists k. exact Hk.
  - (* the text is a proper part of the encoding *)
    destruct (spaceEncodings_shape _ He) as (c & rest & Hshape & _ & Hcont).
    destruct k as [|b k].
    { rewrite app_nil_r in He. apply (proj1 (Htrim t He)). reflexivity. }
    destruct t as [|c0 t]; [congruence|]. cbn [app] in Hshape.
    injection Hshape as -> <-.
    rewrite Forall_app, Forall_cons in Hcont. destruct Hcont as (_ & Hb & _).
    cbn [app] in Hk. rewrite Hk in Hsuf.
    inversion Hsuf as [|e' p He' Hp Heq].
    destruct (spaceEncodings_shape _ He') as (c' & rest' & -> & Hstart & _).
    cbn [app] in Heq. injection Heq as -> _. congruence.
Qed.

(** [TrimSpace] is determined by what it removes: whatever is the string
    without the white space at its two ends is what [TrimSpace] returns. *)
Lemma TrimSpace_unique (s t : string) : isTrimOf s t -> TrimSpace s = t.
Proof.
  intros [Htrim (pre & suf & Hpre & Hsuf & Heq)].
  rewrite <- (string_of_list_ascii_of_string t).
  unfold TrimSpace. rewrite Heq. f_equal.
  set (b := list_ascii_of_string t) in *. clearbody b.
  destruct (decide (b = [])) as [->|Hne].
  - cbn [app].
    assert (Hall : TrimLeftSpace (pre ++ suf) = []).
    { unfold TrimLeftSpace. rewrite <- (app_nil_r (pre ++ suf)).
      apply (dropSpaces_tokens DecodeRune spaceEncodings
               spaceEncodings_nonempty DecodeRune_space DecodeRune_encoding
               (pre ++ suf) []).
      apply concatOf_app; assumption. }
    rewrite Hall. reflexivity.
  - assert (Hleft : TrimLeftSpace (pre ++ b ++ suf) = b ++ suf).
    { unfold TrimLeftSpace.
      rewrite (dropSpaces_tokens DecodeRune spaceEncodings
                 spaceEncodings_nonempty DecodeRune_space DecodeRune_encoding
                 pre (b ++ suf) Hpre).
      apply (dropSpaces_stop DecodeRune spaceEncodings DecodeRune_space).
      apply no_encoding_in_front; assumption. }
    rewrite Hleft. unfold TrimRightSpace.
    assert (Hrev : rev (b ++ suf) = rev suf ++ rev b) by apply rev_app_distr.
    assert (Hlen : length (b ++ suf) = length (rev suf ++ rev b))
      by (rewrite <- Hrev, length_rev; reflexivity).
    rewrite Hlen, Hrev.
    rewrite (dropSpaces_tokens DecodeLastRune (@rev ascii <$> spaceEncodings)
               rev_encodings_nonempty DecodeLastRune_space
               DecodeLastRune_rev_encoding (rev suf) (rev b)
               (concatOf_rev' _ _ Hsuf)).
    rewrite (dropSpaces_stop DecodeLastRune (@rev ascii <$> spaceEncodings)
               DecodeLastRune_space).
    + apply rev_involutive.
    + intros e He [k Hk]. apply list_elem_of_fmap in He as (e0 & -> & He0).
      apply (proj2 (Htrim e0 He0)). exists (rev k).
      apply (f_equal (@rev ascii)) in Hk.
      rewrite rev_involutive, rev_app_distr, rev_involutive in Hk. exact Hk.
Qed.

(** [isTrimOf] says what [TrimSpace] computes, and nothing else. *)
Lemma isTrimOf_TrimSpace (s t : string) : isTrimOf s t <-> TrimSpace s = t.
Proof.
  split; [apply TrimSpace_unique|]. intros <-. apply TrimSpace_isTrimOf.
Qed.
Lemma twoPending_lookup (id : Z) (p : PendingCommand) :
  pendingCommands twoPending !! id = Some p ->
  (id = 3 /\ p = mkPending 3 "km.version()" 1 0)
  \/ (id = 7 /\ p = mkPending 7 "km.lock_ml()" 2 (400 * Millisecond)).
Proof.
  unfold twoPending. cbn [pendingCommands with_pendingCommands].
  intros H. apply lookup_insert_Some in H as [[<- <-]|[_ H]]; [left; done|].
  apply lookup_insert_Some in H as [[<- <-]|[_ H]]; [right; done|].
  rewrite lookup_empty in H. discriminate.
Qed.

Lemma twoPending_valid : validIDs twoPending.
Proof.
  intros id [p Hp]. destruct (twoPending_lookup id p Hp) as [[-> _]|[-> _]]; lia.
Qed.

Lemma twoPending_nonempty : pendingCommands twoPending <> ∅.
Proof.
  intros H. assert (Hl : pendingCommands twoPending !! 3 = None)
    by (rewrite H; apply lookup_empty).
  unfold twoPending in Hl. cbn [pendingCommands with_pendingCommands] in Hl.
  rewrite lookup_insert_eq in Hl. discriminate.
Qed.

Lemma twoPending_ids : [7; 3] ≡ₚ pendingIDs twoPending.
Proof.
  apply NoDup_Permutation.
  - apply NoDup_cons. split; [|apply NoDup_singleton].
    rewrite list_elem_of_singleton. lia.
  - unfold pendingIDs. apply NoDup_fst_map_to_list.
  - intros id. rewrite pendingIDs_elem. split.
    + intros Hin. apply elem_of_cons in Hin as [->|Hin];
        [|apply list_elem_of_singleton in Hin as ->];
        unfold twoPending; cbn [pendingCommands with_pendingCommands].
      * rewrite lookup_insert_ne, lookup_insert_eq by lia. eauto.
      * rewrite lookup_insert_eq. eauto.
    + intros [p Hp].
      destruct (twoPending_lookup id p Hp) as [[-> _]|[-> _]];
        rewrite !elem_of_cons; auto.
Qed.

Lemma twoPending_ids' : [3; 7] ≡ₚ pendingIDs twoPending.
Proof. rewrite <- twoPending_ids. apply Permutation_swap. Qed.

(** With ids 3 and 7 pending, a line tagged with id 7 resolves id 3. *)
Lemma C1_witness :
  processPendingCommandsIn [7; 3] "OK#7" twoPending
  = resolved 3 (mkPending 3 "km.version()" 1 0) "OK#7" twoPending.
Proof.
  destruct (C1_response_goes_to_lowest_pending_id twoPending [7; 3]
              twoPending_ids twoPending_valid) as [_ H].
  destruct (H twoPending_nonempty) as (lo & p & Hp & Hmin & Hres).
  assert (Hlo : lo <= 3).
  { apply Hmin. unfold twoPending. cbn [pendingCommands with_pendingCommands].
    rewrite lookup_insert_eq. eauto. }
  destruct (twoPending_lookup lo p Hp) as [[-> ->]|[-> _]]; [|lia].
  apply (Hres "OK#7"%string); discriminate.
Defined.

(** C5. With at least one command pending, a line equal to the text of the
    lowest-id pending command changes nothing: the table and every result
    channel are as before, and that command is still pending. The next line
    handed to the correlator (it hands over non-empty lines only) that
    differs from that text resolves that same command, whatever the
    iteration order of either call: the line is in the command's result
    channel (unless the channel held a value already, which it keeps), the
    command's entry is gone from the table, and every other entry and
    every other channel is as before. *)
Theorem C5_echo_leaves_command_pending
    (s : SerialTransport) (ids ids' : list Z) :
  ids ≡ₚ pendingIDs s -> ids' ≡ₚ pendingIDs s -> validIDs s ->
  pendingCommands s <> ∅ ->
  exists lo p,
    pendingCommands s !! lo = Some p
    /\ (forall id, is_Some (pendingCommands s !! id) -> lo <= id)
    /\ processPendingCommandsIn ids (Command p) s = s
    /\ pendingCommands (processPendingCommandsIn ids (Command p) s) !! lo
       = Some p
    /\ resultChans (processPendingCommandsIn ids (Command p) s)
       = resultChans s
    /\ forall c, c <> EmptyString -> c <> Command p ->
         let s' := processPendingCommandsIn ids' c
                     (processPendingCommandsIn ids (Command p) s) in
         resultChans s' !! ResultCh p
         = Some (default c (resultChans s !! ResultCh p))
         /\ (resultChans s !! ResultCh p = None ->
             resultChans s' !! ResultCh p = Some c)
         /\ pendingCommands s' !! lo = None
         /\ (forall id, id <> lo ->
               pendingCommands s' !! id = pendingCommands s !! id)
         /\ (forall ch, ch <> ResultCh p ->
               resultChans s' !! ch = resultChans s !! ch)
         /\ s' = resolved lo p c s.
Proof.
  intros Hperm Hperm' Hvalid Hne.
  destruct (findOldest_is_key s ids Hperm Hvalid Hne) as (p & Hp & Hmin).
  exists (findOldest ids), p. split; [exact Hp|]. split; [exact Hmin|].
  rewrite (processPendingCommandsIn_echo ids s p Hp). split; [reflexivity|].
  split; [exact Hp|]. split; [reflexivity|].
  intros c Hc Hecho s'. subst s'.
  rewrite (findOldest_order s ids ids' Hperm Hperm' Hvalid Hne) in Hp |- *.
  rewrite (processPendingCommandsIn_resolve ids' c s p Hp Hc Hecho).
  assert (Hslot : resultChans (resolved (findOldest ids') p c s) !! ResultCh p
                  = Some (default c (resultChans s !! ResultCh p)))
    by apply chanSend_lookup.
  split; [exact Hslot|]. split; [intros Hfree; rewrite Hslot, Hfree; reflexivity|].
  split; [apply lookup_delete_eq|]. split; [|split; [|reflexivity]].
  - intros id Hid. apply lookup_delete_ne. congruence.
  - intros ch Hch. apply chanSend_lookup_ne, Hch.
Qed.

(** With ids 3 and 7 pending, the echo of command 3 is ignored and the
    next line lands in the channel of command 3, which leaves the table. *)
Lemma C5_witness :
  processPendingCommandsIn [7; 3] "km.version()" twoPending = twoPending
  /\ (let s' := processPendingCommandsIn [3; 7] "3.2"
                  (processPendingCommandsIn [7; 3] "km.version()" twoPending) in
      resultChans s' !! 1%nat = Some "3.2"%string
      /\ pendingCommands s' !! 3 = None).
Proof.
  destruct (C5_echo_leaves_command_pending twoPending [7; 3] [3; 7]
              twoPending_ids twoPending_ids' twoPending_valid
              twoPending_nonempty)
    as (lo & p & Hp & Hmin & Hecho & _ & _ & Hnext).
  assert (Hlo : lo <= 3).
  { apply Hmin. unfold twoPending. cbn [pendingCommands with_pendingCommands].
    rewrite lookup_insert_eq. eauto. }
  destruct (twoPending_lookup lo p Hp) as [[-> ->]|[-> _]]; [|lia].
  split; [exact Hecho|].
  destruct (Hnext "3.2"%string ltac:(discriminate) ltac:(discriminate))
    as (_ & Hslot & Hgone & _).
  split; [apply Hslot; reflexivity | exact Hgone].
Defined.
(** ** The command correlator: sending *)




(** C8. While connected, [SendCommand] with [expectResponse] false hands
    the command text followed by CR LF to the channel's [Write] and returns
    without entering the [select]: the command text itself when the write
    succeeds, the write's error otherwise. The only change to the transport
    is that one write call; the pending table and the id counter are as
    before. *)
Theorem C8_fire_and_forget_keeps_table
    (command : string) (timeout : Z) (env : SendEnv) (s : SerialTransport) :
  isConnected s = true -> serialPort s <> None ->
  exists result err,
    SendCommand command false timeout env s
    = (Returned result err, emit (IOWrite (command +:+ CRLF)) s)
    /\ (err = None -> result = command)
    /\ (serialPort s = Some PortOpen -> writeErr env = None ->
        result = command /\ err = None)
    /\ io (SendCommand command false timeout env s).2
       = io s ++ [IOWrite (command +:+ CRLF)]
    /\ pendingCommands (SendCommand command false timeout env s).2
       = pendingCommands s
    /\ size (pendingCommands (SendCommand command false timeout env s).2)
       = size (pendingCommands s)
    /\ commandCounter (SendCommand command false timeout env s).2
       = commandCounter s.
Proof.
  intros Hconn Hport.
  assert (Hguard : negb (isConnected s) || bool_decide (serialPort s = None) = false).
  { rewrite Hconn. simpl. apply bool_decide_eq_false_2, Hport. }
  unfold SendCommand. rewrite Hguard. cbn [negb]. unfold portWrite.
  destruct (serialPort s) as [[|]|] eqn:Eport; [| |contradiction].
  - destruct (writeErr env) as [e|] eqn:Ew; cbn [fmap option_fmap option_map].
    + exists EmptyString, (Some (SerialError e)).
      repeat split; discriminate.
    + exists command, None. repeat split.
  - exists EmptyString, (Some (SerialError "port closed")).
    repeat split; try discriminate.
Qed.

Lemma C8_witness :
  SendCommand "km.move(5,-3)" false 0 (mkSendEnv None 0) twoPending
  = (Returned "km.move(5,-3)" None,
     emit (IOWrite ("km.move(5,-3)" +:+ CRLF)) twoPending)
  /\ pendingCommands
       (SendCommand "km.move(5,-3)" false 0 (mkSendEnv None 0) twoPending).2
     = pendingCommands twoPending.
Proof.
  destruct (C8_fire_and_forget_keeps_table "km.move(5,-3)" 0 (mkSendEnv None 0)
              twoPending eq_refl ltac:(discriminate))
    as (result & err & Heq & _ & Hok & _ & Hpend & _).
  destruct (Hok eq_refl eq_refl) as [-> ->].
  split; [exact Heq | exact Hpend].
Defined.

(** ** The command correlator: the result returned *)

Lemma cutAtHash_no_hash (t : string) : IndexHash t = None -> cutAtHash t = t.
Proof. unfold cutAtHash. intros ->. reflexivity. Qed.

Lemma IndexHash_app (body rest : string) :
  IndexHash body = None ->
  IndexHash (body +:+ String "#" rest) = Some (String.length body).
Proof.
  induction body as [|c body IH]; simpl; intros H.
  - reflexivity.
  - destruct (ascii_dec c "#"); [discriminate|].
    destruct (IndexHash body); [discriminate|].
    rewrite IH by reflexivity. reflexivity.
Qed.

Lemma sliceTo_app (body rest : string) :
  sliceTo (String.length body) (body +:+ rest) = body.
Proof. induction body as [|c body IH]; simpl; [destruct rest|]; congruence. Qed.

Lemma cutAtHash_app (body rest : string) :
  IndexHash body = None -> cutAtHash (body +:+ String "#" rest) = body.
Proof.
  intros H. unfold cutAtHash. rewrite (IndexHash_app body rest H).
  apply sliceTo_app.
Qed.

Lemma spec_strip_no_hash (t : string) :
  IndexHash t = None -> spec_stripIdSuffix t = t.
Proof.
  induction t as [|c t IH]; simpl; intros H; [reflexivity|].
  destruct (ascii_dec c "#") as [->|Hc]; [discriminate|].
  rewrite (bool_decide_eq_false_2 _ Hc). simpl.
  destruct (IndexHash t); [discriminate|]. rewrite IH by reflexivity. reflexivity.
Qed.

Lemma spec_strip_sfx (body sfx : string) :
  IndexHash body = None -> isIdSuffix sfx = true ->
  spec_stripIdSuffix (body +:+ sfx) = body.
Proof.
  intros Hbody Hsuf. induction body as [|c body IH].
  - change (EmptyString +:+ sfx) with sfx.
    destruct sfx as [|a r]; [discriminate|].
    cbn [spec_stripIdSuffix]. rewrite Hsuf. reflexivity.
  - simpl in Hbody. destruct (ascii_dec c "#") as [->|Hc]; [discriminate|].
    destruct (IndexHash body); [discriminate|].
    change (String c body +:+ sfx) with (String c (body +:+ sfx)).
    cbn [spec_stripIdSuffix].
    assert (Hno : isIdSuffix (String c (body +:+ sfx)) = false).
    { unfold isIdSuffix. rewrite (bool_decide_eq_false_2 _ Hc). reflexivity. }
    rewrite Hno, IH by reflexivity. reflexivity.
Qed.

(** C2 (as amended). When the result channel of a waiting command holds a
    text [t], the result case of the [select] returns, with no error, [t]
    cut at its first ["#"]: the part of [t] before that character, and [t]
    itself when it contains none. Hence a text whose only ["#"] starts a
    trailing correlation-id suffix is returned with exactly that suffix
    removed, as the specification words it. *)
Theorem C2_result_is_cut_at_first_hash
    (w : Waiter) (s : SerialTransport) (t : string) :
  resultChans s !! waitCh w = Some t ->
  SendCommand_select CaseResult w s
  = Some ((cutAtHash t, None),
          with_resultChans (delete (waitCh w) (resultChans s)) s)
  /\ (IndexHash t = None -> cutAtHash t = t /\ spec_stripIdSuffix t = t)
  /\ (forall body rest, IndexHash body = None ->
        t = body +:+ String "#" rest -> cutAtHash t = body)
  /\ (forall body sfx, IndexHash body = None -> isIdSuffix sfx = true ->
        t = body +:+ sfx -> cutAtHash t = spec_stripIdSuffix t).
Proof.
  intros Hch. split; [|split; [|split]].
  - unfold SendCommand_select. rewrite Hch. reflexivity.
  - intros Hno. split; [apply cutAtHash_no_hash | apply spec_strip_no_hash]; exact Hno.
  - intros body rest Hbody ->. apply cutAtHash_app, Hbody.
  - intros body sfx Hbody Hsuf ->.
    rewrite (spec_strip_sfx body sfx Hbody Hsuf).
    destruct sfx as [|c rest]; [discriminate|].
    assert (c = "#"%char) as ->.
    { unfold isIdSuffix in Hsuf. apply andb_true_iff in Hsuf as [Hsuf _].
      apply andb_true_iff in Hsuf as [Hsuf _].
      apply bool_decide_eq_true in Hsuf. exact Hsuf. }
    apply cutAtHash_app, Hbody.
Qed.

Lemma C2_witness :
  SendCommand_select CaseResult (mkWaiter 3 "km.version()" 1 DefaultTimeout 0)
    (with_resultChans {[1%nat := "3.2#3"%string]} connected)
  = Some (("3.2"%string, None),
          with_resultChans (delete 1%nat {[1%nat := "3.2#3"%string]})
            (with_resultChans {[1%nat := "3.2#3"%string]} connected)).
Proof.
  destruct (C2_result_is_cut_at_first_hash
              (mkWaiter 3 "km.version()" 1 DefaultTimeout 0)
              (with_resultChans {[1%nat := "3.2#3"%string]} connected)
              "3.2#3" (lookup_singleton_eq _ _)) as (Hsel & _).
  exact Hsel.
Defined.

(** C2, as stated, fails: a command is sent, the line ["v#2#1"] is routed
    to it, and the caller receives ["v"], whereas removing only the
    trailing correlation-id suffix leaves ["v#2"]; likewise the line
    ["a#b"], which carries no correlation-id suffix, does not come back
    unchanged. *)
Lemma C2_counterexample :
  exists w s1,
    SendCommand "km.version()" true 0 (mkSendEnv None 0) connected
    = (Blocked w, s1)
    /\ fst <$> SendCommand_select CaseResult w (processPendingCommands "v#2#1" s1)
       = Some ("v"%string, None)
    /\ fst <$> SendCommand_select CaseResult w (processPendingCommands "v#2#1" s1)
       <> Some (spec_stripIdSuffix "v#2#1", None)
    /\ spec_hasIdSuffix "a#b" = false
    /\ fst <$> SendCommand_select CaseResult w (processPendingCommands "a#b" s1)
       <> Some ("a#b"%string, None).
Proof.
  eexists _, _. split; [reflexivity|].
  repeat split; try (vm_compute; reflexivity); vm_compute; discriminate.
Qed.

(** ** The command correlator: cleanup *)

Lemma cleanup_fold_sub (now : Z) (entries : list (Z * PendingCommand))
    (m : gmap Z PendingCommand) (id : Z) (p : PendingCommand) :
  fold_left (cleanupEntry now) entries m !! id = Some p -> m !! id = Some p.
Proof.
  revert m. induction entries as [|e entries IH]; intros m; simpl; [done|].
  intros H%IH. unfold cleanupEntry in H.
  destruct (now - Timestamp e.2 >? Second); [|exact H].
  apply lookup_delete_Some in H as [_ H]. exact H.
Qed.

Lemma cleanup_fold_keep (now : Z) (entries : list (Z * PendingCommand))
    (m : gmap Z PendingCommand) (id : Z) :
  (forall e, e ∈ entries -> e.1 = id -> now - Timestamp e.2 <= Second) ->
  fold_left (cleanupEntry now) entries m !! id = m !! id.
Proof.
  revert m. induction entries as [|e entries IH]; intros m Hkeep; simpl; [done|].
  rewrite IH by (intros e' He'; apply Hkeep; right; exact He').
  unfold cleanupEntry. destruct (Z.gtb_spec (now - Timestamp e.2) Second) as [Hgt|]; [|done].
  apply lookup_delete_ne. intros Heq.
  specialize (Hkeep e (list_elem_of_here _ _) Heq). lia.
Qed.

Lemma cleanup_fold_drop (now : Z) (entries : list (Z * PendingCommand))
    (m : gmap Z PendingCommand) (e : Z * PendingCommand) :
  e ∈ entries -> now - Timestamp e.2 > Second ->
  fold_left (cleanupEntry now) entries m !! e.1 = None.
Proof.
  revert m. induction entries as [|e' entries IH]; intros m Hin Hstale.
  - apply not_elem_of_nil in Hin. contradiction.
  - simpl. apply elem_of_cons in Hin as [<-|Hin]; [|apply IH; assumption].
    destruct (fold_left (cleanupEntry now) entries (cleanupEntry now m e) !! e.1)
      as [p|] eqn:E; [|reflexivity].
    apply cleanup_fold_sub in E. unfold cleanupEntry in E.
    destruct (Z.gtb_spec (now - Timestamp e.2) Second); [|lia].
    rewrite lookup_delete_eq in E. discriminate.
Qed.

(** What the sweep leaves in the table, whatever the order of iteration. *)
Lemma cleanup_lookup (entries : list (Z * PendingCommand)) (now : Z)
    (s : SerialTransport) (id : Z) :
  entries ≡ₚ map_to_list (pendingCommands s) ->
  pendingCommands (cleanupTimedOutCommandsIn entries now s) !! id
  = match pendingCommands s !! id with
    | Some p => if bool_decide (now - Timestamp p > Second) then None else Some p
    | None => None
    end.
Proof.
  intros Hperm. unfold cleanupTimedOutCommandsIn.
  cbn [pendingCommands with_pendingCommands].
  destruct (pendingCommands s !! id) as [p|] eqn:Hp.
  - case_bool_decide as Hstale.
    + apply (cleanup_fold_drop now entries _ (id, p)); [|exact Hstale].
      rewrite Hperm. apply elem_of_map_to_list. exact Hp.
    + rewrite cleanup_fold_keep; [exact Hp|].
      intros [k q] Hin Hk. simpl in Hk. subst k.
      rewrite Hperm in Hin. apply elem_of_map_to_list in Hin.
      simpl. rewrite Hin in Hp. injection Hp as ->. lia.
  - destruct (fold_left _ _ _ !! id) as [q|] eqn:E; [|reflexivity].
    apply cleanup_fold_sub in E. congruence.
Qed.

(** ** A channel whose entry is gone stays empty *)

Lemma portWrite_frame payload werr s :
  table (portWrite payload werr s).2 = table s.
Proof. unfold portWrite. destruct (serialPort s) as [[|]|]; reflexivity. Qed.

Lemma FindCOMPort_frame ports s :
  table (FindCOMPort ports s).2 = table s.
Proof.
  unfold FindCOMPort. destruct (overridePort s); [reflexivity|].
  destruct ports as [ps|]; [destruct (List.find isTarget ps)|];
    try destruct (negb _); reflexivity.
Qed.

Lemma changeBaudTo4M_frame env s :
  table (changeBaudTo4M env s).2 = table s.
Proof.
  unfold changeBaudTo4M. destruct (serialPort s) as [h|] eqn:Eport; [|reflexivity].
  pose proof (portWrite_frame baudChangeCommand (envBaudWriteErr env) s) as Hw.
  destruct (portWrite _ _ s) as [[err|] s1]; [exact Hw|].
  destruct (envSetModeOK env); exact Hw.
Qed.

Lemma writeInit_frame s : table (writeInit s) = table s.
Proof. unfold writeInit. destruct (sendInit s); reflexivity. Qed.

Lemma attemptReconnect_frame env s :
  table (attemptReconnect env s) = table s.
Proof.
  unfold attemptReconnect.
  destruct (maxReconnectAttempts <=? reconnectAttempts s); [reflexivity|].
  set (s3 := emit (IOSleep reconnectDelay) _).
  assert (H3 : table s3 = table s).
  { subst s3. cbn [serialPort with_reconnectAttempts].
    destruct (serialPort s); reflexivity. }
  pose proof (FindCOMPort_frame (envPorts env) s3) as HF.
  destruct (FindCOMPort (envPorts env) s3) as [[port err] s4].
  cbn [snd] in HF. rewrite H3 in HF. clear H3.
  destruct (bool_decide (err <> None) || streq port EmptyString); [exact HF|].
  destruct (negb (envOpenOK env)); [exact HF|].
  set (s5 := with_serialPort _ _).
  assert (H5 : table s5 = table s) by exact HF.
  pose proof (changeBaudTo4M_frame env s5) as HB. rewrite H5 in HB.
  destruct (changeBaudTo4M env s5) as [[e|] s6]; cbn [snd] in HB; [exact HB|].
  pose proof (writeInit_frame s6) as HW. rewrite HB in HW. exact HW.
Qed.

Lemma Connect_frame env s :
  pendingCommands (Connect env s).2 = pendingCommands s
  /\ resultChans (Connect env s).2 = resultChans s
  /\ commandCounter (Connect env s).2 = commandCounter s
  /\ (nextChan s <= nextChan (Connect env s).2)%nat.
Proof.
  assert (Hle : forall s', table s' = table s ->
            pendingCommands s' = pendingCommands s
            /\ resultChans s' = resultChans s
            /\ commandCounter s' = commandCounter s
            /\ (nextChan s <= nextChan s')%nat).
  { intros s' (-> & -> & -> & ->)%table_eq. auto. }
  unfold Connect. destruct (isConnected s); [apply Hle; reflexivity|].
  set (resolved := if overridePort s then _ else _).
  assert (Hres : match resolved with
                 | inl (_, s1) | inr s1 => table s1 = table s
                 end).
  { subst resolved. destruct (overridePort s); [reflexivity|].
    pose proof (FindCOMPort_frame (envPorts env) s) as HF.
    destruct (FindCOMPort (envPorts env) s) as [[port [err|]] s1]; [exact HF|].
    destruct (streq port EmptyString); exact HF. }
  destruct resolved as [[err s1]|s1]; [apply Hle, Hres|].
  destruct (negb (envOpenOK env)); [apply Hle, Hres|].
  set (s2 := with_serialPort _ _).
  assert (H2 : table s2 = table s) by exact Hres.
  pose proof (changeBaudTo4M_frame env s2) as HB. rewrite H2 in HB.
  destruct (changeBaudTo4M env s2) as [[e|] s3]; cbn [snd] in HB;
    [apply Hle, HB|].
  set (s4 := with_reconnectAttempts 0 _).
  assert (H4 : table s4 = table s) by exact HB.
  pose proof (writeInit_frame s4) as HW. rewrite H4 in HW.
  apply table_eq in HW as (H1 & H2' & H3 & H5).
  cbn. rewrite H1, H2', H3, H5. repeat split. lia.
Qed.

Lemma step_orphaned (ch : nat) (s s' : SerialTransport) :
  step s s' -> orphaned ch s -> orphaned ch s'.
Proof.
  intros Hstep (Hempty & Hfree & Hold).
  destruct Hstep as [ids c s _|entries now s _|b s|env s|cmd expect tmo env s
                     |c w s s' r Hsel|env s|s].
  - unfold processPendingCommandsIn.
    destruct (streq c EmptyString); [done|].
    destruct (bool_decide (pendingCommands s = ∅)); [done|].
    destruct (pendingCommands s !! findOldest ids) as [p|] eqn:Hp; [|done].
    destruct (streq c (Command p)); [done|].
    split; [|split]; cbn.
    + rewrite chanSend_lookup_ne; [exact Hempty|].
      intros Heq. exact (Hfree _ _ Hp (eq_sym Heq)).
    + intros id q [_ Hq]%lookup_delete_Some. exact (Hfree _ _ Hq).
    + exact Hold.
  - split; [|split]; cbn; [exact Hempty| |exact Hold].
    intros id q Hq%cleanup_fold_sub. exact (Hfree _ _ Hq).
  - destruct (table_eq _ _ (handleButtonData_frame b s)) as (Hp & Hc & Hn & _).
    unfold orphaned. rewrite Hp, Hc, Hn. done.
  - destruct (table_eq _ _ (attemptReconnect_frame env s)) as (Hp & Hc & Hn & _).
    unfold orphaned. rewrite Hp, Hc, Hn. done.
  - unfold SendCommand.
    destruct (negb (isConnected s) || bool_decide (serialPort s = None)); [done|].
    destruct (negb expect).
    + pose proof (table_eq _ _ (portWrite_frame (cmd +:+ CRLF) (writeErr env) s))
        as Hw.
      destruct (portWrite _ _ s) as [[e|] s1]; cbn [snd] in *;
        destruct Hw as (Hp & Hc & Hn & _); unfold orphaned;
        rewrite Hp, Hc, Hn; done.
    + cbn [generateCommandID].
      set (s3 := with_pendingCommands _ _).
      pose proof (table_eq _ _ (portWrite_frame
                    (cmd +:+ "#" +:+ pretty (Z.rem (commandCounter s + 1) 10000) +:+ CRLF)
                    (writeErr env) s3)) as Hw.
      assert (H3 : orphaned ch s3).
      { subst s3. split; [|split]; cbn.
        - exact Hempty.
        - intros id q [[_ <-]|[_ Hq]]%lookup_insert_Some; cbn; [lia|].
          exact (Hfree _ _ Hq).
        - lia. }
      destruct (portWrite _ _ s3) as [[e|] s4]; cbn [snd] in *;
        destruct Hw as (Hp & Hc & Hn & _); destruct H3 as (H31 & H32 & H33).
      * split; [|split]; cbn; [congruence| |congruence].
        intros id q [_ Hq]%lookup_delete_Some. rewrite Hp in Hq.
        exact (H32 _ _ Hq).
      * unfold orphaned. rewrite Hp, Hc, Hn. done.
  - destruct c; cbn in Hsel.
    + destruct (resultChans s !! waitCh w) as [t|]; [|discriminate].
      injection Hsel as _ <-. split; [|split]; cbn; [|exact Hfree|exact Hold].
      destruct (decide (waitCh w = ch)) as [->|Hne];
        [apply lookup_delete_eq | rewrite lookup_delete_ne; done].
    + destruct (bool_decide _); [|discriminate]. injection Hsel as _ <-.
      split; [|split]; cbn; [exact Hempty| |exact Hold].
      intros id q [_ Hq]%lookup_delete_Some. exact (Hfree _ _ Hq).
    + injection Hsel as _ <-.
      split; [|split]; cbn; [exact Hempty| |exact Hold].
      intros id q [_ Hq]%lookup_delete_Some. exact (Hfree _ _ Hq).
  - destruct (Connect_frame env s) as (Hp & Hc & _ & Hn).
    unfold orphaned. rewrite Hp, Hc. split; [done|]. split; [done|]. lia.
  - unfold Disconnect.
    cbn [serialPort with_pendingCommands emit with_io with_closedChans
         with_isConnected].
    destruct (serialPort s);
      (split; [exact Hempty | split; [cbn | exact Hold]]);
      intros id q Hq; rewrite lookup_empty in Hq; discriminate.
Qed.

Lemma steps_orphaned (ch : nat) (s s' : SerialTransport) :
  rtc step s s' -> orphaned ch s -> orphaned ch s'.
Proof.
  induction 1 as [|s s1 s2 Hstep _ IH]; [done|].
  intros H. apply IH, (step_orphaned ch s s1 Hstep H).
Qed.

(** C6. The sweep at clock reading [now], whatever the order in which it
    visits the table, deletes exactly the entries sent more than one second
    before [now] and keeps every other entry as it is; it touches no result
    channel. For a command so reaped in a well-formed transport, with its
    channel still empty: whatever the transport does afterwards, the result
    case of its caller's [select] is never ready, and its timer case returns
    the empty string with a timeout error. *)
Theorem C6_cleanup_reaps_without_resolving
    (entries : list (Z * PendingCommand)) (now : Z) (s : SerialTransport) :
  entries ≡ₚ map_to_list (pendingCommands s) ->
  let s' := cleanupTimedOutCommandsIn entries now s in
  (forall id p, pendingCommands s !! id = Some p ->
     now - Timestamp p > Second -> pendingCommands s' !! id = None)
  /\ (forall id p, pendingCommands s !! id = Some p ->
        now - Timestamp p <= Second -> pendingCommands s' !! id = Some p)
  /\ (forall id, pendingCommands s !! id = None ->
        pendingCommands s' !! id = None)
  /\ resultChans s' = resultChans s
  /\ (forall id p w s'',
        wellFormed s ->
        pendingCommands s !! id = Some p ->
        now - Timestamp p > Second ->
        waitCh w = ResultCh p ->
        resultChans s !! ResultCh p = None ->
        rtc step s' s'' ->
        SendCommand_select CaseResult w s'' = None
        /\ exists msg s3,
             SendCommand_select CaseTimeout w s''
             = Some ((EmptyString, Some (MakcuError ErrTimeout msg)), s3)).
Proof.
  intros Hperm s'.
  assert (Hlook := fun id => cleanup_lookup entries now s id Hperm).
  fold s' in Hlook.
  split; [|split; [|split; [|split]]].
  - intros id p Hp Hstale. rewrite Hlook, Hp.
    rewrite (bool_decide_eq_true_2 _ Hstale). reflexivity.
  - intros id p Hp Hfresh. rewrite Hlook, Hp.
    rewrite bool_decide_eq_false_2 by lia. reflexivity.
  - intros id Hp. rewrite Hlook, Hp. reflexivity.
  - reflexivity.
  - intros id p w s'' (_ & _ & Hfresh & Huniq) Hp Hstale Hw Hempty Hsteps.
    assert (Horph : orphaned (ResultCh p) s').
    { split; [exact Hempty|]. split; [|exact (Hfresh id p Hp)].
      intros id' p' Hp' Hch. rewrite Hlook in Hp'.
      destruct (pendingCommands s !! id') as [q|] eqn:Hq; [|discriminate].
      case_bool_decide as Hq_stale; [discriminate|]. injection Hp' as ->.
      specialize (Huniq id' id p' p Hq Hp Hch). subst id'.
      rewrite Hp in Hq. injection Hq as ->. lia. }
    destruct (steps_orphaned _ _ _ Hsteps Horph) as (Hnone & _).
    split.
    + unfold SendCommand_select. rewrite Hw, Hnone. reflexivity.
    + eexists _, _. reflexivity.
Qed.

(** ** What the transport maintains about its table *)

Lemma wellFormed_shrink (s s' : SerialTransport) :
  wellFormed s ->
  (forall id p, pendingCommands s' !! id = Some p ->
                pendingCommands s !! id = Some p) ->
  commandCounter s' = commandCounter s ->
  (nextChan s <= nextChan s')%nat ->
  wellFormed s'.
Proof.
  intros (Hc & Hv & Hf & Hu) Hsub Hcnt Hnext.
  split; [rewrite Hcnt; exact Hc|]. split; [|split].
  - intros id [p Hp]. apply Hv. exists p. apply Hsub, Hp.
  - intros id p Hp. specialize (Hf id p (Hsub _ _ Hp)). lia.
  - intros id1 id2 p1 p2 H1 H2. apply Hu; apply Hsub; assumption.
Qed.

Lemma wellFormed_table (s s' : SerialTransport) :
  table s' = table s -> wellFormed s -> wellFormed s'.
Proof.
  intros (Hp & _ & Hn & Hk)%table_eq Hwf.
  apply (wellFormed_shrink s s' Hwf); [rewrite Hp; auto | exact Hk | lia].
Qed.

Lemma wellFormed_new (fallback : string) (init auto override : bool) :
  wellFormed (NewSerialTransport fallback init auto override).
Proof.
  split; [cbn; lia|]. split; [|split].
  - intros id [p Hp]. cbn in Hp. rewrite lookup_empty in Hp. discriminate.
  - intros id p Hp. cbn in Hp. rewrite lookup_empty in Hp. discriminate.
  - intros id1 id2 p1 p2 Hp. cbn in Hp. rewrite lookup_empty in Hp. discriminate.
Qed.

(** Registering a command keeps the table well formed. *)
Lemma wellFormed_register (command : string) (now : Z) (s : SerialTransport) :
  wellFormed s ->
  let id := Z.rem (commandCounter s + 1) 10000 in
  wellFormed
    (with_pendingCommands
       (<[id := mkPending id command (nextChan s) now]> (pendingCommands s))
       (with_nextChan (S (nextChan s)) (with_commandCounter id s))).
Proof.
  intros (Hc & Hv & Hf & Hu) id.
  assert (Hid : 0 <= id < 10000).
  { subst id. apply Z.rem_bound_pos; lia. }
  split; [exact Hid|]. split; [|split]; cbn.
  - intros k [p Hp]. cbn in Hp.
    apply lookup_insert_Some in Hp as [[<- _]|[_ Hp]]; [exact Hid|].
    apply Hv. eauto.
  - intros k p [[_ <-]|[_ Hp]]%lookup_insert_Some; cbn; [lia|].
    specialize (Hf k p Hp). lia.
  - intros k1 k2 p1 p2 [[<- <-]|[_ H1]]%lookup_insert_Some
                        [[<- <-]|[_ H2]]%lookup_insert_Some; cbn; intros Hch.
    + reflexivity.
    + specialize (Hf k2 p2 H2). lia.
    + specialize (Hf k1 p1 H1). lia.
    + exact (Hu k1 k2 p1 p2 H1 H2 Hch).
Qed.

Lemma step_wellFormed (s s' : SerialTransport) :
  step s s' -> wellFormed s -> wellFormed s'.
Proof.
  intros Hstep Hwf.
  destruct Hstep as [ids c s _|entries now s _|b s|env s|cmd expect tmo env s
                     |c w s s' r Hsel|env s|s].
  - unfold processPendingCommandsIn.
    destruct (streq c EmptyString); [exact Hwf|].
    destruct (bool_decide (pendingCommands s = ∅)); [exact Hwf|].
    destruct (pendingCommands s !! findOldest ids) as [p|]; [|exact Hwf].
    destruct (streq c (Command p)); [exact Hwf|].
    apply (wellFormed_shrink s _ Hwf); cbn; [|reflexivity|lia].
    intros id q [_ Hq]%lookup_delete_Some. exact Hq.
  - apply (wellFormed_shrink s _ Hwf); cbn; [|reflexivity|lia].
    intros id q Hq. eapply cleanup_fold_sub, Hq.
  - exact (wellFormed_table _ _ (handleButtonData_frame b s) Hwf).
  - exact (wellFormed_table _ _ (attemptReconnect_frame env s) Hwf).
  - unfold SendCommand.
    destruct (negb (isConnected s) || bool_decide (serialPort s = None));
      [exact Hwf|].
    destruct (negb expect).
    + pose proof (portWrite_frame (cmd +:+ CRLF) (writeErr env) s) as Hw.
      destruct (portWrite _ _ s) as [[e|] s1]; cbn [snd] in *;
        exact (wellFormed_table _ _ Hw Hwf).
    + cbn [generateCommandID].
      pose proof (wellFormed_register cmd (clock env) s Hwf) as H3.
      cbv zeta in H3. set (s3 := with_pendingCommands _ _) in *.
      pose proof (portWrite_frame
                    (cmd +:+ "#" +:+ pretty (Z.rem (commandCounter s + 1) 10000)
                     +:+ CRLF) (writeErr env) s3) as Hw.
      destruct (portWrite _ _ s3) as [[e|] s4]; cbn [snd] in *;
        pose proof (wellFormed_table _ _ Hw H3) as H4; [|exact H4].
      apply (wellFormed_shrink s4 _ H4); cbn; [|reflexivity|lia].
      intros id q [_ Hq]%lookup_delete_Some. exact Hq.
  - destruct c; cbn in Hsel.
    + destruct (resultChans s !! waitCh w) as [t|]; [|discriminate].
      injection Hsel as _ <-.
      apply (wellFormed_shrink s _ Hwf); cbn; [auto|reflexivity|lia].
    + destruct (bool_decide _); [|discriminate]. injection Hsel as _ <-.
      apply (wellFormed_shrink s _ Hwf); cbn; [|reflexivity|lia].
      intros id q [_ Hq]%lookup_delete_Some. exact Hq.
    + injection Hsel as _ <-.
      apply (wellFormed_shrink s _ Hwf); cbn; [|reflexivity|lia].
      intros id q [_ Hq]%lookup_delete_Some. exact Hq.
  - destruct (Connect_frame env s) as (Hp & _ & Hk & Hn).
    apply (wellFormed_shrink s _ Hwf); [rewrite Hp; auto | exact Hk | exact Hn].
  - unfold Disconnect.
    cbn [serialPort with_pendingCommands emit with_io with_closedChans
         with_isConnected].
    destruct (serialPort s);
      (apply (wellFormed_shrink s _ Hwf); cbn; [|reflexivity|lia]);
      intros id q Hq; rewrite lookup_empty in Hq; discriminate.
Qed.

(** Every state the transport can reach from a new one is well formed; in
    particular its pending ids are valid ones. *)
Lemma reachable_wellFormed (fallback : string) (init auto override : bool)
    (s : SerialTransport) :
  rtc step (NewSerialTransport fallback init auto override) s -> wellFormed s.
Proof.
  intros Hsteps.
  assert (Hgen : forall a b, rtc step a b -> wellFormed a -> wellFormed b).
  { induction 1 as [|a b c Hab _ IH]; [done|].
    intros Ha. apply IH, (step_wellFormed a b Hab Ha). }
  exact (Hgen _ _ Hsteps (wellFormed_new fallback init auto override)).
Qed.

Lemma twoPending_entries :
  [(7, mkPending 7 "km.lock_ml()" 2 (400 * Millisecond));
   (3, mkPending 3 "km.version()" 1 0)]
  ≡ₚ map_to_list (pendingCommands twoPending).
Proof.
  unfold twoPending. cbn [pendingCommands with_pendingCommands].
  rewrite map_to_list_insert
    by (rewrite lookup_insert_ne, lookup_empty by lia; reflexivity).
  rewrite map_to_list_insert by apply lookup_empty.
  rewrite map_to_list_empty. apply Permutation_swap.
Qed.

Lemma twoPending_wellFormed : wellFormed twoPending.
Proof.
  split; [cbn; lia|]. split; [exact twoPending_valid|]. split.
  - intros id p Hp.
    destruct (twoPending_lookup id p Hp) as [[_ ->]|[_ ->]]; cbn; lia.
  - intros id1 id2 p1 p2 H1 H2.
    destruct (twoPending_lookup id1 p1 H1) as [[-> ->]|[-> ->]],
             (twoPending_lookup id2 p2 H2) as [[-> ->]|[-> ->]];
      cbn; intros Hch; (reflexivity || discriminate).
Qed.

(** A sweep at 1.2 s reaps command 3 (sent at 0) and keeps command 7 (sent
    at 0.4 s); a line routed afterwards does not reach the caller of
    command 3. *)
Lemma C6_witness :
  let s' := cleanupTimedOutCommandsIn
              [(7, mkPending 7 "km.lock_ml()" 2 (400 * Millisecond));
               (3, mkPending 3 "km.version()" 1 0)]
              (1200 * Millisecond) twoPending in
  pendingCommands s' !! 3 = None
  /\ pendingCommands s' !! 7
     = Some (mkPending 7 "km.lock_ml()" 2 (400 * Millisecond))
  /\ SendCommand_select CaseResult (mkWaiter 3 "km.version()" 1 DefaultTimeout 0)
       (processPendingCommandsIn (pendingIDs s') "late" s') = None.
Proof.
  intros s'.
  destruct (C6_cleanup_reaps_without_resolving _ (1200 * Millisecond)
              twoPending twoPending_entries)
    as (Hreap & Hkeep & _ & _ & Hwait).
  assert (H3 : pendingCommands twoPending !! 3
               = Some (mkPending 3 "km.version()" 1 0)).
  { unfold twoPending. cbn [pendingCommands with_pendingCommands].
    apply lookup_insert_eq. }
  assert (H7 : pendingCommands twoPending !! 7
               = Some (mkPending 7 "km.lock_ml()" 2 (400 * Millisecond))).
  { unfold twoPending. cbn [pendingCommands with_pendingCommands].
    rewrite lookup_insert_ne by lia. apply lookup_insert_eq. }
  split; [|split].
  - apply (Hreap 3 _ H3). vm_compute. reflexivity.
  - apply (Hkeep 7 _ H7). vm_compute. discriminate.
  - refine (proj1 (Hwait 3 _ (mkWaiter 3 "km.version()" 1 DefaultTimeout 0)
                     _ twoPending_wellFormed H3 _ eq_refl _ _)).
    + vm_compute. reflexivity.
    + reflexivity.
    + apply rtc_once. apply (step_line (pendingIDs s') "late" s'). reflexivity.
Defined.

(** ** The lock-state cache *)

Lemma bitSet_storeLockBit (v : bool) (n x : Z) :
  0 <= n -> bitSet (storeLockBit v n x) n = v.
Proof.
  intros Hn. rewrite bitSet_testbit, storeLockBit_testbit, Z.eqb_refl by lia.
  reflexivity.
Qed.

Lemma lockTargets_button (button : Z) :
  0 <= button < 5 ->
  exists info,
    lockTargets !! ToUpper (MouseButton_String button) = Some info
    /\ bit info = button.
Proof.
  intros Hb.
  assert (button = 0 \/ button = 1 \/ button = 2 \/ button = 3 \/ button = 4)
    as [->|[->|[->|[->| ->]]]] by lia;
    eexists; split; reflexivity.
Qed.

(** C3 (as amended). For each of the five buttons, [IsLocked] on an
    invalid cache makes exactly one call on the transport: the button's
    query command, expecting a response, with a timeout of 50 ms. When that
    call succeeds, the result is whether the trimmed response is ["1"],
    that is, whether the response is ["1"] with nothing but white space
    around it; the button's cache bit is set to the result and no other bit
    changes; the cache stays invalid, so an [IsLocked] that follows at once
    makes the same call again. *)
Theorem C3_query_refreshes_bit_only
    (dev : Device) (button : Z) (m : Mouse) :
  0 <= button < 5 -> cacheValid m = false ->
  exists info,
    lockTargets !! ToUpper (MouseButton_String button) = Some info
    /\ bit info = button
    /\ let call := mkCall (queryCmd info) true (50 * Millisecond) in
       (IsLocked dev button m).1.1 = [call]
       /\ forall resp, dev call = (resp, None) ->
          let locked := streq (TrimSpace resp) "1" in
          let m' := (IsLocked dev button m).2 in
          (IsLocked dev button m).1.2 = (locked, None)
          /\ (locked = true <->
              exists pre suf,
                whiteSpace pre /\ whiteSpace suf
                /\ list_ascii_of_string resp = pre ++ "1"%char :: suf)
          /\ bitSet (lockStatesCache m') (bit info) = locked
          /\ (forall i, 0 <= i -> i <> bit info ->
                Z.testbit (lockStatesCache m') i
                = Z.testbit (lockStatesCache m) i)
          /\ cacheValid m' = false
          /\ (IsLocked dev button m').1.1 = [call].
Proof.
  intros Hb Hinvalid.
  destruct (lockTargets_button button Hb) as (info & Hinfo & Hbit).
  exists info. split; [exact Hinfo|]. split; [exact Hbit|].
  assert (Hquery : forall m0, cacheValid m0 = false ->
            IsLocked dev button m0
            = match dev (mkCall (queryCmd info) true (50 * Millisecond)) with
              | (_, Some err) =>
                  ([mkCall (queryCmd info) true (50 * Millisecond)],
                   (false, Some err), m0)
              | (resp, None) =>
                  ([mkCall (queryCmd info) true (50 * Millisecond)],
                   (streq (TrimSpace resp) "1", None),
                   mkMouse (storeLockBit (streq (TrimSpace resp) "1") (bit info)
                              (lockStatesCache m0)) false)
              end).
  { intros m0 H0. unfold IsLocked. rewrite Hinfo, H0. reflexivity. }
  cbv zeta. rewrite (Hquery m Hinvalid). split.
  - destruct (dev _) as [resp [err|]]; reflexivity.
  - intros resp Hdev. rewrite Hdev. cbn [fst snd lockStatesCache cacheValid].
    split; [reflexivity|]. split; [apply TrimSpace_is_one|].
    split; [apply bitSet_storeLockBit; lia|].
    split; [|split].
    + intros i Hi Hne. rewrite storeLockBit_testbit by lia.
      destruct (Z.eqb_spec i (bit info)); [contradiction | reflexivity].
    + reflexivity.
    + rewrite Hquery by reflexivity. rewrite Hdev. reflexivity.
Qed.

(** The right button answers ["1"] followed by a no-break space. *)
Lemma C3_witness :
  let dev : Device := fun _ => (String "1" (String "194" (String "160" "")), None) in
  (IsLocked dev 1 NewMouse).1.1
  = [mkCall "km.lock_mr()" true (50 * Millisecond)]
  /\ (IsLocked dev 1 NewMouse).1.2 = (true, None)
  /\ cacheValid (IsLocked dev 1 NewMouse).2 = false.
Proof.
  intros dev.
  destruct (C3_query_refreshes_bit_only dev 1 NewMouse ltac:(lia) eq_refl)
    as (info & Hinfo & _ & Hcalls & Hok).
  injection Hinfo as <-.
  destruct (Hok (String "1" (String "194" (String "160" ""))) eq_refl)
    as (Hres & _ & _ & _ & Hvalid & _).
  split; [exact Hcalls|]. split; [exact Hres | exact Hvalid].
Defined.

(** C3, as stated, fails: after a successful query on an invalid cache the
    cache is still invalid, and the query that follows at once goes to the
    device again. *)
Lemma C3_counterexample :
  let dev : Device := fun _ => ("1"%string, None) in
  let m := InvalidateCache NewMouse in
  (IsLocked dev 0 m).1.2 = (true, None)
  /\ cacheValid (IsLocked dev 0 m).2 = false
  /\ (IsLocked dev 0 (IsLocked dev 0 m).2).1.1
     = [mkCall "km.lock_ml()" true (50 * Millisecond)].
Proof. repeat split. Qed.

(** ** The stream demultiplexer: a line feed not preceded by CR *)

Lemma linePos_pos (l : ListenLocals) :
  (0 <? linePos l) = negb (streq (line l) EmptyString).
Proof.
  unfold linePos. destruct (line l) as [|c rest]; [reflexivity|].
  cbn [String.length]. rewrite (proj2 (streq_false _ _)) by discriminate.
  apply Z.ltb_lt. lia.
Qed.

(** The test of case 4, as the three conditions it is made of. *)
Lemma looksLikeButtonData_spec (l : ListenLocals) (s : SerialTransport) :
  looksLikeButtonData l s = true <->
  lastButtonMask s <> 0
  \/ (0 <= lastByte l < 32 /\ lastByte l <> 13)
  \/ (line l <> EmptyString /\ expectingTextMode l = false).
Proof.
  unfold looksLikeButtonData. rewrite linePos_pos.
  rewrite !orb_true_iff, !andb_true_iff, !negb_true_iff.
  rewrite !Z.eqb_neq, Z.leb_le, Z.ltb_lt, streq_false.
  intuition lia.
Qed.

Lemma completeLine_eq (l : ListenLocals) (s : SerialTransport) :
  completeLine l s
  = (with_line EmptyString l,
     processPendingCommands (parseResponseLine (line l)) s).
Proof.
  unfold completeLine. f_equal.
  destruct (streq (parseResponseLine (line l)) EmptyString) eqn:E; [|reflexivity].
  apply streq_true in E. rewrite E. symmetry.
  apply processPendingCommandsIn_noop. right. reflexivity.
Qed.

(** The branch of [listenByte] a bare line feed takes. *)
Lemma listenByte_bare_LF (l : ListenLocals) (s : SerialTransport) :
  lastByte l <> 13 ->
  listenByte l s LF
  = (with_lastByte 10
       (if looksLikeButtonData l s
        then with_line EmptyString (with_expectingTextMode false l)
        else if (0 <? linePos l) && expectingTextMode l
        then with_expectingTextMode false (with_line EmptyString l)
        else if expectingTextMode l then with_expectingTextMode false l
        else with_line EmptyString (with_expectingTextMode false l)),
     if looksLikeButtonData l s then handleButtonData 10 s
     else if (0 <? linePos l) && expectingTextMode l
     then processPendingCommands (parseResponseLine (line l)) s
     else if expectingTextMode l then s
     else handleButtonData 10 s).
Proof.
  intros Hprev. unfold listenByte.
  change (byteVal LF) with 10.
  rewrite (proj2 (Z.eqb_neq _ _) Hprev).
  change ((32 <=? 10) || (10 =? 9)) with false.
  change (10 =? 13) with false. change (10 =? 10) with true.
  cbn [andb].
  destruct (looksLikeButtonData l s); [reflexivity|].
  destruct ((0 <? linePos l) && expectingTextMode l).
  - rewrite completeLine_eq. reflexivity.
  - destruct (expectingTextMode l); reflexivity.
Qed.

(** C4. For the byte LF arriving when the previous byte is not CR: if the
    last known input mask is non-zero, or there is a previous byte and it is
    a control byte (below 0x20, CR excluded), or the buffer is non-empty
    while the expecting-text flag is off, [handleButtonData] is called with
    0x0A and the buffer is cleared. Otherwise: expecting text with a
    non-empty buffer, the buffer is cleared and a text line is handed to the
    correlator, namely the buffer without the white space at its two ends
    and, if what is left begins with the prompt marker, without the marker
    and the white space after it; a line that comes out empty is not
    routed. Expecting text with an empty buffer, only the flag is cleared;
    in the remaining case [handleButtonData] is called with 0x0A. In every
    case the flag ends off and LF becomes the previous byte. *)
Theorem C4_bare_line_feed (l : ListenLocals) (s : SerialTransport) :
  lastByte l <> 13 ->
  let isTelegram :=
    lastButtonMask s <> 0
    \/ (0 <= lastByte l < 32 /\ lastByte l <> 13)
    \/ (line l <> EmptyString /\ expectingTextMode l = false) in
  (isTelegram ->
     listenByte l s LF
     = (mkLocals EmptyString false 10 (lastCleanup l), handleButtonData 10 s))
  /\ (~ isTelegram -> expectingTextMode l = true -> line l <> EmptyString ->
      exists trimmedLine content,
        listenByte l s LF
        = (mkLocals EmptyString false 10 (lastCleanup l),
           processPendingCommands content s)
        /\ content = parseResponseLine (line l)
        /\ isTrimOf (line l) trimmedLine
        /\ (if HasPrefix trimmedLine ">>> "
            then isTrimOf (sliceFrom 4 trimmedLine) content
            else content = trimmedLine)
        /\ (content = EmptyString -> processPendingCommands content s = s))
  /\ (~ isTelegram -> expectingTextMode l = true -> line l = EmptyString ->
      listenByte l s LF
      = (mkLocals EmptyString false 10 (lastCleanup l), s))
  /\ (~ isTelegram -> expectingTextMode l = false ->
      listenByte l s LF
      = (mkLocals EmptyString false 10 (lastCleanup l), handleButtonData 10 s)).
Proof.
  intros Hprev isTelegram.
  rewrite (listenByte_bare_LF l s Hprev).
  pose proof (looksLikeButtonData_spec l s) as Hspec. fold isTelegram in Hspec.
  rewrite linePos_pos.
  split; [|split; [|split]].
  - intros Ht. rewrite (proj2 Hspec Ht). reflexivity.
  - intros Hnt Hexp Hline.
    destruct (parseResponseLine_spec (line l)) as (t & Htrim & Hprompt).
    exists t, (parseResponseLine (line l)).
    split; [|split; [reflexivity|split; [exact Htrim|split; [exact Hprompt|]]]].
    + destruct (looksLikeButtonData l s);
        [exfalso; apply Hnt, Hspec; reflexivity|].
      rewrite Hexp, (proj2 (streq_false _ _) Hline). reflexivity.
    + intros ->. apply processPendingCommandsIn_noop. right. reflexivity.
  - intros Hnt Hexp Hline.
    destruct (looksLikeButtonData l s); [exfalso; apply Hnt, Hspec; reflexivity|].
    rewrite Hexp, Hline, streq_refl. cbn [negb andb].
    unfold with_lastByte, with_expectingTextMode. cbn. rewrite Hline. reflexivity.
  - intros Hnt Hexp.
    destruct (looksLikeButtonData l s); [exfalso; apply Hnt, Hspec; reflexivity|].
    rewrite Hexp, andb_false_r. reflexivity.
Qed.
(** A line feed after a no-break space and the text ["OK "] ends the
    line: ["OK"] goes to the oldest pending command; a line feed while a
    button is held is a telegram. *)
Lemma C4_witness :
  listenByte (mkLocals (String "194" (String "160" "OK ")) true 32 0)
    twoPending LF
  = (mkLocals EmptyString false 10 0,
     processPendingCommands "OK" twoPending)
  /\ listenByte (mkLocals "OK" true 75 0) (with_lastButtonMask 2 twoPending) LF
     = (mkLocals EmptyString false 10 0,
        handleButtonData 10 (with_lastButtonMask 2 twoPending)).
Proof.
  split.
  2:{ refine (proj1 (C4_bare_line_feed (mkLocals "OK" true 75 0)
                       (with_lastButtonMask 2 twoPending) ltac:(discriminate)) _).
      left. discriminate. }
  destruct (proj1 (proj2 (C4_bare_line_feed
                            (mkLocals (String "194" (String "160" "OK "))
                               true 32 0)
                            twoPending ltac:(discriminate))))
    as (t & content & Heq & Hcontent & _).
  - intros [H|[[H _]|[_ H]]].
    + apply H. reflexivity.
    + cbn in H. lia.
    + discriminate.
  - reflexivity.
  - discriminate.
  - rewrite Heq, Hcontent. reflexivity.
Defined.

(** ** Bounded reconnection *)

(** The result of [FindCOMPort] depends on the configuration only, and its
    only effect is on the log. *)
Lemma FindCOMPort_result ports s s' :
  overridePort s' = overridePort s -> fallbackPort s' = fallbackPort s ->
  (FindCOMPort ports s').1 = (FindCOMPort ports s).1.
Proof.
  intros Ho Hf. unfold FindCOMPort. rewrite Ho, Hf.
  destruct (overridePort s); [reflexivity|].
  destruct ports as [ps|]; [destruct (List.find isTarget ps)|];
    try destruct (negb (streq (fallbackPort s) EmptyString)); reflexivity.
Qed.

Lemma FindCOMPort_state ports s :
  (FindCOMPort ports s).2 = s \/ (FindCOMPort ports s).2 = emit IOListPorts s.
Proof.
  unfold FindCOMPort. destruct (overridePort s); [left; reflexivity|]. right.
  destruct ports as [ps|]; [destruct (List.find isTarget ps)|];
    try destruct (negb (streq (fallbackPort s) EmptyString)); reflexivity.
Qed.

Lemma emit_view e s :
  config (emit e s) = config s
  /\ isConnected (emit e s) = isConnected s
  /\ reconnectAttempts (emit e s) = reconnectAttempts s
  /\ serialPort (emit e s) = serialPort s.
Proof. repeat split. Qed.

Lemma FindCOMPort_view ports s :
  config (FindCOMPort ports s).2 = config s
  /\ isConnected (FindCOMPort ports s).2 = isConnected s
  /\ reconnectAttempts (FindCOMPort ports s).2 = reconnectAttempts s
  /\ serialPort (FindCOMPort ports s).2 = serialPort s.
Proof.
  destruct (FindCOMPort_state ports s) as [-> | ->]; [repeat split|].
  apply emit_view.
Qed.

Lemma changeBaudTo4M_view env s :
  config (changeBaudTo4M env s).2 = config s
  /\ isConnected (changeBaudTo4M env s).2 = isConnected s
  /\ reconnectAttempts (changeBaudTo4M env s).2 = reconnectAttempts s
  /\ serialPort (changeBaudTo4M env s).2 = serialPort s.
Proof.
  unfold changeBaudTo4M, portWrite.
  destruct (serialPort s) as [[|]|] eqn:E; [| |repeat split; exact E].
  - destruct (envBaudWriteErr env); cbn [fmap option_fmap option_map snd];
      [|destruct (envSetModeOK env); cbn [snd]];
      (split; [|split; [|split]]); try reflexivity; exact E.
  - cbn [snd]. (split; [|split; [|split]]); try reflexivity; exact E.
Qed.

Lemma changeBaudTo4M_result env s :
  serialPort s = Some PortOpen ->
  (changeBaudTo4M env s).1 = None <->
  envBaudWriteErr env = None /\ envSetModeOK env = true.
Proof.
  intros E. unfold changeBaudTo4M, portWrite. rewrite E.
  destruct (envBaudWriteErr env); cbn [fmap option_fmap option_map fst].
  - split; [discriminate | intros [? _]; discriminate].
  - destruct (envSetModeOK env); cbn [fst]; split; auto; try discriminate.
    intros [_ ?]; discriminate.
Qed.

Lemma writeInit_view s :
  config (writeInit s) = config s
  /\ isConnected (writeInit s) = isConnected s
  /\ reconnectAttempts (writeInit s) = reconnectAttempts s
  /\ serialPort (writeInit s) = serialPort s.
Proof. unfold writeInit. destruct (sendInit s); repeat split. Qed.

Lemma reconnectSucceeds_unfold env s :
  reconnectSucceeds env s
  = match (FindCOMPort (envPorts env) s).1 with
    | (port, None) =>
        negb (streq port EmptyString) && envOpenOK env
        && bool_decide (envBaudWriteErr env = None) && envSetModeOK env
    | (_, Some _) => false
    end.
Proof. reflexivity. Qed.

Lemma attemptReconnect_attempt env s :
  reconnectAttempts s < maxReconnectAttempts -> serialPort s <> None ->
  sameControl s (attemptReconnect env s)
  /\ if reconnectSucceeds env s
     then reconnectAttempts (attemptReconnect env s) = 0
          /\ serialPort (attemptReconnect env s) = Some PortOpen
     else reconnectAttempts (attemptReconnect env s) = reconnectAttempts s + 1
          /\ serialPort (attemptReconnect env s) = Some PortClosed.
Proof.
  intros Hlt Hport.
  assert (Hctl : forall s', config s' = config s -> isConnected s' = isConnected s ->
                            sameControl s s').
  { unfold config, sameControl. intros s' Hc Hi.
    injection Hc as H1 H2 H3 H4 H5 H6. repeat split; assumption. }
  unfold attemptReconnect. rewrite (proj2 (Z.leb_gt _ _) Hlt).
  set (s1 := with_reconnectAttempts (reconnectAttempts s + 1) s).
  assert (Hs2 : match serialPort s1 with Some _ => closePort s1 | None => s1 end
                = closePort s1).
  { subst s1. cbn [serialPort with_reconnectAttempts].
    destruct (serialPort s); [reflexivity | contradiction]. }
  rewrite Hs2. clear Hs2.
  set (s3 := emit (IOSleep reconnectDelay) (closePort s1)).
  assert (V3 : config s3 = config s /\ isConnected s3 = isConnected s
               /\ reconnectAttempts s3 = reconnectAttempts s + 1
               /\ serialPort s3 = Some PortClosed) by (repeat split).
  destruct V3 as (C3 & I3 & A3 & P3).
  rewrite reconnectSucceeds_unfold.
  assert (Hres : (FindCOMPort (envPorts env) s3).1 = (FindCOMPort (envPorts env) s).1).
  { apply FindCOMPort_result; unfold config in C3; congruence. }
  destruct (FindCOMPort_view (envPorts env) s3) as (C4 & I4 & A4 & P4).
  destruct (FindCOMPort (envPorts env) s3) as [[port err] s4].
  cbn [fst snd] in Hres, C4, I4, A4, P4. rewrite <- Hres. clear Hres.
  destruct err as [e|].
  { cbn [orb]. rewrite (bool_decide_eq_true_2 (Some e <> None)) by discriminate.
    cbn [orb]. destruct (emit_view (IOSleep reconnectDelay) s4) as (E1 & E2 & E3 & E4).
    split; [apply Hctl; congruence | split; congruence]. }
  rewrite (bool_decide_eq_false_2 (None <> None)) by (intros H; apply H; reflexivity).
  cbn [orb]. destruct (streq port EmptyString).
  { cbn [negb andb]. destruct (emit_view (IOSleep reconnectDelay) s4) as (E1 & E2 & E3 & E4).
    split; [apply Hctl; congruence | split; congruence]. }
  cbn [negb andb].
  set (s5 := emit (IOOpen port) (with_Port port s4)).
  assert (V5 : config s5 = config s4 /\ isConnected s5 = isConnected s4
               /\ reconnectAttempts s5 = reconnectAttempts s4
               /\ serialPort s5 = serialPort s4) by (repeat split).
  destruct V5 as (C5 & I5 & A5 & P5).
  destruct (envOpenOK env).
  2:{ cbn [negb andb]. destruct (emit_view (IOSleep reconnectDelay) s5) as (E1 & E2 & E3 & E4).
      split; [apply Hctl; congruence | split; congruence]. }
  cbn [negb andb].
  set (s5' := with_serialPort (Some PortOpen) s5).
  assert (V5' : config s5' = config s5 /\ isConnected s5' = isConnected s5
               /\ reconnectAttempts s5' = reconnectAttempts s5
               /\ serialPort s5' = Some PortOpen) by (repeat split).
  destruct V5' as (C5' & I5' & A5' & P5').
  destruct (changeBaudTo4M_view env s5') as (C6 & I6 & A6 & P6).
  pose proof (changeBaudTo4M_result env s5' P5') as Hbaud.
  destruct (changeBaudTo4M env s5') as [[e|] s6]; cbn [fst snd] in *.
  - assert (Hb : bool_decide (envBaudWriteErr env = None) && envSetModeOK env = false).
    { destruct (envBaudWriteErr env); [reflexivity|].
      destruct (envSetModeOK env); [|reflexivity].
      destruct Hbaud as [_ Hbaud]. discriminate Hbaud. split; reflexivity. }
    rewrite Hb.
    assert (V7 : config (emit (IOSleep reconnectDelay) (closePort s6)) = config s6
                 /\ isConnected (emit (IOSleep reconnectDelay) (closePort s6))
                    = isConnected s6
                 /\ reconnectAttempts (emit (IOSleep reconnectDelay) (closePort s6))
                    = reconnectAttempts s6
                 /\ serialPort (emit (IOSleep reconnectDelay) (closePort s6))
                    = Some PortClosed) by (repeat split).
    destruct V7 as (C7 & I7 & A7 & P7).
    split; [apply Hctl; congruence | split; congruence].
  - destruct (proj1 Hbaud eq_refl) as [Hw Hm]. rewrite Hw, Hm.
    rewrite (bool_decide_eq_true_2 (None = None)) by reflexivity. cbn [andb].
    destruct (writeInit_view s6) as (C7 & I7 & A7 & P7).
    set (s7 := writeInit s6) in *.
    assert (V8 : config (with_reconnectAttempts 0
                           (emit (IOSetReadTimeout Millisecond) s7)) = config s7
                 /\ isConnected (with_reconnectAttempts 0
                                   (emit (IOSetReadTimeout Millisecond) s7))
                    = isConnected s7
                 /\ reconnectAttempts (with_reconnectAttempts 0
                                         (emit (IOSetReadTimeout Millisecond) s7))
                    = 0
                 /\ serialPort (with_reconnectAttempts 0
                                  (emit (IOSetReadTimeout Millisecond) s7))
                    = serialPort s7) by (repeat split).
    destruct V8 as (C8 & I8 & A8 & P8).
    split; [apply Hctl; congruence | split; congruence].
Qed.

Lemma attemptReconnect_giveup env s :
  maxReconnectAttempts <= reconnectAttempts s ->
  attemptReconnect env s = with_isConnected false s.
Proof.
  intros Hge. unfold attemptReconnect.
  rewrite (proj2 (Z.leb_le _ _) Hge). reflexivity.
Qed.

Lemma reconnectSucceeds_sameControl env s s' :
  sameControl s s' -> reconnectSucceeds env s' = reconnectSucceeds env s.
Proof.
  intros (_ & _ & _ & _ & Ho & Hf).
  unfold reconnectSucceeds, FindCOMPort. rewrite Ho, Hf.
  destruct (overridePort s); [reflexivity|].
  destruct (envPorts env) as [ps|]; [destruct (List.find isTarget ps)|];
    try destruct (negb (streq (fallbackPort s) EmptyString)); reflexivity.
Qed.

Lemma sameControl_trans s1 s2 s3 :
  sameControl s1 s2 -> sameControl s2 s3 -> sameControl s1 s3.
Proof.
  unfold sameControl. intros (?&?&?&?&?&?) (?&?&?&?&?&?).
  repeat split; congruence.
Qed.

(** A turn of the read loop whose read fails, with automatic reconnection
    on, calls [attemptReconnect] and goes round again. *)
Lemma listenTurn_read_error t l s :
  isConnected s = true -> autoReconnect s = true ->
  stopChan s ∉ closedChans s ->
  serialPort s = Some PortClosed
  \/ (serialPort s = Some PortOpen /\ tRead t = ReadErr) ->
  listenTurn t l s = Running l (attemptReconnect (tConnect t) s).
Proof.
  intros Hconn Hauto Hstop Hread. unfold listenTurn.
  rewrite Hconn, (bool_decide_eq_false_2 _ Hstop). cbn [negb].
  destruct Hread as [-> | [-> ->]]; rewrite Hauto; reflexivity.
Qed.

Lemma listen_disconnected ticks l s :
  isConnected s = false -> listen ticks l s = Exited s.
Proof.
  intros Hdis. destruct ticks as [|t rest]; simpl.
  - rewrite Hdis. reflexivity.
  - unfold listenTurn. rewrite Hdis. reflexivity.
Qed.

(** One failed attempt seen from the read loop. *)
Lemma failed_attempt env s :
  reconnectAttempts s < maxReconnectAttempts -> serialPort s <> None ->
  reconnectSucceeds env s = false ->
  sameControl s (attemptReconnect env s)
  /\ reconnectAttempts (attemptReconnect env s) = reconnectAttempts s + 1
  /\ serialPort (attemptReconnect env s) = Some PortClosed.
Proof.
  intros Hlt Hport Hfail.
  destruct (attemptReconnect_attempt env s Hlt Hport) as [Hsame Hres].
  rewrite Hfail in Hres. tauto.
Qed.

Lemma Connect_ok env s :
  isConnected s = false -> (Connect env s).1 = None ->
  isConnected (Connect env s).2 = true
  /\ reconnectAttempts (Connect env s).2 = 0.
Proof.
  intros Hdis. unfold Connect. rewrite Hdis.
  set (resolved := if overridePort s then _ else _). clearbody resolved.
  destruct resolved as [[err s1]|s1]; [discriminate|].
  destruct (negb (envOpenOK env)); [discriminate|].
  destruct (changeBaudTo4M env _) as [[e|] s3]; [discriminate|].
  intros _. cbn [snd].
  set (s4 := with_reconnectAttempts 0 (with_isConnected true s3)).
  destruct (writeInit_view s4) as (_ & I5 & A5 & _).
  set (s5 := writeInit s4) in *.
  assert (V : isConnected
                (with_nextChan (S (nextChan (emit (IOSetReadTimeout Millisecond) s5)))
                   (with_stopChan (nextChan (emit (IOSetReadTimeout Millisecond) s5))
                      (emit (IOSetReadTimeout Millisecond) s5)))
              = isConnected s5
              /\ reconnectAttempts
                   (with_nextChan (S (nextChan (emit (IOSetReadTimeout Millisecond) s5)))
                      (with_stopChan (nextChan (emit (IOSetReadTimeout Millisecond) s5))
                         (emit (IOSetReadTimeout Millisecond) s5)))
                 = reconnectAttempts s5) by (split; reflexivity).
  destruct V as [-> ->]. rewrite I5, A5. split; reflexivity.
Qed.

(** C9. In the read loop with automatic reconnection on: once a read
    fails and three reconnection attempts in a row fail (each failure leaves
    the port closed, so the next read fails too), the attempt counter is at
    3, and the loop's next call of [attemptReconnect] makes no attempt: it
    opens no port and performs no I/O, clears the connected flag, and the
    loop exits. The transport is then disconnected and the loop, whatever it
    is offered, does nothing more; [Connect], when it succeeds, sets the
    flag and puts the counter back to 0. An attempt that succeeds puts the
    counter back to 0 as well. *)
Theorem C9_reconnection_gives_up_after_three_failures
    (l : ListenLocals) (s : SerialTransport) (t1 t2 t3 t4 : Tick)
    (rest : list Tick) :
  isConnected s = true -> autoReconnect s = true ->
  stopChan s ∉ closedChans s ->
  reconnectAttempts s = 0 ->
  serialPort s = Some PortClosed
  \/ (serialPort s = Some PortOpen /\ tRead t1 = ReadErr) ->
  reconnectSucceeds (tConnect t1) s = false ->
  reconnectSucceeds (tConnect t2) s = false ->
  reconnectSucceeds (tConnect t3) s = false ->
  let s3 := attemptReconnect (tConnect t3)
              (attemptReconnect (tConnect t2)
                 (attemptReconnect (tConnect t1) s)) in
  let sd := with_isConnected false s3 in
  reconnectAttempts s3 = maxReconnectAttempts
  /\ listen (t1 :: t2 :: t3 :: t4 :: rest) l s = Exited sd
  /\ IsConnected sd = false
  /\ io sd = io s3
  /\ reconnectAttempts sd = maxReconnectAttempts
  /\ (forall ticks l', listen ticks l' sd = Exited sd)
  /\ (forall env, (Connect env sd).1 = None ->
        isConnected (Connect env sd).2 = true
        /\ reconnectAttempts (Connect env sd).2 = 0)
  /\ (forall env s0,
        reconnectAttempts s0 < maxReconnectAttempts -> serialPort s0 <> None ->
        reconnectSucceeds env s0 = true ->
        reconnectAttempts (attemptReconnect env s0) = 0
        /\ isConnected (attemptReconnect env s0) = isConnected s0).
Proof.
  intros Hconn Hauto Hstop Hzero Hread Hf1 Hf2 Hf3 s3 sd.
  assert (Hport : serialPort s <> None).
  { destruct Hread as [-> | [-> _]]; discriminate. }
  set (s1 := attemptReconnect (tConnect t1) s) in *.
  set (s2 := attemptReconnect (tConnect t2) s1) in *.
  destruct (failed_attempt (tConnect t1) s) as (Hc1 & Ha1 & Hp1);
    [unfold maxReconnectAttempts; lia | exact Hport | exact Hf1 |].
  fold s1 in Hc1, Ha1, Hp1.
  destruct (failed_attempt (tConnect t2) s1) as (Hc2 & Ha2 & Hp2);
    [unfold maxReconnectAttempts; lia | rewrite Hp1; discriminate
    | rewrite (reconnectSucceeds_sameControl _ s s1 Hc1); exact Hf2 |].
  fold s2 in Hc2, Ha2, Hp2.
  pose proof (sameControl_trans _ _ _ Hc1 Hc2) as Hc12.
  destruct (failed_attempt (tConnect t3) s2) as (Hc3 & Ha3 & Hp3);
    [unfold maxReconnectAttempts; lia | rewrite Hp2; discriminate
    | rewrite (reconnectSucceeds_sameControl _ s s2 Hc12); exact Hf3 |].
  fold s3 in Hc3, Ha3, Hp3.
  pose proof (sameControl_trans _ _ _ Hc12 Hc3) as Hc13.
  assert (Hthree : reconnectAttempts s3 = maxReconnectAttempts).
  { unfold maxReconnectAttempts. lia. }
  assert (Hdis : isConnected sd = false) by reflexivity.
  split; [exact Hthree|]. split; [|split; [|split; [|split; [|split; [|split]]]]].
  - destruct Hc1 as (C1 & A1 & S1 & K1 & _), Hc12 as (C2 & A2 & S2 & K2 & _),
      Hc13 as (C3 & A3 & S3 & K3 & _).
    cbn [listen].
    rewrite (listenTurn_read_error t1 l s Hconn Hauto Hstop Hread). fold s1.
    rewrite (listenTurn_read_error t2 l s1);
      [|congruence|congruence|rewrite S1, K1; exact Hstop|left; exact Hp1].
    fold s2.
    rewrite (listenTurn_read_error t3 l s2);
      [|congruence|congruence|rewrite S2, K2; exact Hstop|left; exact Hp2].
    fold s3.
    rewrite (listenTurn_read_error t4 l s3);
      [|congruence|congruence|rewrite S3, K3; exact Hstop|left; exact Hp3].
    rewrite (attemptReconnect_giveup (tConnect t4) s3) by lia.
    apply listen_disconnected. reflexivity.
  - reflexivity.
  - reflexivity.
  - exact Hthree.
  - intros ticks l'. apply listen_disconnected, Hdis.
  - intros env Hok. destruct (Connect_ok env sd Hdis Hok) as (H1 & H2).
    split; assumption.
  - intros env s0 Hlt Hp0 Hok.
    destruct (attemptReconnect_attempt env s0 Hlt Hp0) as [(Hc & _) Hres].
    rewrite Hok in Hres. split; [apply Hres | exact Hc].
Qed.

(** No device answers: after the failed read, three attempts find no port
    and the fourth turn of the loop leaves it, disconnected. *)
Lemma C9_witness :
  let t := mkTick ReadErr (mkConnectEnv (Some []) true None true) 0 in
  exists sd,
    listen [t; t; t; t] (listenStart 0) connected = Exited sd
    /\ IsConnected sd = false
    /\ reconnectAttempts sd = 3.
Proof.
  intros t.
  destruct (C9_reconnection_gives_up_after_three_failures
              (listenStart 0) connected t t t t [] eq_refl eq_refl
              ltac:(apply not_elem_of_empty) eq_refl
              (or_intror (conj eq_refl eq_refl)) eq_refl eq_refl eq_refl)
    as (_ & Hrun & Hdis & _ & Hcount & _).
  eexists. split; [exact Hrun|]. split; [exact Hdis | exact Hcount].
Defined.

(** * Further properties *)

(** ** Command ids *)

Lemma generateCommandID_id (s : SerialTransport) :
  0 <= commandCounter s < 10000 ->
  (generateCommandID s).1 = (commandCounter s + 1) mod 10000
  /\ commandCounter (generateCommandID s).2 = (commandCounter s + 1) mod 10000.
Proof.
  intros Hc. unfold generateCommandID. cbn [fst snd commandCounter with_commandCounter].
  rewrite Z.rem_mod_nonneg by lia. split; reflexivity.
Qed.

Lemma generateIDs_spec (n : nat) (s : SerialTransport) :
  0 <= commandCounter s < 10000 ->
  (generateIDs n s).1
  = (fun k : nat => (commandCounter s + 1 + Z.of_nat k) mod 10000) <$> seq 0 n
  /\ commandCounter (generateIDs n s).2
     = (commandCounter s + Z.of_nat n) mod 10000.
Proof.
  revert s. induction n as [|n IH]; intros s Hc.
  - split; [reflexivity|]. cbn [generateIDs snd]. rewrite Z.add_0_r.
    symmetry. apply Z.mod_small. exact Hc.
  - destruct (generateCommandID_id s Hc) as [Hid Hcnt].
    cbn [generateIDs].
    destruct (generateCommandID s) as [id s1]. cbn [fst snd] in Hid, Hcnt.
    assert (Hc1 : 0 <= commandCounter s1 < 10000).
    { rewrite Hcnt. apply Z.mod_pos_bound. lia. }
    destruct (IH s1 Hc1) as [Hids Hfin].
    destruct (generateIDs n s1) as [ids s2]. cbn [fst snd] in *.
    split.
    + cbn [seq fmap list_fmap]. f_equal.
      * rewrite Hid. f_equal. lia.
      * rewrite Hids, <- seq_shift, <- list_fmap_compose.
        apply list_fmap_ext. intros _ k _. cbn. rewrite Hcnt.
        rewrite <- Z.add_assoc, Z.add_mod_idemp_l by lia. f_equal. lia.
    + rewrite Hfin, Hcnt. rewrite Z.add_mod_idemp_l by lia. f_equal. lia.
Qed.

(** X1. Starting from a counter in range, the ids of up to 10000
    consecutive commands lie in 0..9999 and are pairwise distinct; the k-th
    of them is the counter plus k, modulo 10000, so id 0 follows id 9999;
    after exactly 10000 of them the counter is back where it started. *)
Theorem generateIDs_distinct_in_range (n : nat) (s : SerialTransport) :
  0 <= commandCounter s < 10000 -> Z.of_nat n <= 10000 ->
  Forall (fun id => 0 <= id < 10000) (generateIDs n s).1
  /\ NoDup (generateIDs n s).1
  /\ (forall k, (k < n)%nat ->
        (generateIDs n s).1 !! k
        = Some ((commandCounter s + 1 + Z.of_nat k) mod 10000))
  /\ commandCounter (generateIDs (Z.to_nat 10000) s).2 = commandCounter s.
Proof.
  intros Hc Hn. destruct (generateIDs_spec n s Hc) as [Hids _].
  rewrite Hids. split; [|split; [|split]].
  - apply Forall_fmap, Forall_forall. intros k _. cbn.
    apply Z.mod_pos_bound. lia.
  - apply NoDup_fmap_2_strong; [|apply NoDup_seq].
    intros a b Ha%elem_of_seq Hb%elem_of_seq Heq.
    assert (Hd : (Z.of_nat a - Z.of_nat b) mod 10000 = 0).
    { replace (Z.of_nat a - Z.of_nat b)
        with ((commandCounter s + 1 + Z.of_nat a)
              - (commandCounter s + 1 + Z.of_nat b)) by lia.
      rewrite Zminus_mod, Heq, Z.sub_diag. reflexivity. }
    apply Z.mod_divide in Hd; [|lia]. destruct Hd as [q Hq].
    assert (q = 0) by nia. lia.
  - intros k Hk. rewrite list_lookup_fmap, lookup_seq_lt by exact Hk.
    reflexivity.
  - destruct (generateIDs_spec (Z.to_nat 10000) s Hc) as [_ ->].
    rewrite Z2Nat.id by lia. replace (commandCounter s + 10000)
      with (commandCounter s + 1 * 10000) by lia.
    rewrite Z.mod_add by lia. apply Z.mod_small. exact Hc.
Qed.

(** From counter 9998 the ids are 9999, 0, 1. *)
Lemma generateIDs_witness :
  (generateIDs 3 (with_commandCounter 9998 connected)).1 !! 1%nat = Some 0
  /\ NoDup (generateIDs 3 (with_commandCounter 9998 connected)).1.
Proof.
  destruct (generateIDs_distinct_in_range 3 (with_commandCounter 9998 connected)
              ltac:(cbn; lia) ltac:(lia)) as (_ & Hnd & Hk & _).
  split; [exact (Hk 1%nat ltac:(lia)) | exact Hnd].
Defined.

(** ** Sending a response-expecting command *)

(** The transport right after a command has been registered. *)
Lemma SendCommand_expect_unfold (command : string) (timeout : Z) (env : SendEnv)
    (s : SerialTransport) :
  isConnected s = true -> serialPort s <> None ->
  let id := nextID s in
  let s3 := with_pendingCommands
              (<[id := mkPending id command (nextChan s) (clock env)]>
                 (pendingCommands s))
              (with_nextChan (S (nextChan s)) (with_commandCounter id s)) in
  SendCommand command true timeout env s
  = match portWrite (taggedCommand command id) (writeErr env) s3 with
    | (Some err, s4) =>
        (Returned EmptyString (Some err),
         with_pendingCommands (delete id (pendingCommands s4)) s4)
    | (None, s4) =>
        (Blocked (mkWaiter id command (nextChan s)
                    (if timeout =? 0 then DefaultTimeout else timeout)
                    (stopChan s4)), s4)
    end.
Proof.
  intros Hconn Hport id s3. unfold SendCommand.
  rewrite Hconn, (bool_decide_eq_false_2 _ Hport). reflexivity.
Qed.

(** A response-expecting command on a connected transport whose write
    succeeds: the caller blocks, the entry is in the table, one tagged line
    has been written. *)
Lemma SendCommand_blocks (command : string) (timeout : Z) (env : SendEnv)
    (s : SerialTransport) :
  isConnected s = true -> serialPort s = Some PortOpen -> writeErr env = None ->
  exists s',
    SendCommand command true timeout env s
    = (Blocked (mkWaiter (nextID s) command (nextChan s)
                  (if timeout =? 0 then DefaultTimeout else timeout)
                  (stopChan s)), s')
    /\ pendingCommands s'
       = <[nextID s := mkPending (nextID s) command (nextChan s) (clock env)]>
           (pendingCommands s)
    /\ resultChans s' = resultChans s
    /\ nextChan s' = S (nextChan s)
    /\ commandCounter s' = nextID s
    /\ io s' = io s ++ [IOWrite (taggedCommand command (nextID s))]
    /\ sameControl s s' /\ serialPort s' = serialPort s.
Proof.
  intros Hconn Hport Hw.
  rewrite (SendCommand_expect_unfold command timeout env s Hconn)
    by (rewrite Hport; discriminate).
  cbv zeta. unfold portWrite.
  cbn [serialPort with_pendingCommands with_nextChan with_commandCounter].
  rewrite Hport, Hw. cbn [fmap option_fmap option_map].
  eexists. split; [reflexivity|]. repeat split; exact Hport.
Qed.

(** X2. When the write of a response-expecting command fails, [SendCommand]
    returns the error of that write without blocking: the channel's own
    error when the port is open, the closed-port error when the handle is
    closed. Provided the new id was not already pending, the pending table
    is exactly what it was; the id counter has advanced all the same and
    the tagged line was handed to the channel. *)
Theorem SendCommand_write_failure_rolls_back
    (command msg : string) (timeout : Z) (env : SendEnv) (s : SerialTransport) :
  isConnected s = true ->
  (serialPort s = Some PortClosed /\ msg = "port closed"%string)
  \/ (serialPort s = Some PortOpen /\ writeErr env = Some msg) ->
  pendingCommands s !! nextID s = None ->
  exists s',
    SendCommand command true timeout env s
    = (Returned EmptyString (Some (SerialError msg)), s')
    /\ pendingCommands s' = pendingCommands s
    /\ commandCounter s' = nextID s
    /\ io s' = io s ++ [IOWrite (taggedCommand command (nextID s))].
Proof.
  intros Hconn Hfail Hfree.
  rewrite (SendCommand_expect_unfold command timeout env s Hconn)
    by (destruct Hfail as [[-> _] | [-> _]]; discriminate).
  cbv zeta. unfold portWrite.
  cbn [serialPort with_pendingCommands with_nextChan with_commandCounter].
  assert (Hdel : forall v : PendingCommand,
            delete (nextID s) (<[nextID s := v]> (pendingCommands s))
            = pendingCommands s).
  { intros v. rewrite delete_insert_eq. apply delete_id. exact Hfree. }
  destruct Hfail as [[-> ->] | [-> ->]].
  - eexists. split; [reflexivity|]. cbn. rewrite Hdel. repeat split.
  - cbn [fmap option_fmap option_map].
    eexists. split; [reflexivity|]. cbn. rewrite Hdel. repeat split.
Qed.

Lemma SendCommand_write_failure_witness :
  exists s',
    SendCommand "km.version()" true 0 (mkSendEnv (Some "i/o error"%string) 0)
      connected
    = (Returned EmptyString (Some (SerialError "i/o error")), s')
    /\ pendingCommands s' = ∅.
Proof.
  assert (H1 : isConnected connected = true) by reflexivity.
  assert (H2 : (serialPort connected = Some PortClosed
                /\ "i/o error"%string = "port closed"%string)
               \/ (serialPort connected = Some PortOpen
                   /\ writeErr (mkSendEnv (Some "i/o error"%string) 0)
                      = Some "i/o error"%string)).
  { right. split; reflexivity. }
  assert (H3 : pendingCommands connected !! nextID connected = None).
  { cbn [connected pendingCommands with_serialPort with_isConnected
         NewSerialTransport]. apply lookup_empty. }
  destruct (SendCommand_write_failure_rolls_back "km.version()" "i/o error" 0
              (mkSendEnv (Some "i/o error"%string) 0) connected H1 H2 H3)
    as (s' & Heq & Hp & _).
  exists s'. split; [exact Heq | exact Hp].
Defined.

(** X3. A full round trip. On a connected transport with nothing pending,
    a response-expecting command blocks its caller; when the read loop then
    routes a non-empty line other than the command's own text, the result
    case of the caller's [select] returns that line cut at its first ["#"]
    with no error, and afterwards nothing is pending and the caller's
    channel is empty again. *)
Theorem SendCommand_round_trip
    (command content : string) (timeout : Z) (env : SendEnv)
    (s : SerialTransport) (ids : list Z) :
  isConnected s = true -> serialPort s = Some PortOpen -> writeErr env = None ->
  pendingCommands s = ∅ -> freshChans s ->
  content <> EmptyString -> content <> command ->
  exists w s1 s2,
    SendCommand command true timeout env s = (Blocked w, s1)
    /\ pendingIDs s1 = [nextID s]
    /\ (ids ≡ₚ pendingIDs s1 ->
        SendCommand_select CaseResult w (processPendingCommandsIn ids content s1)
        = Some ((cutAtHash content, None), s2)
        /\ pendingCommands s2 = ∅
        /\ resultChans s2 !! waitCh w = None).
Proof.
  intros Hconn Hport Hw Hempty Hfresh Hc Hecho.
  destruct (SendCommand_blocks command timeout env s Hconn Hport Hw)
    as (s1 & Hsend & Hp1 & Hc1 & _).
  set (id := nextID s) in *.
  set (p := mkPending id command (nextChan s) (clock env)) in *.
  rewrite Hempty in Hp1.
  exists (mkWaiter id command (nextChan s)
            (if timeout =? 0 then DefaultTimeout else timeout) (stopChan s)), s1.
  assert (Hkeys : pendingIDs s1 = [id]).
  { unfold pendingIDs. rewrite Hp1, insert_empty, map_to_list_singleton.
    reflexivity. }
  eexists. split; [exact Hsend|]. split; [exact Hkeys|]. intros Hperm.
  assert (Hids : ids = [id]).
  { apply Permutation_singleton_r. rewrite Hperm, Hkeys. reflexivity. }
  assert (Hold : findOldest ids = id) by (rewrite Hids; reflexivity).
  assert (Hlook : pendingCommands s1 !! findOldest ids = Some p).
  { rewrite Hold, Hp1. apply lookup_insert_eq. }
  rewrite (processPendingCommandsIn_resolve ids content s1 p Hlook Hc Hecho).
  rewrite Hold. unfold SendCommand_select, resolved.
  cbn [waitCh resultChans with_pendingCommands with_resultChans ResultCh p].
  rewrite chanSend_lookup, Hc1, (Hfresh (nextChan s)) by lia.
  cbn [default]. split; [reflexivity|]. split.
  - cbn. rewrite Hp1, insert_empty. apply delete_singleton_eq.
  - cbn. apply lookup_delete_eq.
Qed.


Lemma connected_freshChans : freshChans connected.
Proof. intros ch _. apply lookup_empty. Qed.

(** The version query answered with ["3.2#1"] returns ["3.2"]. *)
Lemma SendCommand_round_trip_witness :
  exists w s1 s2,
    SendCommand "km.version()" true 0 (mkSendEnv None 0) connected
    = (Blocked w, s1)
    /\ SendCommand_select CaseResult w
         (processPendingCommandsIn [1] "3.2#1" s1)
       = Some (("3.2"%string, None), s2).
Proof.
  assert (H1 : isConnected connected = true) by reflexivity.
  assert (H2 : serialPort connected = Some PortOpen) by reflexivity.
  assert (H3 : pendingCommands connected = ∅) by reflexivity.
  destruct (SendCommand_round_trip "km.version()" "3.2#1" 0 (mkSendEnv None 0)
              connected [1] H1 H2 eq_refl H3 connected_freshChans
              ltac:(discriminate) ltac:(discriminate))
    as (w & s1 & s2 & Hsend & Hkeys & Hrt).
  exists w, s1, s2. split; [exact Hsend|].
  apply Hrt. rewrite Hkeys. reflexivity.
Defined.

(** X4. A blocked caller that times out. With the new id not already
    pending, the caller blocks with the timeout it asked for (100 ms when it
    passed 0); the timer case of its [select] returns a timeout error that
    names the command, and removes the entry, so the table is what it was
    before the call. While the stop channel is open the stop case is not
    ready; after [Disconnect] it is, and returns a connection error. *)
Theorem SendCommand_timeout_restores_table
    (command : string) (timeout : Z) (env : SendEnv) (s : SerialTransport) :
  isConnected s = true -> serialPort s = Some PortOpen -> writeErr env = None ->
  pendingCommands s !! nextID s = None ->
  exists w s1 s2 s3,
    SendCommand command true timeout env s = (Blocked w, s1)
    /\ waitTimeout w = (if timeout =? 0 then DefaultTimeout else timeout)
    /\ SendCommand_select CaseTimeout w s1
       = Some ((EmptyString,
                Some (MakcuError ErrTimeout ("command timed out: " +:+ command))),
               s2)
    /\ pendingCommands s2 = pendingCommands s
    /\ (stopChan s ∉ closedChans s -> SendCommand_select CaseStop w s1 = None)
    /\ SendCommand_select CaseStop w (Disconnect s1)
       = Some ((EmptyString,
                Some (MakcuError ErrConnection
                        "disconnected while waiting for response")), s3)
    /\ pendingCommands s3 = ∅.
Proof.
  intros Hconn Hport Hw Hfree.
  destruct (SendCommand_blocks command timeout env s Hconn Hport Hw)
    as (s1 & Hsend & Hp1 & _ & _ & _ & _ & Hctl & Hport1).
  destruct Hctl as (_ & _ & Hstop & Hclosed & _).
  set (w := mkWaiter (nextID s) command (nextChan s)
              (if timeout =? 0 then DefaultTimeout else timeout) (stopChan s)) in *.
  assert (Hdis : closedChans (Disconnect s1) = {[stopChan s1]} ∪ closedChans s1
                 /\ pendingCommands (Disconnect s1) = ∅).
  { unfold Disconnect.
    cbn [serialPort with_pendingCommands emit with_io with_closedChans
         with_isConnected].
    destruct (serialPort s1); split; reflexivity. }
  destruct Hdis as [Hdc Hdp].
  exists w, s1. eexists _, _. split; [exact Hsend|]. split; [reflexivity|].
  split; [reflexivity|]. split; [|split; [|split]].
  - cbn. rewrite Hp1, delete_insert_eq. apply delete_id, Hfree.
  - intros Hopen. unfold SendCommand_select. cbn [waitStop w].
    rewrite bool_decide_eq_false_2; [reflexivity|]. rewrite Hclosed. exact Hopen.
  - unfold SendCommand_select. cbn [waitStop w].
    rewrite bool_decide_eq_true_2; [reflexivity|].
    rewrite Hdc, Hstop. apply elem_of_union. left. apply elem_of_singleton.
    reflexivity.
  - cbn. rewrite Hdp. apply delete_empty.
Qed.

Lemma SendCommand_timeout_witness :
  exists w s1 s2,
    SendCommand "km.lock_ml()" true (50 * Millisecond) (mkSendEnv None 0)
      twoPending = (Blocked w, s1)
    /\ SendCommand_select CaseTimeout w s1
       = Some ((EmptyString,
                Some (MakcuError ErrTimeout "command timed out: km.lock_ml()")),
               s2)
    /\ pendingCommands s2 = pendingCommands twoPending.
Proof.
  assert (H1 : isConnected twoPending = true) by reflexivity.
  assert (H2 : serialPort twoPending = Some PortOpen) by reflexivity.
  assert (H3 : pendingCommands twoPending !! nextID twoPending = None).
  { destruct (pendingCommands twoPending !! nextID twoPending) as [p|] eqn:E;
      [|reflexivity].
    destruct (twoPending_lookup _ _ E) as [[Hid _]|[Hid _]]; discriminate Hid. }
  destruct (SendCommand_timeout_restores_table "km.lock_ml()" (50 * Millisecond)
              (mkSendEnv None 0) twoPending H1 H2 eq_refl H3)
    as (w & s1 & s2 & s3 & Hsend & _ & Htimeout & Hp & _).
  exists w, s1, s2. split; [exact Hsend|]. split; [exact Htimeout | exact Hp].
Defined.

(** ** Two commands outstanding *)

(** The transport after two response-expecting commands sent back to back
    on an empty table. *)
Lemma two_commands_sent (cmd1 cmd2 : string) (t1 t2 : Z) (env1 env2 : SendEnv)
    (s : SerialTransport) :
  isConnected s = true -> serialPort s = Some PortOpen ->
  writeErr env1 = None -> writeErr env2 = None ->
  pendingCommands s = ∅ -> 0 <= commandCounter s < 10000 ->
  let id1 := (commandCounter s + 1) mod 10000 in
  let id2 := (commandCounter s + 2) mod 10000 in
  let p1 := mkPending id1 cmd1 (nextChan s) (clock env1) in
  let p2 := mkPending id2 cmd2 (S (nextChan s)) (clock env2) in
  exists w1 s1 w2 s2,
    SendCommand cmd1 true t1 env1 s = (Blocked w1, s1)
    /\ SendCommand cmd2 true t2 env2 s1 = (Blocked w2, s2)
    /\ waitCh w1 = nextChan s /\ waitCh w2 = S (nextChan s)
    /\ waitID w1 = id1 /\ waitID w2 = id2
    /\ pendingCommands s2 = <[id2 := p2]> {[id1 := p1]}
    /\ resultChans s2 = resultChans s.
Proof.
  intros Hconn Hport Hw1 Hw2 Hempty Hc id1 id2 p1 p2.
  destruct (SendCommand_blocks cmd1 t1 env1 s Hconn Hport Hw1)
    as (s1 & Hsend1 & Hp1 & Hr1 & Hn1 & Hk1 & _ & Hctl1 & Hport1).
  assert (Hconn1 : isConnected s1 = true) by (destruct Hctl1 as [-> _]; exact Hconn).
  rewrite Hport in Hport1.
  destruct (SendCommand_blocks cmd2 t2 env2 s1 Hconn1 Hport1 Hw2)
    as (s2 & Hsend2 & Hp2 & Hr2 & _).
  assert (Hid1 : nextID s = id1).
  { unfold nextID. apply Z.rem_mod_nonneg; lia. }
  assert (Hid2 : nextID s1 = id2).
  { unfold nextID. rewrite Hk1, Hid1. rewrite Z.rem_mod_nonneg;
      [|pose proof (Z.mod_pos_bound (commandCounter s + 1) 10000); lia|lia].
    subst id1 id2. rewrite Z.add_mod_idemp_l by lia. f_equal. lia. }
  eexists _, s1, _, s2. split; [exact Hsend1|]. split; [exact Hsend2|].
  cbn [waitCh waitID]. rewrite Hn1, Hid1, Hid2.
  repeat split; [|congruence].
  rewrite Hp2, Hp1, Hempty, Hid1, Hid2, Hn1, insert_empty. reflexivity.
Qed.

(** X5. Responses are matched first in, first out while the id counter does
    not wrap. With nothing pending and the counter at most 9997, two
    response-expecting commands are sent back to back; the first line
    routed afterwards lands in the first caller's channel and the second
    line in the second caller's, whatever the iteration order of the map,
    and the table ends empty. *)
Theorem two_commands_first_in_first_out
    (cmd1 cmd2 c1 c2 : string) (t1 t2 : Z) (env1 env2 : SendEnv)
    (s : SerialTransport) :
  isConnected s = true -> serialPort s = Some PortOpen ->
  writeErr env1 = None -> writeErr env2 = None ->
  pendingCommands s = ∅ -> freshChans s ->
  0 <= commandCounter s <= 9997 ->
  c1 <> EmptyString -> c1 <> cmd1 -> c2 <> EmptyString -> c2 <> cmd2 ->
  exists w1 s1 w2 s2,
    SendCommand cmd1 true t1 env1 s = (Blocked w1, s1)
    /\ SendCommand cmd2 true t2 env2 s1 = (Blocked w2, s2)
    /\ forall ids ids',
         ids ≡ₚ pendingIDs s2 ->
         ids' ≡ₚ pendingIDs (processPendingCommandsIn ids c1 s2) ->
         let s4 := processPendingCommandsIn ids' c2
                     (processPendingCommandsIn ids c1 s2) in
         resultChans s4 !! waitCh w1 = Some c1
         /\ resultChans s4 !! waitCh w2 = Some c2
         /\ pendingCommands s4 = ∅.
Proof.
  intros Hconn Hport Hw1 Hw2 Hempty Hfresh Hc Hc1 He1 Hc2 He2.
  destruct (two_commands_sent cmd1 cmd2 t1 t2 env1 env2 s Hconn Hport Hw1 Hw2
              Hempty ltac:(lia))
    as (w1 & s1 & w2 & s2 & Hs1 & Hs2 & Hch1 & Hch2 & _ & _ & Hp2 & Hr2).
  rewrite !Z.mod_small in Hp2 by lia.
  set (id1 := commandCounter s + 1) in *. set (id2 := commandCounter s + 2) in *.
  set (p1 := mkPending id1 cmd1 (nextChan s) (clock env1)) in *.
  set (p2 := mkPending id2 cmd2 (S (nextChan s)) (clock env2)) in *.
  exists w1, s1, w2, s2. split; [exact Hs1|]. split; [exact Hs2|].
  intros ids ids' Hperm Hperm'.
  assert (Hl1 : pendingCommands s2 !! id1 = Some p1).
  { rewrite Hp2, lookup_insert_ne by (subst id1 id2; lia).
    apply lookup_singleton_eq. }
  assert (Hvalid : validIDs s2).
  { intros id [p Hp]. rewrite Hp2 in Hp.
    apply lookup_insert_Some in Hp as [[<- _]|[_ Hp]]; [subst id2; lia|].
    apply lookup_singleton_Some in Hp as [<- _]. subst id1; lia. }
  assert (Hne : pendingCommands s2 <> ∅).
  { intros H. rewrite H, lookup_empty in Hl1. discriminate. }
  destruct (findOldest_is_key s2 ids Hperm Hvalid Hne) as (p & Hp & Hmin).
  assert (Hold : findOldest ids = id1).
  { pose proof (Hmin id1 (ex_intro _ p1 Hl1)) as Hle.
    rewrite Hp2 in Hp. apply lookup_insert_Some in Hp as [[Heq _]|[_ Hp]].
    - subst id1 id2. lia.
    - apply lookup_singleton_Some in Hp as [Heq _]. congruence. }
  rewrite Hold in Hp. rewrite Hl1 in Hp. injection Hp as <-.
  rewrite <- Hold in Hl1.
  rewrite (processPendingCommandsIn_resolve ids c1 s2 p1 Hl1 Hc1 He1) in *.
  rewrite Hold in *. clear Hl1.
  set (s3 := resolved id1 p1 c1 s2) in *.
  assert (Hp3 : pendingCommands s3 = {[id2 := p2]}).
  { subst s3. cbn. rewrite Hp2, delete_insert_ne by (subst id1 id2; lia).
    rewrite delete_singleton_eq. apply insert_empty. }
  assert (Hr3 : resultChans s3 = <[nextChan s := c1]> (resultChans s)).
  { subst s3. cbn. unfold chanSend. rewrite Hr2, (Hfresh (nextChan s)) by lia.
    reflexivity. }
  assert (Hids' : ids' = [id2]).
  { apply Permutation_singleton_r. rewrite Hperm'. unfold pendingIDs.
    rewrite Hp3, map_to_list_singleton. reflexivity. }
  assert (Hl2 : pendingCommands s3 !! findOldest ids' = Some p2).
  { rewrite Hids'. change (findOldest [id2]) with id2. rewrite Hp3.
    apply lookup_singleton_eq. }
  cbv zeta.
  rewrite (processPendingCommandsIn_resolve ids' c2 s3 p2 Hl2 Hc2 He2).
  rewrite Hids'. change (findOldest [id2]) with id2.
  unfold resolved. cbn [resultChans pendingCommands with_pendingCommands
                        with_resultChans ResultCh p2].
  rewrite Hr3, Hp3, Hch1, Hch2. unfold chanSend.
  rewrite lookup_insert_ne, (Hfresh (S (nextChan s))) by lia.
  split; [|split].
  - rewrite lookup_insert_ne by lia. apply lookup_insert_eq.
  - apply lookup_insert_eq.
  - apply delete_singleton_eq.
Qed.

Lemma two_commands_fifo_witness :
  exists w1 s1 w2 s2,
    SendCommand "km.lock_ml()" true 0 (mkSendEnv None 0) connected
    = (Blocked w1, s1)
    /\ SendCommand "km.lock_mr()" true 0 (mkSendEnv None 5) s1 = (Blocked w2, s2)
    /\ resultChans
         (processPendingCommands "0" (processPendingCommands "1" s2))
       !! waitCh w1 = Some "1"%string
    /\ resultChans
         (processPendingCommands "0" (processPendingCommands "1" s2))
       !! waitCh w2 = Some "0"%string.
Proof.
  assert (H1 : isConnected connected = true) by reflexivity.
  assert (H2 : serialPort connected = Some PortOpen) by reflexivity.
  assert (H3 : pendingCommands connected = ∅) by reflexivity.
  assert (H4 : 0 <= commandCounter connected <= 9997) by (cbn; lia).
  destruct (two_commands_first_in_first_out "km.lock_ml()" "km.lock_mr()"
              "1" "0" 0 0 (mkSendEnv None 0) (mkSendEnv None 5) connected
              H1 H2 eq_refl eq_refl H3 connected_freshChans H4
              ltac:(discriminate) ltac:(discriminate)
              ltac:(discriminate) ltac:(discriminate))
    as (w1 & s1 & w2 & s2 & Hs1 & Hs2 & Hroute).
  exists w1, s1, w2, s2. split; [exact Hs1|]. split; [exact Hs2|].
  destruct (Hroute (pendingIDs s2) (pendingIDs (processPendingCommands "1" s2))
              (reflexivity _) (reflexivity _)) as (Ha & Hb & _).
  split; [exact Ha | exact Hb].
Defined.

(** X6. At the wrap of the id counter the order is inverted. With nothing
    pending and the counter at 9998, two commands sent back to back get ids
    9999 and 0; the first line routed afterwards goes to the second
    command, the one with the lower id, and the first command stays
    pending with an empty channel. *)
Theorem two_commands_inverted_at_wrap
    (cmd1 cmd2 c1 : string) (t1 t2 : Z) (env1 env2 : SendEnv)
    (s : SerialTransport) :
  isConnected s = true -> serialPort s = Some PortOpen ->
  writeErr env1 = None -> writeErr env2 = None ->
  pendingCommands s = ∅ -> freshChans s ->
  commandCounter s = 9998 ->
  c1 <> EmptyString -> c1 <> cmd2 ->
  exists w1 s1 w2 s2,
    SendCommand cmd1 true t1 env1 s = (Blocked w1, s1)
    /\ SendCommand cmd2 true t2 env2 s1 = (Blocked w2, s2)
    /\ waitID w1 = 9999 /\ waitID w2 = 0
    /\ forall ids, ids ≡ₚ pendingIDs s2 ->
         let s3 := processPendingCommandsIn ids c1 s2 in
         resultChans s3 !! waitCh w2 = Some c1
         /\ resultChans s3 !! waitCh w1 = None
         /\ is_Some (pendingCommands s3 !! waitID w1)
         /\ pendingCommands s3 !! waitID w2 = None.
Proof.
  intros Hconn Hport Hw1 Hw2 Hempty Hfresh Hc Hc1 He2.
  destruct (two_commands_sent cmd1 cmd2 t1 t2 env1 env2 s Hconn Hport Hw1 Hw2
              Hempty ltac:(lia))
    as (w1 & s1 & w2 & s2 & Hs1 & Hs2 & Hch1 & Hch2 & Hi1 & Hi2 & Hp2 & Hr2).
  rewrite Hc in Hi1, Hi2, Hp2.
  change ((9998 + 1) mod 10000) with 9999 in *.
  change ((9998 + 2) mod 10000) with 0 in *.
  set (p1 := mkPending 9999 cmd1 (nextChan s) (clock env1)) in *.
  set (p2 := mkPending 0 cmd2 (S (nextChan s)) (clock env2)) in *.
  exists w1, s1, w2, s2. split; [exact Hs1|]. split; [exact Hs2|].
  split; [exact Hi1|]. split; [exact Hi2|].
  intros ids Hperm.
  assert (Hl2 : pendingCommands s2 !! 0 = Some p2).
  { rewrite Hp2. apply lookup_insert_eq. }
  assert (Hvalid : validIDs s2).
  { intros id [p Hp]. rewrite Hp2 in Hp.
    apply lookup_insert_Some in Hp as [[<- _]|[_ Hp]]; [lia|].
    apply lookup_singleton_Some in Hp as [<- _]. lia. }
  assert (Hne : pendingCommands s2 <> ∅).
  { intros H. rewrite H, lookup_empty in Hl2. discriminate. }
  destruct (findOldest_is_key s2 ids Hperm Hvalid Hne) as (p & Hp & Hmin).
  assert (Hold : findOldest ids = 0).
  { pose proof (Hmin 0 (ex_intro _ p2 Hl2)) as Hle.
    assert (0 <= findOldest ids) by (apply Hvalid; eauto). lia. }
  rewrite <- Hold in Hl2. cbv zeta.
  rewrite (processPendingCommandsIn_resolve ids c1 s2 p2 Hl2 Hc1 He2).
  rewrite Hold. unfold resolved.
  cbn [resultChans pendingCommands with_pendingCommands with_resultChans
       ResultCh p2].
  rewrite Hr2, Hp2, Hch1, Hch2, Hi1, Hi2. unfold chanSend.
  rewrite (Hfresh (S (nextChan s))) by lia.
  split; [apply lookup_insert_eq|]. split; [|split].
  - rewrite lookup_insert_ne by lia. apply Hfresh. lia.
  - exists p1. rewrite delete_insert_eq, lookup_delete_ne by lia.
    apply lookup_singleton_eq.
  - apply lookup_delete_eq.
Qed.

Lemma two_commands_wrap_witness :
  exists w1 s1 w2 s2,
    SendCommand "km.lock_ml()" true 0 (mkSendEnv None 0)
      (with_commandCounter 9998 connected) = (Blocked w1, s1)
    /\ SendCommand "km.lock_mr()" true 0 (mkSendEnv None 5) s1 = (Blocked w2, s2)
    /\ resultChans (processPendingCommands "1" s2) !! waitCh w2
       = Some "1"%string
    /\ resultChans (processPendingCommands "1" s2) !! waitCh w1 = None.
Proof.
  assert (H1 : isConnected (with_commandCounter 9998 connected) = true)
    by reflexivity.
  assert (H2 : serialPort (with_commandCounter 9998 connected) = Some PortOpen)
    by reflexivity.
  assert (H3 : pendingCommands (with_commandCounter 9998 connected) = ∅)
    by reflexivity.
  assert (H4 : freshChans (with_commandCounter 9998 connected)).
  { intros ch _. apply lookup_empty. }
  destruct (two_commands_inverted_at_wrap "km.lock_ml()" "km.lock_mr()" "1"
              0 0 (mkSendEnv None 0) (mkSendEnv None 5)
              (with_commandCounter 9998 connected) H1 H2 eq_refl eq_refl H3 H4
              eq_refl ltac:(discriminate) ltac:(discriminate))
    as (w1 & s1 & w2 & s2 & Hs1 & Hs2 & _ & _ & Hroute).
  exists w1, s1, w2, s2. split; [exact Hs1|]. split; [exact Hs2|].
  destruct (Hroute (pendingIDs s2) (reflexivity _)) as (Ha & Hb & _).
  split; [exact Ha | exact Hb].
Defined.

(** ** Closing and opening the connection *)

Lemma Disconnect_fields (s : SerialTransport) :
  isConnected (Disconnect s) = false
  /\ serialPort (Disconnect s) = None
  /\ pendingCommands (Disconnect s) = ∅
  /\ closedChans (Disconnect s) = {[stopChan s]} ∪ closedChans s
  /\ stopChan (Disconnect s) = stopChan s
  /\ resultChans (Disconnect s) = resultChans s
  /\ io (Disconnect s)
     = io s ++ IOSleep (10 * Millisecond)
            :: match serialPort s with Some _ => [IOClose] | None => [] end.
Proof.
  unfold Disconnect.
  cbn [serialPort with_pendingCommands emit with_io with_closedChans
       with_isConnected].
  destruct (serialPort s) as [h|] eqn:E.
  - cbn. rewrite <- app_assoc. repeat split.
  - cbn. repeat split. exact E.
Qed.

(** X7. [Disconnect] leaves the transport disconnected with no port, an
    empty pending table and its stop channel closed, without touching any
    result channel; it closes the port only if there was one. Afterwards
    the read loop leaves at its next turn without reading, and every
    [SendCommand] fails at once with a connection error and no effect. *)
Theorem Disconnect_tears_down (s : SerialTransport) :
  let s' := Disconnect s in
  IsConnected s' = false
  /\ serialPort s' = None
  /\ pendingCommands s' = ∅
  /\ stopChan s ∈ closedChans s'
  /\ resultChans s' = resultChans s
  /\ io s' = io s ++ IOSleep (10 * Millisecond)
                  :: match serialPort s with Some _ => [IOClose] | None => [] end
  /\ (forall t l, listenTurn t l s' = Exited s')
  /\ (forall command expectResponse timeout env,
        SendCommand command expectResponse timeout env s'
        = (Returned EmptyString (Some (MakcuError ErrConnection "not connected")),
           s')).
Proof.
  intros s'.
  destruct (Disconnect_fields s) as (Hc & Hp & Ht & Hcl & _ & Hr & Hio).
  fold s' in Hc, Hp, Ht, Hcl, Hr, Hio.
  split; [unfold IsConnected; rewrite Hc; reflexivity|].
  split; [exact Hp|]. split; [exact Ht|]. split.
  { rewrite Hcl. apply elem_of_union. left. apply elem_of_singleton. reflexivity. }
  split; [exact Hr|]. split; [exact Hio|]. split.
  - intros t l. unfold listenTurn. rewrite Hc. reflexivity.
  - intros command e timeout env. unfold SendCommand. rewrite Hc. reflexivity.
Qed.

Lemma emit_io (e : IOEvent) (s : SerialTransport) : io (emit e s) = io s ++ [e].
Proof. reflexivity. Qed.

Lemma FindCOMPort_io (ports : option (list PortInfo)) (s : SerialTransport) :
  io (FindCOMPort ports s).2
  = io s ++ (if overridePort s then [] else [IOListPorts]).
Proof.
  unfold FindCOMPort. destruct (overridePort s).
  - cbn [snd]. symmetry. apply app_nil_r.
  - destruct ports as [ps|]; [destruct (List.find isTarget ps)|];
      try destruct (negb _); reflexivity.
Qed.

(** The handshake on a freshly opened port when both steps succeed. *)
Lemma changeBaudTo4M_ok (env : ConnectEnv) (s : SerialTransport) :
  serialPort s = Some PortOpen ->
  envBaudWriteErr env = None -> envSetModeOK env = true ->
  exists s',
    changeBaudTo4M env s = (None, s')
    /\ io s' = io s ++ [IOWrite baudChangeCommand; IOSleep (20 * Millisecond);
                        IOSetMode 4000000]
    /\ currentBaud s' = 4000000
    /\ Port s' = Port s /\ sendInit s' = sendInit s
    /\ nextChan s' = nextChan s /\ closedChans s' = closedChans s
    /\ serialPort s' = Some PortOpen.
Proof.
  intros Hport Hw Hm. unfold changeBaudTo4M, portWrite.
  rewrite Hport, Hw, Hm. cbn [fmap option_fmap option_map].
  eexists. split; [reflexivity|]. cbn. rewrite <- !app_assoc.
  repeat split. exact Hport.
Qed.

Lemma writeInit_io (s : SerialTransport) :
  io (writeInit s)
  = io s ++ (if sendInit s
             then [IOWrite ("km.buttons(1)" +:+ String CR EmptyString)] else []).
Proof.
  unfold writeInit. destruct (sendInit s); [reflexivity|].
  symmetry. apply app_nil_r.
Qed.

(** X8. [Connect] on a disconnected transport, when a port is resolved
    (the fallback port under override, otherwise a non-empty port found
    without error), the port opens and both handshake steps succeed:
    it returns nil, and the calls made are, in this order, the port listing
    (unless overridden), the open of the resolved port, the write of the
    nine magic bytes, a 20 ms sleep, the switch to 4000000 baud, the
    initialization command if configured, and the 1 ms read timeout. The
    transport is then connected at 4000000 baud on that port, with the
    attempt counter at 0 and a new stop channel. *)
Theorem Connect_handshake (env : ConnectEnv) (s : SerialTransport) (port : string) :
  isConnected s = false ->
  (overridePort s = true /\ port = fallbackPort s)
  \/ (overridePort s = false
      /\ (FindCOMPort (envPorts env) s).1 = (port, None)
      /\ port <> EmptyString) ->
  envOpenOK env = true -> envBaudWriteErr env = None ->
  envSetModeOK env = true ->
  let s' := (Connect env s).2 in
  (Connect env s).1 = None
  /\ io s'
     = io s ++ (if overridePort s then [] else [IOListPorts])
         ++ [IOOpen port; IOWrite baudChangeCommand;
             IOSleep (20 * Millisecond); IOSetMode 4000000]
         ++ (if sendInit s
             then [IOWrite ("km.buttons(1)" +:+ String CR EmptyString)] else [])
         ++ [IOSetReadTimeout Millisecond]
  /\ IsConnected s' = true
  /\ Port s' = port
  /\ currentBaud s' = 4000000
  /\ reconnectAttempts s' = 0
  /\ stopChan s' = nextChan s
  /\ closedChans s' = closedChans s.
Proof.
  intros Hdis Hres Hopen Hw Hm.
  assert (Hresolved :
    exists s1,
      (if overridePort s then inr (with_Port (fallbackPort s) s)
       else match FindCOMPort (envPorts env) s with
            | ((_, Some err), s1) => inl (err, s1)
            | ((port, None), s1) =>
                if streq port EmptyString
                then inl (NewConnectionError "Makcu device not found", s1)
                else inr (with_Port port s1)
            end) = (inr (with_Port port s1) : error * SerialTransport + SerialTransport)
      /\ io s1 = io s ++ (if overridePort s then [] else [IOListPorts])
      /\ sendInit s1 = sendInit s /\ nextChan s1 = nextChan s
      /\ closedChans s1 = closedChans s).
  { destruct Hres as [[Ho ->] | (Ho & Hf & Hne)]; rewrite Ho.
    - exists s. split; [reflexivity|]. rewrite app_nil_r. repeat split.
    - pose proof (FindCOMPort_io (envPorts env) s) as Hio. rewrite Ho in Hio.
      destruct (FindCOMPort_view (envPorts env) s) as (Hcfg & _).
      destruct (table_eq _ _ (FindCOMPort_frame (envPorts env) s))
        as (_ & _ & Hn & _).
      destruct (FindCOMPort (envPorts env) s) as [[port' err] s1].
      cbn [fst snd] in *. injection Hf as -> ->.
      rewrite (proj2 (streq_false _ _) Hne).
      exists s1. unfold config in Hcfg. injection Hcfg as _ _ _ Hsi _ Hcl.
      repeat split; assumption. }
  destruct Hresolved as (s1 & Hr & Hio1 & Hsi1 & Hn1 & Hcl1).
  cbv zeta. unfold Connect. rewrite Hdis, Hr, Hopen. cbn [negb].
  set (s2 := with_serialPort (Some PortOpen)
               (emit (IOOpen (Port (with_Port port s1))) (with_Port port s1))).
  destruct (changeBaudTo4M_ok env s2 eq_refl Hw Hm)
    as (s3 & -> & Hio3 & Hbaud & Hport3 & Hsi3 & Hn3 & Hcl3 & Hsp3).
  cbn [fst snd].
  set (s4 := with_reconnectAttempts 0 (with_isConnected true s3)).
  pose proof (writeInit_io s4) as Hio5.
  destruct (writeInit_view s4) as (Hcfg5 & Hconn5 & Hat5 & Hsp5).
  destruct (table_eq _ _ (writeInit_frame s4)) as (_ & _ & Hn5 & _).
  assert (Hmisc : Port (writeInit s4) = Port s4
                  /\ currentBaud (writeInit s4) = currentBaud s4).
  { unfold writeInit. destruct (sendInit s4); split; reflexivity. }
  destruct Hmisc as [Hport5 Hbaud5].
  set (s5 := writeInit s4) in *.
  unfold config in Hcfg5. injection Hcfg5 as _ _ _ Hsi5 _ Hcl5.
  split; [reflexivity|]. split; [|split; [|split; [|split; [|split; [|split]]]]].
  - cbn [io with_nextChan with_stopChan]. rewrite emit_io, Hio5.
    change (io s4) with (io s3). change (sendInit s4) with (sendInit s3).
    rewrite Hio3, Hsi3.
    change (io s2) with (io s1 ++ [IOOpen port]).
    change (sendInit s2) with (sendInit s1).
    rewrite Hio1, Hsi1, <- !app_assoc. reflexivity.
  - unfold IsConnected. cbn [isConnected serialPort with_nextChan with_stopChan
                              emit with_io].
    rewrite Hconn5, Hsp5. change (serialPort s4) with (serialPort s3).
    rewrite Hsp3. reflexivity.
  - cbn [Port with_nextChan with_stopChan emit with_io]. rewrite Hport5.
    change (Port s4) with (Port s3). rewrite Hport3. reflexivity.
  - cbn [currentBaud with_nextChan with_stopChan emit with_io]. rewrite Hbaud5.
    exact Hbaud.
  - cbn [reconnectAttempts with_nextChan with_stopChan emit with_io].
    rewrite Hat5. reflexivity.
  - cbn [stopChan nextChan with_nextChan with_stopChan emit with_io].
    rewrite Hn5. change (nextChan s4) with (nextChan s3). rewrite Hn3.
    exact Hn1.
  - cbn [closedChans with_nextChan with_stopChan emit with_io].
    rewrite Hcl5. change (closedChans s4) with (closedChans s3). rewrite Hcl3.
    exact Hcl1.
Qed.

(** With the port overridden to COM7: open, handshake, init, read timeout. *)
Lemma Connect_handshake_witness :
  let s := NewSerialTransport "COM7" true true true in
  let env := mkConnectEnv None true None true in
  (Connect env s).1 = None
  /\ io (Connect env s).2
     = [IOOpen "COM7"; IOWrite baudChangeCommand; IOSleep (20 * Millisecond);
        IOSetMode 4000000;
        IOWrite ("km.buttons(1)" +:+ String CR EmptyString);
        IOSetReadTimeout Millisecond]
  /\ IsConnected (Connect env s).2 = true.
Proof.
  intros s env.
  assert (H1 : isConnected s = false) by reflexivity.
  assert (H2 : (overridePort s = true /\ "COM7"%string = fallbackPort s)
               \/ (overridePort s = false
                   /\ (FindCOMPort (envPorts env) s).1 = ("COM7"%string, None)
                   /\ "COM7"%string <> EmptyString)).
  { left. split; reflexivity. }
  destruct (Connect_handshake env s "COM7" H1 H2 eq_refl eq_refl eq_refl)
    as (Hok & Hio & Hconn & _).
  split; [exact Hok|]. split; [exact Hio | exact Hconn].
Defined.

(** X9. A [Connect] that returns an error was made on a disconnected
    transport and leaves it disconnected: the connected flag is still
    false, the pending table, the channels and the id counter are
    untouched, and the port handle is either what it was or nil (the port
    opened for a failed handshake is dropped). *)
Theorem Connect_failure_leaves_disconnected
    (env : ConnectEnv) (s : SerialTransport) :
  (Connect env s).1 <> None ->
  isConnected s = false
  /\ isConnected (Connect env s).2 = false
  /\ pendingCommands (Connect env s).2 = pendingCommands s
  /\ resultChans (Connect env s).2 = resultChans s
  /\ commandCounter (Connect env s).2 = commandCounter s
  /\ (serialPort (Connect env s).2 = serialPort s
      \/ serialPort (Connect env s).2 = None).
Proof.
  intros Hfail.
  destruct (Connect_frame env s) as (Hp & Hr & Hk & _).
  destruct (isConnected s) eqn:Hconn.
  { exfalso. apply Hfail. unfold Connect. rewrite Hconn. reflexivity. }
  split; [reflexivity|]. split; [|split; [exact Hp|split; [exact Hr|split; [exact Hk|]]]];
    clear Hp Hr Hk; revert Hfail; unfold Connect; rewrite Hconn.
  all: set (resolved := if overridePort s then _ else _).
  all: assert (Hres : match resolved with
                      | inl (_, s1) | inr s1 =>
                          isConnected s1 = false /\ serialPort s1 = serialPort s
                      end).
  1,3: subst resolved; destruct (overridePort s); [split; [exact Hconn|reflexivity]|];
       destruct (FindCOMPort_view (envPorts env) s) as (_ & Hi & _ & Hs);
       destruct (FindCOMPort (envPorts env) s) as [[port [err|]] s1];
       cbn [snd] in Hi, Hs; [split; congruence|];
       destruct (streq port EmptyString); cbn; split; congruence.
  all: clearbody resolved; destruct resolved as [[err s1]|s1];
       destruct Hres as [Hi1 Hs1]; [intros _; cbn [snd]; auto|].
  all: destruct (negb (envOpenOK env)); [intros _; cbn; auto|].
  all: set (s2 := with_serialPort _ _);
       destruct (changeBaudTo4M_view env s2) as (_ & Hi3 & _ & _);
       destruct (changeBaudTo4M env s2) as [[e|] s3]; cbn [fst snd] in *;
       [intros _ | intros H; exfalso; apply H; reflexivity].
  - cbn. rewrite Hi3. exact Hi1.
  - right. reflexivity.
Qed.

Lemma Connect_failure_witness :
  let s := NewSerialTransport EmptyString true true false in
  isConnected (Connect (mkConnectEnv (Some []) true None true) s).2 = false
  /\ pendingCommands (Connect (mkConnectEnv (Some []) true None true) s).2 = ∅.
Proof.
  intros s.
  destruct (Connect_failure_leaves_disconnected
              (mkConnectEnv (Some []) true None true) s ltac:(discriminate))
    as (_ & Hc & Hp & _).
  split; [exact Hc | exact Hp].
Defined.

(** ** Port discovery *)

Lemma find_first_target (before after : list PortInfo) (p : PortInfo) :
  Forall (fun q => isTarget q = false) before -> isTarget p = true ->
  List.find isTarget (before ++ p :: after) = Some p.
Proof.
  intros Hb Hp. induction Hb as [|q before Hq _ IH]; cbn.
  - rewrite Hp. reflexivity.
  - rewrite Hq. exact IH.
Qed.

Lemma find_no_target (ps : list PortInfo) :
  Forall (fun q => isTarget q = false) ps -> List.find isTarget ps = None.
Proof.
  induction 1 as [|q ps Hq _ IH]; cbn; [reflexivity|]. rewrite Hq. exact IH.
Qed.

(** X10. [FindCOMPort]. Under override it returns the fallback port
    without listing. Otherwise it lists the ports once and returns the name
    of the first listed port that is USB with vendor 1A86 and product 55D3,
    compared without regard to case, whatever the fallback; with no such
    port, or when listing fails, it returns the fallback port if there is
    one. It returns an error only when listing fails and there is no
    fallback, and an empty port without error when nothing matched and
    there is no fallback. *)
Theorem FindCOMPort_resolution (ports : option (list PortInfo))
    (s : SerialTransport) :
  (overridePort s = true ->
     FindCOMPort ports s = ((fallbackPort s, None), s))
  /\ (overridePort s = false ->
      io (FindCOMPort ports s).2 = io s ++ [IOListPorts]
      /\ (forall before p after,
            ports = Some (before ++ p :: after) ->
            Forall (fun q => isTarget q = false) before ->
            IsUSB p = true -> ToUpper (VID p) = "1A86"%string ->
            ToUpper (PID p) = "55D3"%string ->
            (FindCOMPort ports s).1 = (Name p, None))
      /\ (forall ps, ports = Some ps ->
            Forall (fun q => isTarget q = false) ps ->
            (FindCOMPort ports s).1 = (fallbackPort s, None))
      /\ (ports = None -> fallbackPort s <> EmptyString ->
            (FindCOMPort ports s).1 = (fallbackPort s, None))
      /\ ((FindCOMPort ports s).1.2 <> None <->
            ports = None /\ fallbackPort s = EmptyString)).
Proof.
  split.
  - intros Ho. unfold FindCOMPort. rewrite Ho. reflexivity.
  - intros Ho. split; [rewrite FindCOMPort_io, Ho; reflexivity|].
    unfold FindCOMPort. rewrite Ho. split; [|split; [|split]].
    + intros before p after -> Hb Husb Hvid Hpid.
      rewrite (find_first_target before after p Hb); [reflexivity|].
      unfold isTarget. rewrite Husb, Hvid, Hpid. reflexivity.
    + intros ps -> Hnone. rewrite (find_no_target ps Hnone).
      destruct (streq (fallbackPort s) EmptyString) eqn:E; [|reflexivity].
      apply streq_true in E. rewrite E. reflexivity.
    + intros -> Hfb. rewrite (proj2 (streq_false _ _) Hfb). reflexivity.
    + destruct ports as [ps|].
      * destruct (List.find isTarget ps);
          [|destruct (negb (streq (fallbackPort s) EmptyString))];
          cbn; split; (intros [? _]; discriminate) || (intros H; contradiction).
      * destruct (streq (fallbackPort s) EmptyString) eqn:E; cbn.
        -- apply streq_true in E. split; [auto | discriminate].
        -- apply streq_false in E. split; [contradiction | intros [_ ?]; contradiction].
Qed.

(** A lower-case vendor id still matches, and the first match wins. *)
Lemma FindCOMPort_witness :
  (FindCOMPort
     (Some [mkPortInfo "COM1" "0403" "6001" true;
            mkPortInfo "COM5" "1a86" "55d3" true;
            mkPortInfo "COM9" "1A86" "55D3" true])
     (NewSerialTransport "COM7" true true false)).1
  = ("COM5"%string, None).
Proof.
  refine (proj1 (proj2 (proj2 (FindCOMPort_resolution
                                 (Some [mkPortInfo "COM1" "0403" "6001" true;
                                        mkPortInfo "COM5" "1a86" "55d3" true;
                                        mkPortInfo "COM9" "1A86" "55D3" true])
                                 (NewSerialTransport "COM7" true true false))
                          eq_refl))
            [mkPortInfo "COM1" "0403" "6001" true]
            (mkPortInfo "COM5" "1a86" "55d3" true)
            [mkPortInfo "COM9" "1A86" "55D3" true]
            eq_refl _ eq_refl eq_refl eq_refl).
  repeat constructor.
Defined.

(** ** The read loop *)

(** X11. Without automatic reconnection a failed read ends the read loop
    at once and changes nothing: the connected flag stays set, so the
    transport still reports itself connected although nothing reads the
    stream any more. *)
Theorem listen_ends_on_read_error_without_autoReconnect
    (t : Tick) (rest : list Tick) (l : ListenLocals) (s : SerialTransport) :
  isConnected s = true -> autoReconnect s = false ->
  stopChan s ∉ closedChans s ->
  serialPort s = Some PortClosed
  \/ (serialPort s = Some PortOpen /\ tRead t = ReadErr) ->
  listen (t :: rest) l s = Exited s
  /\ IsConnected s = true.
Proof.
  intros Hconn Hauto Hstop Hread. split.
  - cbn [listen]. unfold listenTurn.
    rewrite Hconn, (bool_decide_eq_false_2 _ Hstop). cbn [negb].
    destruct Hread as [-> | [-> ->]]; rewrite Hauto; reflexivity.
  - unfold IsConnected. rewrite Hconn.
    destruct Hread as [-> | [-> _]]; reflexivity.
Qed.

Lemma listen_read_error_witness :
  listen [mkTick ReadErr (mkConnectEnv None true None true) 0] (listenStart 0)
    (with_serialPort (Some PortOpen)
       (with_isConnected true (NewSerialTransport EmptyString true false false)))
  = Exited (with_serialPort (Some PortOpen)
              (with_isConnected true
                 (NewSerialTransport EmptyString true false false))).
Proof.
  refine (proj1 (listen_ends_on_read_error_without_autoReconnect
                   (mkTick ReadErr (mkConnectEnv None true None true) 0) []
                   (listenStart 0)
                   (with_serialPort (Some PortOpen)
                      (with_isConnected true
                         (NewSerialTransport EmptyString true false false)))
                   eq_refl eq_refl _ (or_intror (conj eq_refl eq_refl)))).
  apply not_elem_of_empty.
Defined.

(** X12. A turn of the read loop that reads no byte does nothing at all:
    in particular it does not sweep the pending table, however long ago the
    last sweep was. Hence over any run of such turns stale commands stay in
    the table. *)
Theorem listen_idle_turns_never_sweep
    (ticks : list Tick) (l : ListenLocals) (s : SerialTransport) :
  isConnected s = true -> stopChan s ∉ closedChans s ->
  serialPort s = Some PortOpen ->
  Forall (fun t => tRead t = ReadOK []) ticks ->
  listen ticks l s = Running l s.
Proof.
  intros Hconn Hstop Hport Hidle.
  induction Hidle as [|t ticks Ht _ IH]; cbn [listen].
  - rewrite Hconn. reflexivity.
  - unfold listenTurn.
    rewrite Hconn, (bool_decide_eq_false_2 _ Hstop), Hport, Ht. exact IH.
Qed.

(** Command 3 of [twoPending] was sent at time 0; two idle turns a minute
    later leave it pending. *)
Lemma listen_idle_witness :
  let t := mkTick (ReadOK []) (mkConnectEnv None true None true)
             (60 * Second) in
  listen [t; t] (listenStart 0) twoPending = Running (listenStart 0) twoPending.
Proof.
  intros t.
  apply (listen_idle_turns_never_sweep [t; t] (listenStart 0) twoPending
           eq_refl (not_elem_of_empty _) eq_refl).
  repeat constructor.
Defined.

(** ** The stream demultiplexer *)

Lemma byteVal_range (c : ascii) : 0 <= byteVal c < 256.
Proof.
  unfold byteVal. pose proof (N_ascii_bounded c). lia.
Qed.

Lemma linePos_length (l : ListenLocals) :
  linePos l = Z.of_nat (String.length (line l)).
Proof. reflexivity. Qed.

Lemma length_append_char (s : string) (c : ascii) :
  String.length (s +:+ String c EmptyString) = S (String.length s).
Proof.
  induction s as [|a s IH]; [reflexivity|].
  change (S (String.length (s +:+ String c EmptyString))
          = S (S (String.length s))).
  rewrite IH. reflexivity.
Qed.

(** Case 2 of the switch. *)
Lemma listenByte_printable (l : ListenLocals) (s : SerialTransport) (c : ascii) :
  printable c = true ->
  listenByte l s c
  = (mkLocals (if linePos l <? 256
               then line l +:+ String c EmptyString else line l)
       true (byteVal c) (lastCleanup l), s).
Proof.
  intros Hp. unfold printable in Hp. unfold listenByte.
  assert (Hnl : (byteVal c =? 10) = false).
  { apply Z.eqb_neq. apply orb_true_iff in Hp as [H|H]; lia. }
  rewrite Hnl, andb_false_r, Hp.
  change (linePos (with_expectingTextMode true l)) with (linePos l).
  destruct (linePos l <? 256); reflexivity.
Qed.

(** Case 5 of the switch. *)
Lemma listenByte_control (l : ListenLocals) (s : SerialTransport) (c : ascii) :
  controlByte c = true ->
  listenByte l s c
  = (mkLocals EmptyString false (byteVal c) (lastCleanup l),
     handleButtonData (byteVal c)
       (if lastByte l =? 13 then handleButtonData 13 s else s)).
Proof.
  intros Hc. unfold controlByte in Hc.
  apply andb_true_iff in Hc as [Hc H13]. apply andb_true_iff in Hc as [Hc H10].
  apply andb_true_iff in Hc as [H32 H9].
  apply negb_true_iff in H13, H10, H9. apply Z.ltb_lt in H32.
  unfold listenByte. rewrite H10, andb_false_r, H9, H13.
  rewrite (proj2 (Z.leb_gt 32 (byteVal c))) by lia.
  reflexivity.
Qed.

(** The locals after any byte. *)
Lemma listenByte_locals (l : ListenLocals) (s : SerialTransport) (c : ascii) :
  lastByte (listenByte l s c).1 = byteVal c
  /\ lastCleanup (listenByte l s c).1 = lastCleanup l
  /\ (line (listenByte l s c).1 = EmptyString
      \/ (line (listenByte l s c).1 = line l
          /\ (line l <> EmptyString ->
              expectingTextMode l = true ->
              expectingTextMode (listenByte l s c).1 = true))
      \/ (expectingTextMode (listenByte l s c).1 = true
          /\ (String.length (line (listenByte l s c).1) <= 256)%nat)).
Proof.
  destruct (printable c) eqn:Hp.
  { rewrite (listenByte_printable l s c Hp). cbn [fst lastByte lastCleanup line
                                                   expectingTextMode].
    split; [reflexivity|]. split; [reflexivity|]. right.
    destruct (Z.ltb_spec (linePos l) 256) as [Hlt|Hge].
    - right. split; [reflexivity|].
      rewrite length_append_char. rewrite linePos_length in Hlt. lia.
    - left. split; [reflexivity|]. intros _ _. reflexivity. }
  unfold printable in Hp. unfold listenByte. rewrite Hp.
  destruct ((lastByte l =? 13) && (byteVal c =? 10)) eqn:H1.
  { destruct (0 <? linePos l) eqn:Hpos.
    - rewrite completeLine_eq. cbn. auto.
    - cbn. split; [reflexivity|]. split; [reflexivity|]. left.
      rewrite linePos_pos in Hpos. apply negb_false_iff, streq_true in Hpos.
      exact Hpos. }
  destruct (byteVal c =? 13) eqn:H13.
  { destruct (expectingTextMode l || (0 <? linePos l)) eqn:He; cbn.
    - split; [reflexivity|]. split; [reflexivity|]. right. left.
      split; reflexivity.
    - split; [reflexivity|]. split; [reflexivity|]. right. left.
      split; [reflexivity|]. intros _ H. exact H. }
  destruct (byteVal c =? 10) eqn:H10.
  2:{ cbn. auto. }
  destruct (looksLikeButtonData l s); [cbn; auto|].
  destruct (lastByte l =? 13).
  { destruct (0 <? linePos l) eqn:Hpos.
    - rewrite completeLine_eq. cbn. auto.
    - cbn. split; [reflexivity|]. split; [reflexivity|]. left.
      rewrite linePos_pos in Hpos. apply negb_false_iff, streq_true in Hpos.
      exact Hpos. }
  destruct (0 <? linePos l) eqn:Hpos; cbn [andb].
  - destruct (expectingTextMode l) eqn:He.
    + rewrite completeLine_eq. cbn. auto.
    + cbn. auto.
  - destruct (expectingTextMode l) eqn:He; [|cbn; auto].
    cbn. split; [reflexivity|]. split; [reflexivity|]. left.
    rewrite linePos_pos in Hpos. apply negb_false_iff, streq_true in Hpos.
    exact Hpos.
Qed.

Lemma listenByte_invariant (l : ListenLocals) (s : SerialTransport) (c : ascii) :
  demuxInvariant l -> demuxInvariant (listenByte l s c).1.
Proof.
  intros (Hlen & Hexp & _).
  destruct (listenByte_locals l s c) as (Hb & _ & Hline).
  pose proof (byteVal_range c) as Hr.
  split; [|split; [|rewrite Hb; lia]].
  - destruct Hline as [-> | [[-> _] | [_ H]]]; [cbn; lia | exact Hlen | exact H].
  - destruct Hline as [-> | [[Heq H] | [H _]]].
    + intros Hne. contradiction.
    + rewrite Heq. intros Hne. apply (H Hne), Hexp, Hne.
    + intros _. exact H.
Qed.

Lemma listenBytes_cons (c : ascii) (bytes : list ascii) (l : ListenLocals)
    (s : SerialTransport) :
  listenBytes (c :: bytes) l s
  = listenBytes bytes (listenByte l s c).1 (listenByte l s c).2.
Proof.
  unfold listenBytes. cbn [fold_left fst snd].
  destruct (listenByte l s c) as [l1 s1]. reflexivity.
Qed.

Lemma listenBytes_app (bs bs' : list ascii) (l : ListenLocals)
    (s : SerialTransport) :
  listenBytes (bs ++ bs') l s
  = listenBytes bs' (listenBytes bs l s).1 (listenBytes bs l s).2.
Proof.
  unfold listenBytes. rewrite fold_left_app.
  destruct (fold_left _ bs (l, s)) as [l1 s1]. reflexivity.
Qed.

(** X13. Between any two bytes the read loop's buffer holds at most 256
    bytes, so the accumulation never writes outside [lineBuffer]; a
    non-empty buffer always comes with the expecting-text flag set; and the
    previous byte is a byte or the start marker -1. Hence the third test of
    the bare-LF case, a non-empty buffer with the flag off, is never true
    when a byte arrives. This holds from the start of [listen] on, whatever
    bytes arrive and whatever the transport does in between. *)
Theorem listen_buffer_stays_in_bounds
    (bytes : list ascii) (l : ListenLocals) (s : SerialTransport) :
  demuxInvariant l ->
  let l' := (listenBytes bytes l s).1 in
  (String.length (line l') <= 256)%nat
  /\ (line l' <> EmptyString -> expectingTextMode l' = true)
  /\ -1 <= lastByte l' < 256
  /\ (0 <? linePos l') && negb (expectingTextMode l') = false
  /\ (forall now, demuxInvariant (listenStart now)).
Proof.
  intros Hinv l'.
  assert (Hfinal : demuxInvariant l').
  { subst l'. revert l s Hinv.
    induction bytes as [|c bytes IH]; intros l s Hinv; [exact Hinv|].
    rewrite listenBytes_cons. apply IH, listenByte_invariant, Hinv. }
  destruct Hfinal as (H1 & H2 & H3).
  split; [exact H1|]. split; [exact H2|]. split; [exact H3|]. split.
  - rewrite linePos_pos.
    destruct (streq (line l') EmptyString) eqn:E; [reflexivity|].
    apply streq_false in E. rewrite (H2 E). reflexivity.
  - intros now. split; [cbn; lia|]. split; [intros H; contradiction H; reflexivity|].
    cbn. lia.
Qed.

Lemma listen_buffer_witness :
  let l' := (listenBytes ["O"; "K"; CR]%char (listenStart 0) connected).1 in
  (String.length (line l') <= 256)%nat /\ -1 <= lastByte l' < 256.
Proof.
  intros l'.
  assert (H0 : demuxInvariant (listenStart 0)).
  { split; [cbn; lia|]. split; [intros H; contradiction H; reflexivity|].
    cbn. lia. }
  destruct (listen_buffer_stays_in_bounds ["O"; "K"; CR]%char (listenStart 0)
              connected H0) as (H1 & _ & H3 & _).
  split; [exact H1 | exact H3].
Defined.

Lemma sliceTo_full (n : nat) (s : string) :
  (String.length s <= n)%nat -> sliceTo n s = s.
Proof.
  revert n. induction s as [|c s IH]; intros n Hn.
  - destruct n; reflexivity.
  - destruct n as [|n]; [cbn in Hn; lia|]. cbn. rewrite IH; [reflexivity|].
    cbn in Hn. lia.
Qed.

Lemma append_assoc_char (a : string) (c : ascii) (b : string) :
  (a +:+ String c EmptyString) +:+ b = a +:+ String c b.
Proof.
  induction a as [|x a IH]; [reflexivity|].
  change (String x ((a +:+ String c EmptyString) +:+ b)
          = String x (a +:+ String c b)).
  rewrite IH. reflexivity.
Qed.

Lemma append_empty (a : string) : a +:+ EmptyString = a.
Proof.
  induction a as [|x a IH]; [reflexivity|].
  change (String x (a +:+ EmptyString) = String x a). rewrite IH. reflexivity.
Qed.

(** A run of printable bytes only fills the buffer, up to its capacity. *)
Lemma listenBytes_printable (text : list ascii) (l : ListenLocals)
    (s : SerialTransport) :
  Forall (fun c => printable c = true) text ->
  (String.length (line l) <= 256)%nat ->
  (listenBytes text l s).2 = s
  /\ line (listenBytes text l s).1
     = sliceTo 256 (line l +:+ string_of_list_ascii text)
  /\ lastCleanup (listenBytes text l s).1 = lastCleanup l
  /\ (text <> [] -> expectingTextMode (listenBytes text l s).1 = true)
  /\ (text = [] -> listenBytes text l s = (l, s)).
Proof.
  intros Hp. revert l. induction Hp as [|c text Hc _ IH]; intros l Hlen.
  - change (listenBytes [] l s) with (l, s).
    cbn [fst snd string_of_list_ascii].
    split; [reflexivity|]. split.
    + rewrite append_empty. symmetry. apply sliceTo_full, Hlen.
    + split; [reflexivity|]. split; [intros H; contradiction | reflexivity].
  - rewrite listenBytes_cons, (listenByte_printable l s c Hc). cbn [fst snd].
    set (l1 := mkLocals _ true (byteVal c) (lastCleanup l)).
    assert (Hlen1 : (String.length (line l1) <= 256)%nat).
    { subst l1. cbn [line]. destruct (Z.ltb_spec (linePos l) 256) as [H|H];
        [|exact Hlen]. rewrite length_append_char. rewrite linePos_length in H. lia. }
    destruct (IH l1 Hlen1) as (Hs & Hline & Hcl & Hexp & Hnil).
    split; [exact Hs|]. split; [|split; [exact Hcl|split; [|discriminate]]].
    + rewrite Hline. subst l1. cbn [line string_of_list_ascii].
      destruct (Z.ltb_spec (linePos l) 256) as [H|H].
      * rewrite append_assoc_char. reflexivity.
      * rewrite linePos_length in H.
        assert (Hfull : String.length (line l) = 256%nat) by lia.
        rewrite <- Hfull, !sliceTo_app. reflexivity.
    + intros _. destruct text as [|c' text'].
      * rewrite (Hnil eq_refl). reflexivity.
      * apply Hexp. discriminate.
Qed.

(** X14. A text line is delivered whole, cut to the buffer's capacity.
    From an empty buffer, a run of printable bytes followed by CR LF leaves
    the buffer empty, the flag off and LF as previous byte, and hands to the
    correlator the parsed content of the first 256 bytes of the run: bytes
    beyond the 256th are dropped, and no telegram is applied. The parsed
    content is those bytes without the Unicode white space at both ends,
    and, when what remains begins with the prompt marker, without the marker
    and the white space after it; bytes of 128 and above are text like the
    others, and are removed only where they encode white space. *)
Theorem listen_delivers_line_cut_to_capacity
    (text : list ascii) (l : ListenLocals) (s : SerialTransport) :
  Forall (fun c => printable c = true) text ->
  line l = EmptyString ->
  let received := sliceTo 256 (string_of_list_ascii text) in
  exists trimmedLine content,
    listenBytes (text ++ [CR; LF]) l s
    = (mkLocals EmptyString false 10 (lastCleanup l),
       processPendingCommands content s)
    /\ content = parseResponseLine received
    /\ isTrimOf received trimmedLine
    /\ (if HasPrefix trimmedLine ">>> "
        then isTrimOf (sliceFrom 4 trimmedLine) content
        else content = trimmedLine).
Proof.
  intros Hp Hline received.
  destruct (parseResponseLine_spec received) as (t & Ht & Hparse).
  exists t, (parseResponseLine received).
  split; [|split; [reflexivity | split; [exact Ht | exact Hparse]]].
  subst received.
  assert (Hlen : (String.length (line l) <= 256)%nat) by (rewrite Hline; cbn; lia).
  destruct (listenBytes_printable text l s Hp Hlen) as (Hs & Hl & Hcl & _ & _).
  rewrite Hline in Hl. change (EmptyString +:+ ?x) with x in Hl.
  rewrite listenBytes_app.
  destruct (listenBytes text l s) as [l1 s1]. cbn [fst snd] in *. subst s1.
  rewrite !listenBytes_cons.
  assert (Hcr : listenByte l1 s CR
                = (with_lastByte 13
                     (if expectingTextMode l1 || (0 <? linePos l1)
                      then with_expectingTextMode true l1 else l1), s)).
  { unfold listenByte. change (byteVal CR) with 13.
    rewrite andb_false_r. reflexivity. }
  rewrite Hcr. cbn [fst snd].
  set (l2 := with_lastByte 13 _).
  assert (Hl2 : lastByte l2 = 13 /\ line l2 = line l1
                /\ lastCleanup l2 = lastCleanup l1).
  { subst l2. destruct (expectingTextMode l1 || (0 <? linePos l1));
      repeat split. }
  destruct Hl2 as (Hb2 & Hline2 & Hcl2).
  assert (Hlf : listenByte l2 s LF
                = (mkLocals EmptyString false 10 (lastCleanup l2),
                   processPendingCommands (parseResponseLine (line l2)) s)).
  { unfold listenByte. change (byteVal LF) with 10. rewrite Hb2.
    cbn [Z.eqb Pos.eqb andb].
    destruct (0 <? linePos l2) eqn:Hpos.
    - rewrite completeLine_eq. reflexivity.
    - rewrite linePos_pos in Hpos. apply negb_false_iff, streq_true in Hpos.
      rewrite Hpos.
      change (parseResponseLine EmptyString) with EmptyString.
      change (processPendingCommands EmptyString s) with s.
      destruct l2 as [ln e b lc]. cbn in Hpos. subst ln. reflexivity. }
  rewrite Hlf. cbn [fst snd listenBytes fold_left].
  rewrite Hline2, Hl, Hcl2, Hcl. reflexivity.
Qed.

(** A prompt line whose answer is followed by a no-break space (the bytes
    194 and 160): the correlator receives ["1"]. *)
Lemma listen_line_witness :
  listenBytes ([">"; ">"; ">"; " "; "1"; "194"; "160"] ++ [CR; LF])%char
    (listenStart 0) twoPending
  = (mkLocals EmptyString false 10 0, processPendingCommands "1" twoPending).
Proof.
  destruct (listen_delivers_line_cut_to_capacity
              [">"; ">"; ">"; " "; "1"; "194"; "160"]%char (listenStart 0)
              twoPending) as (t & content & H & -> & _);
    [repeat constructor | reflexivity | exact H].
Defined.

Lemma applyTelegrams_frame (telegrams : list Z) (s : SerialTransport) :
  table (applyTelegrams telegrams s) = table s.
Proof.
  induction telegrams as [|b bs IH] using rev_ind; [reflexivity|].
  rewrite applyTelegrams_snoc, handleButtonData_frame. exact IH.
Qed.

Lemma listenBytes_control (bytes : list ascii) (l : ListenLocals)
    (s : SerialTransport) :
  Forall (fun c => controlByte c = true) bytes -> lastByte l <> 13 ->
  (listenBytes bytes l s).2 = applyTelegrams (byteVal <$> bytes) s
  /\ lastByte (listenBytes bytes l s).1 <> 13
  /\ (bytes <> [] ->
      line (listenBytes bytes l s).1 = EmptyString
      /\ expectingTextMode (listenBytes bytes l s).1 = false).
Proof.
  intros Hc. revert l s. induction Hc as [|c bytes Hcb _ IH]; intros l s Hprev.
  - split; [reflexivity|]. split; [exact Hprev|]. intros H. contradiction.
  - rewrite listenBytes_cons, (listenByte_control l s c Hcb).
    rewrite (proj2 (Z.eqb_neq _ _) Hprev). cbn [fst snd].
    set (l1 := mkLocals EmptyString false (byteVal c) (lastCleanup l)).
    assert (Hprev1 : lastByte l1 <> 13).
    { subst l1. cbn [lastByte]. unfold controlByte in Hcb.
      apply andb_true_iff in Hcb as [_ H]. apply negb_true_iff, Z.eqb_neq in H.
      exact H. }
    destruct (IH l1 (handleButtonData (byteVal c) s) Hprev1) as (Hs & Hb & Hl).
    split; [exact Hs|]. split; [exact Hb|]. intros _.
    destruct bytes as [|c' bytes']; [split; reflexivity|].
    apply Hl. discriminate.
Qed.

(** X15. Control bytes are telegrams. A byte below 0x20 other than TAB, LF
    and CR is applied as a telegram, preceded by a telegram 0x0D when the
    previous byte was a CR; the text buffer is emptied, so a partial line
    before it is lost, and the flag is cleared. A run of such bytes, not
    preceded by CR, applies exactly those telegrams in order and touches
    neither the pending table nor any result channel. *)
Theorem listen_control_bytes_are_telegrams
    (bytes : list ascii) (l : ListenLocals) (s : SerialTransport) :
  Forall (fun c => controlByte c = true) bytes ->
  (forall c, c ∈ bytes ->
     listenByte l s c
     = (mkLocals EmptyString false (byteVal c) (lastCleanup l),
        handleButtonData (byteVal c)
          (if lastByte l =? 13 then handleButtonData 13 s else s)))
  /\ (lastByte l <> 13 ->
      (listenBytes bytes l s).2 = applyTelegrams (byteVal <$> bytes) s
      /\ (bytes <> [] -> line (listenBytes bytes l s).1 = EmptyString)
      /\ pendingCommands (listenBytes bytes l s).2 = pendingCommands s
      /\ resultChans (listenBytes bytes l s).2 = resultChans s).
Proof.
  intros Hc. split.
  - intros c Hin. apply listenByte_control.
    rewrite Forall_forall in Hc. apply Hc, Hin.
  - intros Hprev.
    destruct (listenBytes_control bytes l s Hc Hprev) as (Hs & _ & Hl).
    split; [exact Hs|]. split; [intros H; apply Hl, H|].
    rewrite Hs.
    destruct (table_eq _ _ (applyTelegrams_frame (byteVal <$> bytes) s))
      as (Hp & Hr & _).
    split; assumption.
Qed.

(** Left pressed, then released, in the middle of the text ["ab"]. *)
Lemma listen_telegram_witness :
  (listenBytes ["001"; "000"]%char (mkLocals "ab" true 98 0) twoPending).2
  = applyTelegrams [1; 0] twoPending
  /\ line (listenBytes ["001"; "000"]%char (mkLocals "ab" true 98 0)
             twoPending).1 = EmptyString.
Proof.
  assert (Hc : Forall (fun c => controlByte c = true) ["001"; "000"]%char)
    by (repeat constructor).
  destruct (proj2 (listen_control_bytes_are_telegrams ["001"; "000"]%char
                     (mkLocals "ab" true 98 0) twoPending Hc)
              ltac:(discriminate)) as (Hs & Hl & _).
  split; [exact Hs | apply Hl; discriminate].
Defined.

(** ** Button callbacks *)

Lemma handleBit_callbacks cb bv s n :
  buttonCallback (handleBit cb bv s n) = buttonCallback s
  /\ callbacks (handleBit cb bv s n)
     = callbacks s
       ++ (if bitSet cb n && buttonCallback s && (n <? 5)
           then [(n, bitSet bv n)] else []).
Proof.
  unfold handleBit. destruct (bitSet cb n); cbn [andb].
  - set (isP := bitSet bv n).
    set (s1 := if isP then _ else _).
    assert (H1 : buttonCallback s1 = buttonCallback s
                 /\ callbacks s1 = callbacks s)
      by (subst s1; destruct isP; split; reflexivity).
    clearbody s1. destruct H1 as [Hb Hc]. rewrite Hb.
    destruct (buttonCallback s) eqn:E; cbn [andb];
      [destruct (n <? 5)|]; rewrite ?app_nil_r.
    + change (buttonCallback s1 = true
              /\ callbacks s1 ++ [(n, isP)] = callbacks s ++ [(n, isP)]).
      rewrite Hb, Hc. split; reflexivity.
    + split; [rewrite Hb; reflexivity | exact Hc].
    + split; [rewrite Hb; reflexivity | exact Hc].
  - rewrite app_nil_r. split; reflexivity.
Qed.

Lemma handleBits_callbacks cb bv (bits : list Z) s :
  callbacks (fold_left (handleBit cb bv) bits s)
  = callbacks s
    ++ flat_map (fun n => if bitSet cb n && buttonCallback s && (n <? 5)
                          then [(n, bitSet bv n)] else []) bits.
Proof.
  revert s. induction bits as [|n bits IH]; intros s.
  - cbn. rewrite app_nil_r. reflexivity.
  - cbn [fold_left flat_map]. rewrite IH.
    destruct (handleBit_callbacks cb bv s n) as [-> ->].
    rewrite <- app_assoc. reflexivity.
Qed.

Lemma bitSet_lxor (a b n : Z) :
  0 <= n -> bitSet (Z.lxor a b) n = xorb (Z.testbit a n) (Z.testbit b n).
Proof. intros Hn. rewrite bitSet_testbit by exact Hn. apply Z.lxor_spec. Qed.

Lemma buttonEdges_same (m : Z) : buttonEdges m m = [].
Proof. unfold buttonEdges. cbn. rewrite !xorb_nilpotent. reflexivity. Qed.

(** X16. Button notifications are edge triggered. [handleButtonData] calls
    the registered callback once for each of the five named buttons whose
    bit differs between the telegram and the previous mask, lowest bit
    first, with the button's new state; bits 5 to 7 never reach the
    callback; a telegram equal to the previous mask, or the absence of a
    callback, gives no call. Repeating a telegram changes nothing. *)
Theorem handleButtonData_notifies_edges (b : Z) (s : SerialTransport) :
  callbacks (handleButtonData b s)
  = callbacks s
    ++ (if buttonCallback s then buttonEdges (lastButtonMask s) b else [])
  /\ handleButtonData b (handleButtonData b s) = handleButtonData b s.
Proof.
  split.
  - rewrite handleButtonData_unfold.
    destruct (Z.eqb_spec b (lastButtonMask s)) as [->|Hne].
    { rewrite buttonEdges_same. destruct (buttonCallback s);
        rewrite app_nil_r; reflexivity. }
    assert (Hproj : forall v t, callbacks (with_lastButtonMask v t) = callbacks t)
      by reflexivity.
    rewrite Hproj, handleBits_callbacks. f_equal.
    change (seqZ 0 8) with [0; 1; 2; 3; 4; 5; 6; 7].
    unfold buttonEdges. cbn [flat_map].
    rewrite !bitSet_lxor, !bitSet_testbit by lia.
    change (5 <? 5) with false. change (6 <? 5) with false.
    change (7 <? 5) with false. rewrite !andb_false_r.
    change (0 <? 5) with true. change (1 <? 5) with true.
    change (2 <? 5) with true. change (3 <? 5) with true.
    change (4 <? 5) with true. rewrite !andb_true_r.
    destruct (buttonCallback s).
    + rewrite !andb_true_r, !app_nil_r. reflexivity.
    + rewrite !andb_false_r. reflexivity.
  - rewrite (handleButtonData_unfold b (handleButtonData b s)).
    rewrite handleButtonData_mask, Z.eqb_refl. reflexivity.
Qed.

(** ** mouse.go: locks *)

Lemma lockTargets_cases (name : string) (info : lockInfo) :
  lockTargets !! name = Some info ->
  (name, info) ∈
    [("LEFT", mkLockInfo "km.lock_ml(1)" "km.lock_ml(0)" "km.lock_ml()" 0);
     ("RIGHT", mkLockInfo "km.lock_mr(1)" "km.lock_mr(0)" "km.lock_mr()" 1);
     ("MIDDLE", mkLockInfo "km.lock_mm(1)" "km.lock_mm(0)" "km.lock_mm()" 2);
     ("MOUSE4", mkLockInfo "km.lock_ms1(1)" "km.lock_ms1(0)" "km.lock_ms1()" 3);
     ("MOUSE5", mkLockInfo "km.lock_ms2(1)" "km.lock_ms2(0)" "km.lock_ms2()" 4);
     ("X", mkLockInfo "km.lock_mx(1)" "km.lock_mx(0)" "km.lock_mx()" 5);
     ("Y", mkLockInfo "km.lock_my(1)" "km.lock_my(0)" "km.lock_my()" 6)]%string.
Proof. intros H. apply elem_of_list_to_map_2 in H. exact H. Qed.

Ltac lock_cases H :=
  apply lockTargets_cases in H;
  repeat (apply elem_of_cons in H as [H|H]);
  [injection H as -> -> ..| apply elem_of_nil in H; destruct H].

Lemma lockTargets_bit_range (name : string) (info : lockInfo) :
  lockTargets !! name = Some info -> 0 <= bit info < 7.
Proof. intros H. lock_cases H; cbn [bit]; lia. Qed.

Lemma lockTargets_bit_inj (n1 n2 : string) (i1 i2 : lockInfo) :
  lockTargets !! n1 = Some i1 -> lockTargets !! n2 = Some i2 ->
  bit i1 = bit i2 -> n1 = n2.
Proof.
  intros H1 H2. lock_cases H1; lock_cases H2; cbn [bit]; intros Hb;
    first [reflexivity | discriminate Hb].
Qed.

Lemma IsLocked_cached (dev : Device) (button : Z) (m : Mouse) :
  0 <= button < 5 -> cacheValid m = true ->
  IsLocked dev button m = ([], (Z.testbit (lockStatesCache m) button, None), m).
Proof.
  intros Hb Hv. destruct (lockTargets_button button Hb) as (info & Hinfo & Hbit).
  unfold IsLocked. rewrite Hinfo, Hv, Hbit, bitSet_testbit by lia. reflexivity.
Qed.

(** X17. A lock command fills the cache. [setLock] on a known target makes
    one call, the target's lock or unlock command, fire and forget. When
    the call fails, the error is passed on and the mouse is left as it was.
    When it succeeds, the whole cache becomes valid: from then on [IsLocked]
    makes no call on the transport for any of the five buttons, answers
    with the value just set for the target's own button, and with the bit
    the cache held before for any other button, also where that bit was
    never read from the device. *)
Theorem setLock_fills_cache
    (dev : Device) (name : string) (lock : bool) (m : Mouse) (info : lockInfo) :
  lockTargets !! name = Some info ->
  let call := mkCall (if lock then lockCmd info else unlockCmd info) false 0 in
  (forall err, (dev call).2 = Some err ->
     setLock dev name lock m = ([call], Some err, m))
  /\ ((dev call).2 = None ->
      let m' := (setLock dev name lock m).2 in
      (setLock dev name lock m).1 = ([call], None)
      /\ cacheValid m' = true
      /\ forall (dev' : Device) (button : Z), 0 <= button < 5 ->
           IsLocked dev' button m'
           = ([],
              (if button =? bit info then lock
               else Z.testbit (lockStatesCache m) button, None),
              m')).
Proof.
  intros Hinfo call. unfold setLock. rewrite Hinfo. fold call.
  destruct (dev call) as [resp [e|]]; cbn [snd fst].
  - split; [|discriminate]. intros err [= ->]. reflexivity.
  - split; [discriminate|]. intros _. split; [reflexivity|].
    split; [reflexivity|]. intros dev' button Hb.
    rewrite IsLocked_cached by (exact Hb || reflexivity).
    cbn [lockStatesCache].
    rewrite storeLockBit_testbit
      by (pose proof (lockTargets_bit_range name info Hinfo); lia).
    reflexivity.
Qed.

(** Locking the X axis on a fresh mouse: the left button then reads as
    unlocked without the device being asked. *)
Lemma setLock_witness :
  let dev : Device := fun _ => (EmptyString, None) in
  let m' := (LockX dev true NewMouse).2 in
  (LockX dev true NewMouse).1 = ([mkCall "km.lock_mx(1)" false 0], None)
  /\ IsLocked (fun _ => ("1"%string, None)) 0 m' = ([], (false, None), m').
Proof.
  intros dev m'.
  destruct (setLock_fills_cache dev "X" true NewMouse
              (mkLockInfo "km.lock_mx(1)" "km.lock_mx(0)" "km.lock_mx()" 5)
              eq_refl) as [_ H].
  destruct (H eq_refl) as (Hcalls & _ & Hq).
  split; [exact Hcalls|].
  exact (Hq (fun _ => ("1"%string, None)) 0 ltac:(lia)).
Defined.

Lemma queryTarget_known (dev : Device) (name : string) (info : lockInfo)
    (calls : list TransportCall) (states : gmap string bool) (cache : Z) :
  lockTargets !! name = Some info ->
  queryTarget dev (calls, states, cache) name
  = (calls ++ [queryCall info],
     <[name := default false (queryAnswer dev info)]> states,
     match queryAnswer dev info with
     | Some locked => storeLockBit locked (bit info) cache
     | None => cache
     end).
Proof.
  intros Hinfo. unfold queryTarget, queryAnswer. rewrite Hinfo.
  fold (queryCall info). destruct (dev (queryCall info)) as [resp [e|]];
    reflexivity.
Qed.

Lemma omap_cons_Some {A B : Type} (f : A -> option B) (x : A) (l : list A)
    (y : B) :
  f x = Some y -> omap f (x :: l) = y :: omap f l.
Proof.
  intros H.
  change (omap f (x :: l))
    with (match f x with Some z => z :: omap f l | None => omap f l end).
  rewrite H. reflexivity.
Qed.

Lemma queryTargets_spec (dev : Device) (names : list string) :
  NoDup names ->
  (forall name, name ∈ names -> is_Some (lockTargets !! name)) ->
  forall calls states cache,
  let r := fold_left (queryTarget dev) names (calls, states, cache) in
  r.1.1 = calls ++ omap (fun name => queryCall <$> lockTargets !! name) names
  /\ (forall name, name ∉ names -> r.1.2 !! name = states !! name)
  /\ (forall n, 0 <= n ->
        (forall name info, name ∈ names -> lockTargets !! name = Some info ->
           bit info <> n) ->
        Z.testbit r.2 n = Z.testbit cache n)
  /\ (forall name info, name ∈ names -> lockTargets !! name = Some info ->
        r.1.2 !! name = Some (default false (queryAnswer dev info))
        /\ Z.testbit r.2 (bit info)
           = default (Z.testbit cache (bit info)) (queryAnswer dev info)).
Proof.
  induction 1 as [|x names Hx Hnd IH]; intros Hknown calls states cache.
  - cbn [fold_left omap fst snd]. rewrite app_nil_r.
    split; [reflexivity|]. split; [reflexivity|]. split; [reflexivity|].
    intros name info Hin. apply elem_of_nil in Hin. destruct Hin.
  - destruct (Hknown x) as [ix Hix]; [left|].
    assert (Hknown' : forall name, name ∈ names -> is_Some (lockTargets !! name))
      by (intros name Hin; apply Hknown; right; exact Hin).
    pose proof (lockTargets_bit_range x ix Hix) as Hrx.
    cbn [fold_left].
    rewrite (omap_cons_Some _ x names (queryCall ix))
      by (rewrite Hix; reflexivity).
    rewrite (queryTarget_known dev x ix calls states cache Hix).
    set (states1 := <[x := default false (queryAnswer dev ix)]> states).
    set (cache1 := match queryAnswer dev ix with
                   | Some locked => storeLockBit locked (bit ix) cache
                   | None => cache
                   end).
    assert (Hc1 : forall n, 0 <= n -> n <> bit ix ->
              Z.testbit cache1 n = Z.testbit cache n).
    { intros n Hn Hne. subst cache1. destruct (queryAnswer dev ix); [|reflexivity].
      rewrite storeLockBit_testbit by lia.
      destruct (Z.eqb_spec n (bit ix)); [contradiction | reflexivity]. }
    assert (Hc1x : Z.testbit cache1 (bit ix)
                   = default (Z.testbit cache (bit ix)) (queryAnswer dev ix)).
    { subst cache1. destruct (queryAnswer dev ix); [|reflexivity].
      rewrite storeLockBit_testbit, Z.eqb_refl by lia. reflexivity. }
    destruct (IH Hknown' (calls ++ [queryCall ix]) states1 cache1)
      as (Hcalls & Hout & Hbits & Hin).
    cbv zeta. split; [|split; [|split]].
    + rewrite Hcalls, <- app_assoc. reflexivity.
    + intros name Hnot. rewrite Hout by (intros H; apply Hnot; right; exact H).
      subst states1. apply lookup_insert_ne. intros ->. apply Hnot. left.
    + intros n Hn Hother. rewrite Hbits.
      * apply Hc1; [exact Hn|]. intros ->. apply (Hother x ix); [left | exact Hix | reflexivity].
      * exact Hn.
      * intros name info Hin'. apply Hother. right. exact Hin'.
    + intros name info Hin' Hinfo. apply elem_of_cons in Hin' as [->|Hin'].
      * assert (info = ix) as -> by congruence. split.
        -- rewrite Hout by exact Hx. subst states1. apply lookup_insert_eq.
        -- rewrite Hbits; [exact Hc1x | lia |].
           intros name info Hin' Hinfo' Heq. apply Hx.
           rewrite (lockTargets_bit_inj x name ix info Hix Hinfo'
                      (eq_sym Heq)). exact Hin'.
      * destruct (Hin name info Hin' Hinfo) as [Hs Hb]. split; [exact Hs|].
        rewrite Hb. destruct (queryAnswer dev info); [reflexivity|].
        cbn [default]. apply Hc1.
        -- pose proof (lockTargets_bit_range name info Hinfo). lia.
        -- intros Heq. apply Hx.
           rewrite (lockTargets_bit_inj x name ix info Hix Hinfo
                      (eq_sym Heq)). exact Hin'.
Qed.

Lemma allTargets_NoDup : NoDup allTargets.
Proof.
  unfold allTargets. rewrite !NoDup_cons, !elem_of_cons, !elem_of_nil.
  repeat split; try apply NoDup_nil_2; intros H;
    repeat (destruct H as [H|H]; [discriminate H|]); exact H.
Qed.

Lemma allTargets_known (name : string) :
  name ∈ allTargets <-> is_Some (lockTargets !! name).
Proof.
  split.
  - unfold allTargets. rewrite !elem_of_cons, elem_of_nil.
    intros H. repeat (destruct H as [->|H]; [eexists; reflexivity|]).
    destruct H.
  - intros [info H]. lock_cases H; unfold allTargets;
      rewrite !elem_of_cons; tauto.
Qed.

Lemma GetAllLockStates_cached (dev : Device) (m : Mouse)
    (name : string) (info : lockInfo) :
  cacheValid m = true -> lockTargets !! name = Some info ->
  GetAllLockStates dev m = ((GetAllLockStates dev m).1, m)
  /\ (GetAllLockStates dev m).1.1 = []
  /\ (GetAllLockStates dev m).1.2 !! name
     = Some (Z.testbit (lockStatesCache m) (bit info)).
Proof.
  intros Hv Hinfo. unfold GetAllLockStates. rewrite Hv. cbn [fst snd].
  split; [reflexivity|]. split; [reflexivity|].
  lock_cases Hinfo; cbn [bit]; rewrite <- bitSet_testbit by lia; reflexivity.
Qed.

(** X18. A full refresh of the lock cache. On an invalid cache
    [GetAllLockStates] sends the seven queries, in the order LEFT, RIGHT,
    MIDDLE, MOUSE4, MOUSE5, X, Y, whatever the answers are. For each target
    the map returned holds the answer (true exactly for a response that is
    ["1"] with nothing but white space around it), and false where the
    query failed;
    the cache bit takes the answer, and keeps its old value where the query
    failed. The cache is valid afterwards even when queries failed, so the
    next [GetAllLockStates] makes no call and reports the cache bits: for a
    target whose query failed that is the old bit, not the false reported
    first. *)
Theorem GetAllLockStates_refreshes_cache (dev : Device) (m : Mouse) :
  cacheValid m = false ->
  let r := GetAllLockStates dev m in
  r.1.1 = omap (fun name => queryCall <$> lockTargets !! name) allTargets
  /\ length r.1.1 = 7%nat
  /\ cacheValid r.2 = true
  /\ forall name info, lockTargets !! name = Some info ->
       r.1.2 !! name = Some (default false (queryAnswer dev info))
       /\ Z.testbit (lockStatesCache r.2) (bit info)
          = default (Z.testbit (lockStatesCache m) (bit info))
              (queryAnswer dev info)
       /\ (forall resp, dev (queryCall info) = (resp, None) ->
             exists locked,
               queryAnswer dev info = Some locked
               /\ (locked = true <->
                   exists pre suf,
                     whiteSpace pre /\ whiteSpace suf
                     /\ list_ascii_of_string resp = pre ++ "1"%char :: suf))
       /\ forall dev',
            (GetAllLockStates dev' r.2).1.1 = []
            /\ (GetAllLockStates dev' r.2).1.2 !! name
               = Some (default (Z.testbit (lockStatesCache m) (bit info))
                         (queryAnswer dev info)).
Proof.
  intros Hv r.
  assert (Hknown : forall name, name ∈ allTargets -> is_Some (lockTargets !! name))
    by (intros name; apply allTargets_known).
  destruct (queryTargets_spec dev allTargets allTargets_NoDup Hknown
              [] ∅ (lockStatesCache m)) as (Hcalls & _ & _ & Hin).
  assert (Hr : r = ((fold_left (queryTarget dev) allTargets
                       ([], ∅, lockStatesCache m)).1,
                    mkMouse (fold_left (queryTarget dev) allTargets
                               ([], ∅, lockStatesCache m)).2 true)).
  { subst r. unfold GetAllLockStates. rewrite Hv.
    destruct (fold_left _ _ _) as [[calls states] cache]. reflexivity. }
  clearbody r. subst r. cbn [fst snd cacheValid lockStatesCache].
  split; [exact Hcalls|]. split; [rewrite Hcalls; reflexivity|].
  split; [reflexivity|]. intros name info Hinfo.
  destruct (Hin name info) as [Hs Hb];
    [apply allTargets_known; eexists; exact Hinfo | exact Hinfo |].
  split; [exact Hs|]. split; [exact Hb|]. split.
  { intros resp Hresp. unfold queryAnswer. rewrite Hresp.
    eexists. split; [reflexivity | apply TrimSpace_is_one]. }
  intros dev'.
  destruct (GetAllLockStates_cached dev' (mkMouse (fold_left (queryTarget dev)
              allTargets ([], ∅, lockStatesCache m)).2 true) name info
              eq_refl Hinfo) as (_ & Hc & Hl).
  split; [exact Hc|]. rewrite Hl. cbn [lockStatesCache]. rewrite Hb.
  reflexivity.
Qed.

(** The device answers only the query for the right button, with ["1"];
    the cache held the Y bit before. *)
Lemma GetAllLockStates_witness :
  let dev : Device := fun call =>
    if streq (callCommand call) "km.lock_mr()"
    then ("1"%string, None)
    else (EmptyString, Some (NewTimeoutError "command timed out")) in
  let r := GetAllLockStates dev (mkMouse 64 false) in
  length r.1.1 = 7%nat
  /\ r.1.2 !! "RIGHT"%string = Some true
  /\ r.1.2 !! "Y"%string = Some false
  /\ (GetAllLockStates dev r.2).1.2 !! "Y"%string = Some true.
Proof.
  intros dev r.
  destruct (GetAllLockStates_refreshes_cache dev (mkMouse 64 false) eq_refl)
    as (_ & Hlen & _ & H).
  destruct (H "RIGHT"%string
              (mkLockInfo "km.lock_mr(1)" "km.lock_mr(0)" "km.lock_mr()" 1)
              eq_refl) as (HR & _).
  destruct (H "Y"%string
              (mkLockInfo "km.lock_my(1)" "km.lock_my(0)" "km.lock_my()" 6)
              eq_refl) as (HY & _ & _ & HY2).
  split; [exact Hlen|]. split; [exact HR|]. split; [exact HY|].
  exact (proj2 (HY2 dev)).
Defined.

(** ** mouse.go and controller.go: buttons *)

(** X19. A click is a press followed by a release. [Click] on a button
    outside the five known ones makes no call on the transport and returns
    a command error. Otherwise it sends the button's press command, fire
    and forget; when that fails the error is returned and no release is
    sent; when it succeeds the release command follows and its error is the
    result. *)
Theorem Click_presses_then_releases (dev : Device) (button : Z) :
  let p := mkCall (nth (Z.to_nat button) pressCommands EmptyString) false 0 in
  let r := mkCall (nth (Z.to_nat button) releaseCommands EmptyString) false 0 in
  Click dev button
  = if (button <? 0) || (5 <=? button)
    then ([], Some (NewCommandError
                      ("unsupported button: " +:+ MouseButton_String button)))
    else match (dev p).2 with
         | Some err => ([p], Some err)
         | None => ([p; r], (dev r).2)
         end.
Proof.
  intros p r. unfold Click, Press, Release, andThen, fire.
  change (Z.of_nat (length pressCommands)) with 5.
  change (Z.of_nat (length releaseCommands)) with 5.
  fold p r. destruct ((button <? 0) || (5 <=? button)); [reflexivity|].
  destruct (dev p).2; reflexivity.
Qed.

Lemma andThen_ok (first second : list TransportCall * option error) :
  (andThen first second).2 = None ->
  first.2 = None /\ second.2 = None
  /\ (andThen first second).1 = first.1 ++ second.1.
Proof.
  destruct first as [calls [e|]]; cbn; [discriminate|].
  intros H. repeat split. exact H.
Qed.

Lemma fire_calls (dev : Device) (command : string) :
  (fire dev command).1 = [mkCall command false 0].
Proof. reflexivity. Qed.

Lemma Press_ok (dev : Device) (button : Z) :
  (Press dev button).2 = None ->
  0 <= button < 5
  /\ (Press dev button).1
     = [mkCall (nth (Z.to_nat button) pressCommands EmptyString) false 0].
Proof.
  unfold Press. change (Z.of_nat (length pressCommands)) with 5.
  destruct (Z.ltb_spec button 0); [discriminate|].
  destruct (Z.leb_spec 5 button); [discriminate|].
  cbn [orb]. intros _. split; [lia | reflexivity].
Qed.

Lemma Release_ok (dev : Device) (button : Z) :
  (Release dev button).2 = None ->
  (Release dev button).1
  = [mkCall (nth (Z.to_nat button) releaseCommands EmptyString) false 0].
Proof.
  unfold Release. change (Z.of_nat (length releaseCommands)) with 5.
  destruct ((button <? 0) || (5 <=? button)); [discriminate|].
  intros _. reflexivity.
Qed.

(** X20. The controller's [Click] is the mouse's [Click] behind the
    connection check, and [DoubleClick] is two such clicks, the second
    made only when the first succeeded. [DoubleClick] returns nil only on
    a connected controller, for one of the five buttons, after press,
    release, press, release were sent in this order. *)
Theorem Controller_DoubleClick_is_two_clicks
    (dev1 dev2 : Device) (button : Z) (c : Controller.MakcuController) :
  let p := mkCall (nth (Z.to_nat button) pressCommands EmptyString) false 0 in
  let r := mkCall (nth (Z.to_nat button) releaseCommands EmptyString) false 0 in
  Controller.Click dev1 button c = Controller.guarded c (Click dev1 button)
  /\ Controller.DoubleClick dev1 dev2 button c
     = Controller.guarded c (andThen (Click dev1 button) (Click dev2 button))
  /\ ((Controller.DoubleClick dev1 dev2 button c).2 = None ->
      Controller.connected c = true /\ 0 <= button < 5
      /\ (Controller.DoubleClick dev1 dev2 button c).1 = [p; r; p; r]).
Proof.
  intros p r.
  unfold Controller.Click, Controller.DoubleClick, Controller.guarded,
    Controller.checkConnection, Click.
  destruct (Controller.connected c); cbn [negb].
  - split; [|split].
    + unfold andThen. destruct (Press dev1 button) as [calls [e|]];
        [reflexivity|]. destruct (Release dev1 button); reflexivity.
    + unfold andThen. destruct (Press dev1 button) as [calls1 [e|]];
        [reflexivity|]. destruct (Release dev1 button) as [calls2 [e|]];
        cbn [fst snd]; [reflexivity|].
      destruct (Press dev2 button) as [calls3 [e|]]; cbn [fst snd];
        rewrite <- ?app_assoc; reflexivity.
    + intros H.
      apply andThen_ok in H as (Hp1 & H & ->).
      apply andThen_ok in H as (Hr1 & H & ->).
      apply andThen_ok in H as (Hp2 & Hr2 & ->).
      destruct (Press_ok dev1 button Hp1) as [Hb ->].
      destruct (Press_ok dev2 button Hp2) as [_ ->].
      rewrite (Release_ok dev1 button Hr1), (Release_ok dev2 button Hr2).
      split; [reflexivity|]. split; [exact Hb | reflexivity].
  - split; [reflexivity|]. split; [reflexivity|]. discriminate.
Qed.

Lemma DoubleClick_witness :
  let dev : Device := fun _ => (EmptyString, None) in
  let c := Controller.with_connected true
             (Controller.NewController Controller.DefaultConfig) in
  (Controller.DoubleClick dev dev 1 c).1
  = [mkCall "km.right(1)" false 0; mkCall "km.right(0)" false 0;
     mkCall "km.right(1)" false 0; mkCall "km.right(0)" false 0].
Proof.
  intros dev c.
  destruct (Controller_DoubleClick_is_two_clicks dev dev 1 c) as (_ & _ & H).
  destruct (H eq_refl) as (_ & _ & Hcalls). exact Hcalls.
Defined.

(** ** controller.go: the connection check *)

Lemma with_Transport_same (c : Controller.MakcuController) :
  Controller.with_Transport (Controller.Transport c) c = c.
Proof. destruct c; reflexivity. Qed.

(** X21. A controller whose [connected] flag is false refuses every
    operation. Each of the 32 methods of the controller that begin with
    [checkConnection] returns the connection error of that check
    ([errors.Is] finds [ErrConnection] in it), with the zero value of its
    other result; no call is made on the transport, nothing sleeps, no
    random number is drawn, and neither the lock cache nor the transport
    changes. A new controller has the flag false, and so has every
    controller after [Disconnect]. *)
Theorem Controller_refuses_when_not_connected
    (c : Controller.MakcuController) (dev dev' : Device) (env : SendEnv)
    (button x y segments delta target : Z) (ctrlX ctrlY : option Z)
    (flag : bool) (cfg : Controller.Config) (c0 : Controller.MakcuController)
    (serial profile : string) (ports : option (list PortDetails))
    (rand : nat -> Z -> Z) (count jitter endX endY duration speed waitMs : Z)
    (mouseMoveAbs : Z * Z -> Z -> Z -> list TransportCall * option error) :
  Controller.connected c = false ->
  let refusal := NewConnectionError "not connected" in
  errorsIs refusal ErrConnection = true
  /\ Controller.connected (Controller.NewController cfg) = false
  /\ Controller.connected (Controller.Disconnect c0).2 = false
  /\ Controller.Click dev button c = ([], Some refusal)
  /\ Controller.DoubleClick dev dev' button c = ([], Some refusal)
  /\ Controller.Press dev button c = ([], Some refusal)
  /\ Controller.Release dev button c = ([], Some refusal)
  /\ Controller.Move dev x y c = ([], Some refusal)
  /\ Controller.MoveAbs mouseMoveAbs (x, y) speed waitMs c = ([], Some refusal)
  /\ Controller.MoveSmooth dev x y segments c = ([], Some refusal)
  /\ Controller.MoveBezier dev x y segments ctrlX ctrlY c = ([], Some refusal)
  /\ Controller.Scroll dev delta c = ([], Some refusal)
  /\ Controller.Lock dev target c = ([], Some refusal, c)
  /\ Controller.Unlock dev target c = ([], Some refusal, c)
  /\ Controller.LockLeft dev flag c = ([], Some refusal, c)
  /\ Controller.LockRight dev flag c = ([], Some refusal, c)
  /\ Controller.LockMiddle dev flag c = ([], Some refusal, c)
  /\ Controller.LockSide1 dev flag c = ([], Some refusal, c)
  /\ Controller.LockSide2 dev flag c = ([], Some refusal, c)
  /\ Controller.LockX dev flag c = ([], Some refusal, c)
  /\ Controller.LockY dev flag c = ([], Some refusal, c)
  /\ Controller.IsLocked dev button c = ([], (false, Some refusal), c)
  /\ Controller.GetAllLockStates dev c = ([], (None, Some refusal), c)
  /\ Controller.SpoofSerial dev serial c = ([], Some refusal)
  /\ Controller.ResetSerial dev c = ([], Some refusal)
  /\ Controller.GetDeviceInfo ports c
     = (mkDeviceInfo EmptyString EmptyString EmptyString EmptyString false,
        Some refusal)
  /\ Controller.GetFirmwareVersion dev c = ([], (EmptyString, Some refusal))
  /\ Controller.GetButtonMask c = (0, Some refusal)
  /\ Controller.GetButtonStates c = (None, Some refusal)
  /\ Controller.IsPressed button c = (false, Some refusal)
  /\ Controller.EnableButtonMonitoring flag env c = (Some refusal, c)
  /\ Controller.SetButtonCallback flag c = (Some refusal, c)
  /\ Controller.ClickHumanLike dev rand button count profile jitter c
     = Some (Some refusal, [])
  /\ Controller.Drag dev x y endX endY button duration c = (Some refusal, [])
  /\ (forall St (actions : list (St -> option error * St)) (st : St),
        Controller.BatchExecute actions c st
        = (Some (Controller.NotConnected refusal), st)).
Proof.
  intros Hc refusal.
  unfold Controller.Click, Controller.DoubleClick, Controller.Press,
    Controller.Release, Controller.Move, Controller.MoveAbs,
    Controller.MoveSmooth,
    Controller.MoveBezier, Controller.Scroll, Controller.Lock,
    Controller.Unlock, Controller.LockLeft, Controller.LockRight,
    Controller.LockMiddle, Controller.LockSide1, Controller.LockSide2,
    Controller.LockX, Controller.LockY, Controller.lockBy,
    Controller.IsLocked, Controller.GetAllLockStates,
    Controller.SpoofSerial, Controller.ResetSerial, Controller.GetDeviceInfo,
    Controller.GetFirmwareVersion, Controller.GetButtonMask,
    Controller.GetButtonStates,
    Controller.IsPressed, Controller.SetButtonCallback,
    Controller.EnableButtonMonitoring, Controller.ClickHumanLike,
    Controller.Drag, Controller.BatchExecute,
    Controller.guarded, Controller.checkConnection.
  rewrite Hc. cbn [negb]. repeat split.
Qed.

(** A controller that was disconnected refuses a click and a drag. *)
Lemma Controller_refuses_witness :
  let c := (Controller.Disconnect
              (Controller.with_connected true
                 (Controller.NewController Controller.DefaultConfig))).2 in
  let dev : Device := fun _ => (EmptyString, None) in
  Controller.Click dev 0 c = ([], Some (NewConnectionError "not connected"))
  /\ Controller.Drag dev 0 0 10 10 0 Second c
     = (Some (NewConnectionError "not connected"), []).
Proof.
  intros c dev.
  pose proof (Controller_refuses_when_not_connected c dev dev
                (mkSendEnv None 0) 0 0 0 0 0 0 None None false
                Controller.DefaultConfig c EmptyString EmptyString None
                (fun _ _ => 0) 0 0 10 10 Second 0 0 MoveAbs eq_refl) as H.
  cbv zeta in H.
  split; [exact (proj1 (proj2 (proj2 (proj2 H))))|].
  do 33 (apply proj2 in H). exact (proj1 H).
Defined.

(** ** controller.go: connecting, and who is told *)

Lemma Connect_ok_port (env : ConnectEnv) (s : SerialTransport) :
  isConnected s = false -> (Connect env s).1 = None ->
  serialPort (Connect env s).2 = Some PortOpen.
Proof.
  intros Hdis. unfold Connect. rewrite Hdis.
  set (resolved := if overridePort s then _ else _). clearbody resolved.
  destruct resolved as [[err s1]|s1]; [discriminate|].
  destruct (negb (envOpenOK env)); [discriminate|].
  set (s2 := with_serialPort (Some PortOpen) (emit (IOOpen (Port s1)) s1)).
  destruct (changeBaudTo4M_view env s2) as (_ & _ & _ & P3).
  destruct (changeBaudTo4M env s2) as [[e|] s3]; [discriminate|].
  intros _. cbn [snd] in P3 |- *.
  set (s4 := with_reconnectAttempts 0 (with_isConnected true s3)).
  destruct (writeInit_view s4) as (_ & _ & _ & P5).
  set (s5 := writeInit s4) in *.
  change (serialPort s5 = Some PortOpen). rewrite P5. exact P3.
Qed.

(** X22. [CreateController] hands out a controller only when the
    transport's [Connect] succeeded; the controller is then connected at
    both levels, its lock cache is empty and invalid, and nobody was told:
    no callback can be registered before [CreateController] connects, so
    the notification of this first connection reaches no one. When the
    transport's [Connect] fails, its error is returned and no controller. *)
Theorem CreateController_connects_unobserved
    (env : ConnectEnv) (cfg : Controller.Config) :
  let t := NewSerialTransport (Controller.FallbackCOMPort cfg)
             (Controller.SendInit cfg) (Controller.AutoReconnect cfg)
             (Controller.OverridePort cfg) in
  match Connect env t with
  | (Some err, _) => Controller.CreateController env cfg = (None, Some err)
  | (None, t') =>
      exists c,
        Controller.CreateController env cfg = (Some c, None)
        /\ Controller.Transport c = t'
        /\ Controller.IsConnected c = true
        /\ Controller.checkConnection c = None
        /\ Controller.mouse c = NewMouse
        /\ Controller.connectionCallbacks c = []
        /\ Controller.notified c = []
  end.
Proof.
  intros t.
  assert (Hdis : isConnected t = false) by reflexivity.
  pose proof (Connect_ok env t Hdis) as Hok.
  pose proof (Connect_ok_port env t Hdis) as Hport.
  unfold Controller.CreateController, Controller.Connect,
    Controller.NewController.
  cbn [Controller.Transport]. fold t.
  destruct (Connect env t) as [[err|] t']; [reflexivity|].
  cbn [fst snd] in Hok, Hport.
  destruct (Hok eq_refl) as [Hconn _]. specialize (Hport eq_refl).
  eexists. split; [reflexivity|]. split; [reflexivity|].
  split; [|repeat split].
  unfold Controller.IsConnected, IsConnected.
  cbn [Controller.connected Controller.Transport Controller.notifyConnectionChange
       Controller.with_connected Controller.with_Transport].
  rewrite Hconn, Hport. reflexivity.
Qed.

(** X23. Connection callbacks are called in the order of their
    registration, once per registration. A successful [Connect] calls each
    with true and sets the flag; a failed one calls nobody and leaves the
    flag as it was. [Disconnect] always returns nil, clears the flag and
    calls each with false, also on a controller that never was connected. A
    callback registered with [OnConnectionChange] is called after those
    registered before it. *)
Theorem connection_callbacks_in_registration_order
    (env : ConnectEnv) (c : Controller.MakcuController)
    (cb : Controller.Callback) :
  let told v c := map (fun f => (f, v)) (Controller.connectionCallbacks c) in
  let r := Controller.Connect env c in
  let d := Controller.Disconnect c in
  r.1 = (Connect env (Controller.Transport c)).1
  /\ Controller.notified r.2
     = Controller.notified c
       ++ match r.1 with Some _ => [] | None => told true c end
  /\ Controller.connected r.2
     = match r.1 with Some _ => Controller.connected c | None => true end
  /\ d.1 = None
  /\ Controller.notified d.2 = Controller.notified c ++ told false c
  /\ Controller.connected d.2 = false
  /\ Controller.IsConnected d.2 = false
  /\ Controller.Transport d.2 = Disconnect (Controller.Transport c)
  /\ Controller.notified
       (Controller.Disconnect (Controller.OnConnectionChange cb c)).2
     = Controller.notified c ++ told false c ++ [(cb, false)].
Proof.
  intros told r d. subst r d told.
  assert (Hlast : Controller.notified
                    (Controller.Disconnect (Controller.OnConnectionChange cb c)).2
                  = Controller.notified c
                    ++ map (fun f => (f, false)) (Controller.connectionCallbacks c)
                    ++ [(cb, false)]).
  { cbn [Controller.Disconnect snd Controller.notified
         Controller.notifyConnectionChange Controller.connectionCallbacks
         Controller.with_connected Controller.with_Transport
         Controller.with_connectionCallbacks Controller.OnConnectionChange].
    rewrite map_app. reflexivity. }
  assert (Hdown : Controller.IsConnected (Controller.Disconnect c).2 = false)
    by reflexivity.
  unfold Controller.Connect.
  destruct (Connect env (Controller.Transport c)) as [[err|] t'];
    cbn [fst snd]; rewrite ?app_nil_r;
    (split; [reflexivity|]); (split; [reflexivity|]);
    (split; [reflexivity|]); (split; [reflexivity|]);
    (split; [reflexivity|]); (split; [reflexivity|]);
    (split; [exact Hdown|]); (split; [reflexivity | exact Hlast]).
Qed.

Lemma removeFirst_notin (cb : Controller.Callback)
    (l : list Controller.Callback) :
  (forall f, f ∈ l ->
     Controller.codePointer f <> Controller.codePointer cb) ->
  Controller.removeFirst cb l = l.
Proof.
  induction l as [|x l IH]; intros Hnot; [reflexivity|].
  cbn [Controller.removeFirst].
  destruct (Nat.eqb_spec (Controller.codePointer x) (Controller.codePointer cb))
    as [Heq|Hne].
  - exfalso. apply (Hnot x); [left | exact Heq].
  - rewrite IH; [reflexivity|]. intros f Hf. apply Hnot. right. exact Hf.
Qed.

Lemma removeFirst_split (cb f : Controller.Callback)
    (before after : list Controller.Callback) :
  Controller.codePointer f = Controller.codePointer cb ->
  (forall g, g ∈ before ->
     Controller.codePointer g <> Controller.codePointer cb) ->
  Controller.removeFirst cb (before ++ f :: after) = before ++ after.
Proof.
  intros Hf. induction before as [|x l IH]; intros Hnot.
  - cbn. rewrite Hf, Nat.eqb_refl. reflexivity.
  - cbn [Controller.removeFirst app].
    destruct (Nat.eqb_spec (Controller.codePointer x)
                (Controller.codePointer cb)) as [Heq|Hne].
    + exfalso. apply (Hnot x); [left | exact Heq].
    + rewrite IH; [reflexivity|]. intros g Hg. apply Hnot. right. exact Hg.
Qed.

Lemma removeFirst_twice (cb : Controller.Callback)
    (l : list Controller.Callback) :
  cb ∈ Controller.removeFirst cb ((l ++ [cb]) ++ [cb]).
Proof.
  induction l as [|x l IH].
  - cbn. rewrite Nat.eqb_refl. left.
  - cbn [app Controller.removeFirst].
    destruct (Nat.eqb (Controller.codePointer x) (Controller.codePointer cb)).
    + apply elem_of_app. right. left.
    + right. exact IH.
Qed.

(** X24. [RemoveConnectionCallback] compares callbacks by what [%p] prints,
    the code pointer. It removes one registration, the earliest whose code
    pointer is that of the callback given, and keeps the order of the
    others; when no registered callback has that code pointer the list
    stays as it is. So removing a closure that was never registered takes
    out a registered closure made by the same function literal. A callback
    registered twice and removed once is still registered, and is still
    called on the next connection change. *)
Theorem RemoveConnectionCallback_removes_first_registration
    (cb : Controller.Callback) (c : Controller.MakcuController) :
  let c' := Controller.RemoveConnectionCallback cb c in
  let same f := Controller.codePointer f = Controller.codePointer cb in
  ((forall f, f ∈ Controller.connectionCallbacks c -> ~ same f) -> c' = c)
  /\ (forall before f after,
        Controller.connectionCallbacks c = before ++ f :: after ->
        same f -> (forall g, g ∈ before -> ~ same g) ->
        Controller.connectionCallbacks c' = before ++ after)
  /\ (forall other,
        same other ->
        (forall f, f ∈ Controller.connectionCallbacks c -> ~ same f) ->
        Controller.connectionCallbacks
          (Controller.RemoveConnectionCallback cb
             (Controller.OnConnectionChange other c))
        = Controller.connectionCallbacks c)
  /\ (let twice := Controller.OnConnectionChange cb
                     (Controller.OnConnectionChange cb c) in
      cb ∈ Controller.connectionCallbacks
             (Controller.RemoveConnectionCallback cb twice)
      /\ (cb, false) ∈ Controller.notified
                         (Controller.Disconnect
                            (Controller.RemoveConnectionCallback cb twice)).2).
Proof.
  intros c' same. subst c' same. unfold Controller.RemoveConnectionCallback.
  split; [|split; [|split]].
  - intros Hnot. rewrite removeFirst_notin by exact Hnot.
    destruct c; reflexivity.
  - intros before f after Heq Hf Hnot.
    cbn [Controller.connectionCallbacks Controller.with_connectionCallbacks].
    rewrite Heq. apply removeFirst_split; assumption.
  - intros other Hother Hnot.
    cbn [Controller.connectionCallbacks Controller.with_connectionCallbacks
         Controller.OnConnectionChange].
    rewrite (removeFirst_split cb other _ [] Hother Hnot).
    apply app_nil_r.
  - pose proof (removeFirst_twice cb (Controller.connectionCallbacks c)) as Hin.
    split; [exact Hin|].
    cbn [Controller.Disconnect snd Controller.notified
         Controller.notifyConnectionChange Controller.connectionCallbacks
         Controller.with_connected Controller.with_Transport
         Controller.with_connectionCallbacks Controller.OnConnectionChange].
    apply elem_of_app. right.
    apply (list_elem_of_fmap_2 (fun f => (f, false))) in Hin. exact Hin.
Qed.

(** Two closures of one function literal (code pointer 7): the first is
    registered, the second, which never was, is removed; the first is
    gone. *)
Lemma RemoveConnectionCallback_witness :
  let first := Controller.mkCallback 7 1 in
  let second := Controller.mkCallback 7 2 in
  let c := Controller.OnConnectionChange first
             (Controller.NewController Controller.DefaultConfig) in
  Controller.connectionCallbacks (Controller.RemoveConnectionCallback second c)
  = [].
Proof.
  intros first second c.
  destruct (RemoveConnectionCallback_removes_first_registration second
              (Controller.NewController Controller.DefaultConfig))
    as (_ & _ & H & _).
  apply (H first); [reflexivity|].
  intros f Hf. apply elem_of_nil in Hf. destruct Hf.
Defined.

(** ** controller.go: batches *)

Lemma runActions_app {St : Type} (i : Z)
    (done rest : list (St -> option error * St)) (st : St) :
  (Controller.runActions i done st).1 = None ->
  Controller.runActions i (done ++ rest) st
  = Controller.runActions (i + Z.of_nat (length done)) rest
      (Controller.runActions i done st).2.
Proof.
  revert i st. induction done as [|a done IH]; intros i st.
  - intros _. cbn. rewrite Z.add_0_r. reflexivity.
  - cbn [app Controller.runActions length].
    destruct (a st) as [[err|] st1]; [discriminate|].
    intros H. rewrite IH by exact H. f_equal. lia.
Qed.

(** X25. [BatchExecute] on a connected controller runs the actions in
    order, each on the state the previous one left, and stops at the first
    error: when the actions before [action] all succeed and [action]
    fails, the error returned carries the index of [action] and its cause,
    the state is the one [action] left, and the actions after it have no
    part in the result. When every action succeeds, nil is returned. *)
Theorem BatchExecute_stops_at_first_error {St : Type}
    (c : Controller.MakcuController)
    (done rest : list (St -> option error * St))
    (action : St -> option error * St) (st : St) (err : error) :
  Controller.connected c = true ->
  (Controller.BatchExecute done c st).1 = None ->
  (action (Controller.BatchExecute done c st).2).1 = Some err ->
  Controller.BatchExecute (done ++ action :: rest) c st
  = (Some (Controller.ActionFailed (Z.of_nat (length done)) err),
     (action (Controller.BatchExecute done c st).2).2)
  /\ (Controller.BatchExecute (done ++ [fun x => (None, x)]) c st).1 = None.
Proof.
  unfold Controller.BatchExecute, Controller.checkConnection.
  intros -> Hdone Hfail. cbn [negb] in *.
  split.
  - rewrite runActions_app by exact Hdone. cbn [Controller.runActions].
    rewrite Z.add_0_l.
    destruct (action _) as [[e|] st']; cbn [fst snd] in *; [|discriminate].
    injection Hfail as ->. reflexivity.
  - rewrite runActions_app by exact Hdone. reflexivity.
Qed.

(** Three counting actions; the second one fails. *)
Lemma BatchExecute_witness :
  let c := Controller.with_connected true
             (Controller.NewController Controller.DefaultConfig) in
  let tick : Z -> option error * Z := fun n => (None, n + 1) in
  let fail : Z -> option error * Z :=
    fun n => (Some (NewCommandError "no"), n + 10) in
  Controller.BatchExecute [tick; fail; tick] c 0
  = (Some (Controller.ActionFailed 1 (NewCommandError "no")), 11).
Proof.
  intros c tick fail.
  exact (proj1 (BatchExecute_stops_at_first_error c [tick] [tick] fail 0
                  (NewCommandError "no") eq_refl eq_refl eq_refl)).
Defined.

(** ** Button monitoring through both layers *)

Lemma portWrite_state (payload : string) (werr : option string)
    (s : SerialTransport) :
  (portWrite payload werr s).2 = emit (IOWrite payload) s.
Proof. unfold portWrite. destruct (serialPort s) as [[|]|]; reflexivity. Qed.

Lemma portWrite_result (payload : string) (werr : option string)
    (s : SerialTransport) :
  (portWrite payload werr s).1 = None
  <-> serialPort s = Some PortOpen /\ werr = None.
Proof.
  unfold portWrite. destruct (serialPort s) as [[|]|]; cbn [fst].
  - destruct werr; cbn; split; try discriminate; auto.
    intros [_ H]. discriminate H.
  - split; [discriminate | intros [H _]; discriminate H].
  - split; [discriminate | intros [H _]; discriminate H].
Qed.

Lemma EnableButtonMonitoring_connected (enable : bool) (env : SendEnv)
    (s : SerialTransport) :
  isConnected s = true -> serialPort s <> None ->
  let payload := (if enable then "km.buttons(1)" else "km.buttons(0)") +:+ CRLF in
  EnableButtonMonitoring enable env s
  = ((portWrite payload (writeErr env) s).1, emit (IOWrite payload) s).
Proof.
  intros Hconn Hport payload.
  assert (Hguard : negb (isConnected s) || bool_decide (serialPort s = None) = false).
  { rewrite Hconn. apply bool_decide_eq_false_2, Hport. }
  unfold EnableButtonMonitoring, SendCommand. rewrite Hguard. cbn [negb].
  pose proof (portWrite_state payload (writeErr env) s) as Hst.
  destruct enable; subst payload; cbv zeta;
    destruct (portWrite _ (writeErr env) s) as [[e|] s1];
    cbn [snd] in Hst; subst s1; reflexivity.
Qed.

(** X26. [EnableButtonMonitoring] through the controller. While the
    controller is not connected (its own flag is false, or the transport's
    is, or there is no port) the call returns the same connection error
    whichever layer refuses, and nothing changes. While it is connected the
    call writes the monitoring command followed by CR LF, once, with no
    correlation id and no pending entry, and returns nil exactly when the
    port is open and the write succeeds. The same command written by
    [Connect] for [sendInit] ends in CR alone. *)
Theorem EnableButtonMonitoring_through_controller
    (enable : bool) (env : SendEnv) (c : Controller.MakcuController) :
  let r := Controller.EnableButtonMonitoring enable env c in
  let payload := (if enable then "km.buttons(1)" else "km.buttons(0)") +:+ CRLF in
  (if Controller.IsConnected c
   then io (Controller.Transport r.2)
        = io (Controller.Transport c) ++ [IOWrite payload]
        /\ pendingCommands (Controller.Transport r.2)
           = pendingCommands (Controller.Transport c)
        /\ commandCounter (Controller.Transport r.2)
           = commandCounter (Controller.Transport c)
        /\ (r.1 = None
            <-> serialPort (Controller.Transport c) = Some PortOpen
                /\ writeErr env = None)
   else r = (Some (NewConnectionError "not connected"), c))
  /\ (forall s, sendInit s = true ->
        io (writeInit s) = io s ++ [IOWrite ("km.buttons(1)" +:+ String CR EmptyString)]
        /\ "km.buttons(1)" +:+ String CR EmptyString <> "km.buttons(1)" +:+ CRLF).
Proof.
  intros r payload. split.
  - subst r. unfold Controller.IsConnected, IsConnected,
      Controller.EnableButtonMonitoring, Controller.checkConnection.
    destruct (Controller.connected c); cbn [negb andb]; [|reflexivity].
    destruct (isConnected (Controller.Transport c)) eqn:Hconn; cbn [andb].
    + destruct (bool_decide (serialPort (Controller.Transport c) ≠ None)) eqn:Hp.
      * apply bool_decide_eq_true_1 in Hp.
        rewrite (EnableButtonMonitoring_connected enable env _ Hconn Hp).
        fold payload. cbn [fst snd Controller.Transport Controller.with_Transport].
        split; [reflexivity|]. split; [reflexivity|]. split; [reflexivity|].
        apply portWrite_result.
      * apply bool_decide_eq_false_1 in Hp.
        assert (Hnone : serialPort (Controller.Transport c) = None).
        { destruct (serialPort (Controller.Transport c)); [|reflexivity].
          exfalso. apply Hp. discriminate. }
        unfold EnableButtonMonitoring, SendCommand.
        rewrite Hconn, (bool_decide_eq_true_2 _ Hnone).
        cbn [negb orb returned fst snd]. rewrite with_Transport_same.
        reflexivity.
    + unfold EnableButtonMonitoring, SendCommand. rewrite Hconn.
      cbn [negb orb returned fst snd]. rewrite with_Transport_same.
      reflexivity.
  - intros s Hinit. unfold writeInit. rewrite Hinit.
    split; [reflexivity | discriminate].
Qed.

(** ** controller.go: lock targets *)

Lemma setLock_known (dev : Device) (name : string) (lock : bool) (m : Mouse)
    (info : lockInfo) :
  lockTargets !! name = Some info ->
  let call := mkCall (if lock then lockCmd info else unlockCmd info) false 0 in
  setLock dev name lock m
  = match (dev call).2 with
    | Some err => ([call], Some err, m)
    | None => ([call], None,
               mkMouse (storeLockBit lock (bit info) (lockStatesCache m)) true)
    end.
Proof.
  intros Hinfo call. unfold setLock. rewrite Hinfo. fold call.
  destruct (dev call) as [resp [e|]]; reflexivity.
Qed.

(** X27. [Lock] and [Unlock] by target number. On a connected controller,
    target [n] of the seven ([LockLeft] = 0 up to [LockY] = 6) is the one
    whose cache bit is [n]: one call is made, that target's lock or unlock
    command; when it fails the lock cache is as before; when it succeeds
    bit [n] of the cache takes the value asked for, the other bits stay and
    the cache is valid. A target number outside 0..6 makes no call and
    returns an error that wraps none of the package's sentinels. *)
Theorem Controller_Lock_sets_target_bit
    (dev : Device) (target : Z) (lock : bool) (c : Controller.MakcuController) :
  Controller.connected c = true ->
  let r := if lock then Controller.Lock dev target c
           else Controller.Unlock dev target c in
  if (0 <=? target) && (target <? 7) then
    exists name info,
      allTargets !! Z.to_nat target = Some name
      /\ lockTargets !! name = Some info
      /\ bit info = target
      /\ r.1.1 = [mkCall (if lock then lockCmd info else unlockCmd info) false 0]
      /\ Controller.Transport r.2 = Controller.Transport c
      /\ match r.1.2 with
         | Some _ => Controller.mouse r.2 = Controller.mouse c
         | None =>
             cacheValid (Controller.mouse r.2) = true
             /\ forall i, 0 <= i ->
                  Z.testbit (lockStatesCache (Controller.mouse r.2)) i
                  = if i =? target then lock
                    else Z.testbit (lockStatesCache (Controller.mouse c)) i
         end
  else
    exists err,
      r = ([], Some err, c) /\ forall sentinel, errorsIs err sentinel = false.
Proof.
  intros Hc r.
  assert (Hr : r = Controller.setLockByTarget dev target lock c).
  { subst r. unfold Controller.Lock, Controller.Unlock,
      Controller.checkConnection. rewrite Hc. destruct lock; reflexivity. }
  clearbody r. subst r.
  destruct (Z.leb_spec 0 target) as [H0|H0]; cbn [andb].
  2:{ unfold Controller.setLockByTarget.
      repeat (match goal with
              | |- context [target =? ?k] =>
                  destruct (Z.eqb_spec target k); [lia|]
              end).
      eexists. split; [reflexivity|]. intros []; reflexivity. }
  destruct (Z.ltb_spec target 7) as [H7|H7].
  2:{ unfold Controller.setLockByTarget.
      repeat (match goal with
              | |- context [target =? ?k] =>
                  destruct (Z.eqb_spec target k); [lia|]
              end).
      eexists. split; [reflexivity|]. intros []; reflexivity. }
  assert (Hcase : target = 0 \/ target = 1 \/ target = 2 \/ target = 3
                  \/ target = 4 \/ target = 5 \/ target = 6) by lia.
  assert (Hgen : forall name info,
            lockTargets !! name = Some info -> bit info = target ->
            let r := (setLock dev name lock (Controller.mouse c)) in
            r.1.1 = [mkCall (if lock then lockCmd info else unlockCmd info) false 0]
            /\ match r.1.2 with
               | Some _ => r.2 = Controller.mouse c
               | None =>
                   cacheValid r.2 = true
                   /\ forall i, 0 <= i ->
                        Z.testbit (lockStatesCache r.2) i
                        = if i =? target then lock
                          else Z.testbit (lockStatesCache (Controller.mouse c)) i
               end).
  { intros name info Hinfo Hbit. cbv zeta.
    rewrite (setLock_known dev name lock _ info Hinfo).
    destruct (dev _).2; cbn [fst snd]; split; try reflexivity.
    split; [reflexivity|]. intros i Hi. cbn [lockStatesCache].
    rewrite storeLockBit_testbit, Hbit by lia. reflexivity. }
  destruct Hcase as [->|[->|[->|[->|[->|[->| ->]]]]]];
    unfold Controller.setLockByTarget; cbn [Z.eqb Pos.eqb];
    unfold LockLeft, LockRight, LockMiddle, LockSide1, LockSide2, LockX, LockY;
    eexists; eexists;
    (split; [reflexivity|]); (split; [reflexivity|]); (split; [reflexivity|]);
    cbn [fst snd Controller.mouse Controller.with_mouse Controller.Transport];
    (match goal with
     | |- context [setLock dev ?name lock ?m] =>
         destruct (Hgen name _ eq_refl eq_refl) as [Hcalls Hres]
     end);
    (split; [exact Hcalls|]); (split; [reflexivity | exact Hres]).
Qed.

(** Unlocking the Y axis, target 6, on a cache that held every bit. *)
Lemma Controller_Lock_witness :
  let dev : Device := fun _ => (EmptyString, None) in
  let c := Controller.with_mouse (mkMouse 127 false)
             (Controller.with_connected true
                (Controller.NewController Controller.DefaultConfig)) in
  (Controller.Unlock dev 6 c).1 = ([mkCall "km.lock_my(0)" false 0], None)
  /\ lockStatesCache (Controller.mouse (Controller.Unlock dev 6 c).2) = 63.
Proof.
  intros dev c.
  destruct (Controller_Lock_sets_target_bit dev 6 false c eq_refl)
    as (name & info & Hname & Hinfo & _ & Hcalls & _ & _).
  injection Hname as <-. injection Hinfo as <-.
  split; [|reflexivity]. rewrite (surjective_pairing (_.1)).
  rewrite Hcalls. reflexivity.
Defined.

(** ** helpers.go *)

Lemma clamp_cases (val minVal maxVal : Z) :
  (val < minVal /\ clamp val minVal maxVal = minVal)
  \/ (minVal <= val /\ maxVal < val /\ clamp val minVal maxVal = maxVal)
  \/ (minVal <= val <= maxVal /\ clamp val minVal maxVal = val).
Proof.
  unfold clamp. destruct (Z.ltb_spec val minVal); [lia|].
  rewrite Z.gtb_ltb. destruct (Z.ltb_spec maxVal val); lia.
Qed.

(** X28. [clamp] with bounds in order returns a value within the bounds,
    the value itself when it lies within them and the nearer bound
    otherwise; clamping twice is clamping once, and [clamp] is monotone.
    With the bounds out of order the result can lie outside: a value below
    [minVal] gives [minVal], which is then above [maxVal]. *)
Theorem clamp_within_bounds (val val' minVal maxVal : Z) :
  (minVal <= maxVal ->
     minVal <= clamp val minVal maxVal <= maxVal
     /\ (minVal <= val <= maxVal -> clamp val minVal maxVal = val)
     /\ (val < minVal -> clamp val minVal maxVal = minVal)
     /\ (maxVal < val -> clamp val minVal maxVal = maxVal)
     /\ clamp (clamp val minVal maxVal) minVal maxVal = clamp val minVal maxVal
     /\ (val <= val' -> clamp val minVal maxVal <= clamp val' minVal maxVal))
  /\ (maxVal < minVal -> val < minVal ->
        maxVal < clamp val minVal maxVal).
Proof.
  pose proof (clamp_cases val minVal maxVal) as H1.
  pose proof (clamp_cases val' minVal maxVal) as H2.
  pose proof (clamp_cases (clamp val minVal maxVal) minVal maxVal) as H3.
  split; [intros Hb; repeat split; intros; lia | intros; lia].
Qed.

(** The speed bounds of [MoveAbs]: 20 is cut to 14. *)
Lemma clamp_witness : 1 <= clamp 20 1 14 <= 14.
Proof.
  exact (proj1 (proj1 (clamp_within_bounds 20 20 1 14) ltac:(lia))).
Defined.

(** X29. [absInt] on a 64-bit [int]: for every value but the least one it
    is the absolute value, hence not negative; for the least one, whose
    negation wraps, it returns the value itself, a negative number. So
    [absInt x <= 1], the test [MoveAbs] ends on, holds for -1, 0, 1 and for
    the least [int], and for nothing else. *)
Theorem absInt_wraps_at_least_int (x : Z) :
  - 2 ^ 63 <= x < 2 ^ 63 ->
  absInt x = (if x =? - 2 ^ 63 then x else Z.abs x)
  /\ - 2 ^ 63 <= absInt x < 2 ^ 63
  /\ (absInt x < 0 <-> x = - 2 ^ 63)
  /\ (absInt x <= 1 <-> -1 <= x <= 1 \/ x = - 2 ^ 63).
Proof.
  intros Hx.
  assert (Habs : absInt x = if x =? - 2 ^ 63 then x else Z.abs x).
  { unfold absInt, wrap64. destruct (Z.ltb_spec x 0) as [Hneg|Hpos].
    - destruct (Z.eqb_spec x (- 2 ^ 63)) as [->|Hne]; [reflexivity|].
      rewrite Z.mod_small by lia. lia.
    - destruct (Z.eqb_spec x (- 2 ^ 63)); lia. }
  rewrite Habs.
  destruct (Z.eqb_spec x (- 2 ^ 63)) as [->|Hne]; repeat split; intros; lia.
Qed.

Lemma absInt_witness : absInt (-5) = 5 /\ absInt (- 2 ^ 63) = - 2 ^ 63.
Proof.
  split.
  - exact (proj1 (absInt_wraps_at_least_int (-5) ltac:(lia))).
  - exact (proj1 (absInt_wraps_at_least_int (- 2 ^ 63) ltac:(lia))).
Defined.

(** ** controller.go: reading the buttons *)

Lemma GetButtonStates_unknown (s : SerialTransport) (button : Z) :
  button < 0 \/ 5 <= button ->
  GetButtonStates s !! MouseButton_String button = None.
Proof.
  intros Hb. unfold MouseButton_String.
  repeat (match goal with
          | |- context [button =? ?k] => destruct (Z.eqb_spec button k); [lia|]
          end).
  reflexivity.
Qed.

Lemma MouseButton_String_name (button : Z) :
  0 <= button < 5 ->
  buttonNames !! Z.to_nat button = Some (MouseButton_String button).
Proof.
  intros Hb.
  assert (button = 0 \/ button = 1 \/ button = 2 \/ button = 3 \/ button = 4)
    as [->|[->|[->|[->| ->]]]] by lia; reflexivity.
Qed.

(** X30. [IsPressed] and [GetButtonMask] on a connected controller read
    what the telegrams left. After any run of telegrams applied to a
    transport whose two button fields agree on the low eight bits (as they
    do on a new transport), [GetButtonMask] is the last telegram, and
    [IsPressed] of one of the five buttons is that button's bit of the last
    telegram. [IsPressed] of any other button value is false with no error:
    its name, ["unknown"], is not a key of the map of [GetButtonStates]. *)
Theorem Controller_IsPressed_reads_last_telegram
    (telegrams : list Z) (c : Controller.MakcuController) (button : Z) :
  Controller.connected c = true ->
  lowBitsAgree (Controller.Transport c) ->
  let c' := Controller.with_Transport
              (applyTelegrams telegrams (Controller.Transport c)) c in
  let mask := List.last telegrams (lastButtonMask (Controller.Transport c)) in
  Controller.GetButtonMask c' = (mask, None)
  /\ Controller.IsPressed button c'
     = (if (0 <=? button) && (button <? 5) then Z.testbit mask button else false,
        None).
Proof.
  intros Hc Hinv c' mask.
  pose proof (applyTelegrams_lowBits telegrams _ Hinv) as Hlow.
  pose proof (applyTelegrams_mask telegrams (Controller.Transport c)) as Hmask.
  fold mask in Hmask.
  set (t := applyTelegrams telegrams (Controller.Transport c)) in *.
  unfold Controller.GetButtonMask, Controller.IsPressed,
    Controller.checkConnection.
  subst c'. cbn [Controller.connected Controller.with_Transport
                 Controller.Transport].
  rewrite Hc. cbn [negb]. unfold GetButtonMask. rewrite Hmask.
  split; [reflexivity|]. f_equal.
  destruct (Z.leb_spec 0 button) as [H0|H0]; cbn [andb].
  - destruct (Z.ltb_spec button 5) as [H5|H5].
    + rewrite (GetButtonStates_lookup t _ _
                 (MouseButton_String_name button ltac:(lia))).
      cbn [default]. rewrite Z2Nat.id by lia. rewrite <- Hmask.
      apply Hlow. lia.
    + rewrite GetButtonStates_unknown by lia. reflexivity.
  - rewrite GetButtonStates_unknown by lia. reflexivity.
Qed.

(** Right pressed, then left and right: button 1 is down, button 7 and
    button 2 are not. *)
Lemma Controller_IsPressed_witness :
  let c := Controller.with_connected true
             (Controller.NewController Controller.DefaultConfig) in
  let c' := Controller.with_Transport
              (applyTelegrams [2; 3] (Controller.Transport c)) c in
  Controller.IsPressed 1 c' = (true, None)
  /\ Controller.IsPressed 7 c' = (false, None).
Proof.
  intros c c'.
  assert (Hinv : lowBitsAgree (Controller.Transport c))
    by (intros i _; reflexivity).
  split.
  - exact (proj2 (Controller_IsPressed_reads_last_telegram [2; 3] c 1
                    eq_refl Hinv)).
  - exact (proj2 (Controller_IsPressed_reads_last_telegram [2; 3] c 7
                    eq_refl Hinv)).
Defined.

